(** * E-vault for legal records: ledger, object store, directory, orchestrator

    A shallow embedding of the Python sources
      - [blockchain/blockchain.py]        (classes [Block], [Blockchain])
      - [blockchain/persistence.py]       (class [BlockchainPersistence])
      - [storage-works/document_storage.py] (class [DocumentStorage])
      - [blockchain/auth.py]              (class [UserAuth])
      - [blockchain/evault_controller.py] (class [EVaultController])
    and the properties of the specification checked against them.

    Python objects that the code shares and mutates (the lists of
    transactions and the transaction dicts) live in an explicit object
    store addressed by references; every method is a computation in a
    state-and-exception monad over one [World]. *)

From Stdlib Require Import ZArith String Ascii Strings.Byte DecimalString.
From Stdlib Require Import Floats.PrimFloat Floats.SpecFloat Floats.FloatOps.
From stdpp Require Import gmap strings list.

Open Scope Z_scope.

(** ** Python values *)

(** The values that travel through [json] and through the heterogeneous
    transaction dicts. *)
Inductive pyval :=
  | PNone
  | PBool (b : bool)
  | PInt (z : Z)
  | PFloat (f : float)
  | PStr (s : string)
  | PList (l : list pyval)
  | PDict (d : gmap string pyval).

(** [bytes] objects. *)
Abbreviation bytes := (list byte).

#[global] Instance byte_eq_dec : EqDecision byte := Byte.byte_eq_dec.

(** References to mutable objects of the object store. *)
Abbreviation loc := positive.

(** The exceptions the sources raise or let escape. *)
Inductive pyexn :=
  | ValueError (msg : string)
  | KeyError (key : string)
  | IndexError
  | AttributeError
  | TypeError
  | UnicodeDecodeError
  | binascii_Error.

(** Where the model stops short of the program: a loop that has not
    finished within the fuel it was given, and a dynamically typed value
    that has no counterpart in the typed records below. *)
Inductive limit := OutOfFuel | Untyped.

Inductive outcome (A : Type) :=
  | Return (a : A)
  | Raise (e : pyexn)
  | Beyond (l : limit).
Arguments Return {A} a.
Arguments Raise {A} e.
Arguments Beyond {A} l.

(** ** Strings and bytes *)

(** [s[:n]] for [n >= 0]. *)
Fixpoint str_take (n : nat) (s : string) : string :=
  match n, s with
  | S n', String c s' => String c (str_take n' s')
  | _, _ => EmptyString
  end.

(** [s[:n]] for any integer [n]: a negative bound counts from the end. *)
Definition str_slice_to (s : string) (n : Z) : string :=
  if 0 <=? n then str_take (Z.to_nat n) s
  else str_take (String.length s - Z.to_nat (- n))%nat s.

(** ["0" * n]: empty when [n <= 0]. *)
Fixpoint zeros (n : nat) : string :=
  match n with
  | O => EmptyString
  | S n' => String "0" (zeros n')
  end.

Definition str_mul_zero (n : Z) : string := zeros (Z.to_nat n).

(** Number of leading ['0'] characters. *)
Fixpoint leading_zeros (s : string) : nat :=
  match s with
  | String "0" s' => S (leading_zeros s')
  | _ => O
  end.

(** [str.encode()]. *)
Definition encode (s : string) : bytes := list_byte_of_string s.

Definition hex_digit (n : N) : ascii :=
  match n with
  | 0 => "0" | 1 => "1" | 2 => "2" | 3 => "3" | 4 => "4" | 5 => "5"
  | 6 => "6" | 7 => "7" | 8 => "8" | 9 => "9" | 10 => "a" | 11 => "b"
  | 12 => "c" | 13 => "d" | 14 => "e" | _ => "f"
  end%N%char.

(** [bytes.hex()], as used by [secrets.token_hex]. *)
Fixpoint hex (bs : bytes) : string :=
  match bs with
  | [] => EmptyString
  | b :: bs' =>
      let n := Byte.to_N b in
      String (hex_digit (n / 16)) (String (hex_digit (n mod 16)) (hex bs'))
  end.

(** [bchr(n)] for [0 <= n < 256]. *)
Definition bchr (n : nat) : byte := default x00 (Byte.of_nat n).

(** ** [Crypto.Util.Padding] with the [pkcs7] style *)

Definition pad (data_to_pad : bytes) (block_size : nat) : bytes :=
  let padding_len := (block_size - length data_to_pad mod block_size)%nat in
  data_to_pad ++ replicate padding_len (bchr padding_len).

Definition unpad (padded_data : bytes) (block_size : nat) : outcome bytes :=
  let pdata_len := length padded_data in
  if (pdata_len =? 0)%nat then
    Raise (ValueError "Zero-length input cannot be unpadded")
  else if negb (pdata_len mod block_size =? 0)%nat then
    Raise (ValueError "Input data is not padded")
  else
    let padding_len := Byte.to_nat (List.last padded_data x00) in
    if ((padding_len <? 1) || (Nat.min block_size pdata_len <? padding_len))%nat then
      Raise (ValueError "Padding is incorrect.")
    else if negb (bool_decide (drop (pdata_len - padding_len) padded_data
                               = replicate padding_len (bchr padding_len))) then
      Raise (ValueError "PKCS#7 padding is incorrect.")
    else Return (take (pdata_len - padding_len) padded_data).

(** ** The libraries the sources import

    [hashlib], [json], [Crypto.Cipher.AES] and [base64] are not part of the
    repository: they are taken as an interface, and what the proofs need
    of them as laws. *)
Class Externals := {
  (** [hashlib.sha256(b).hexdigest()] *)
  sha256_hexdigest : bytes → string;
  (** [json.dumps(v, sort_keys=True)] *)
  json_dumps : pyval → string;
  (** [AES.new(key, AES.MODE_CBC, iv).encrypt(data)] on block-aligned data *)
  aes_cbc_encrypt : bytes → bytes → bytes → bytes;
  (** [AES.new(key, AES.MODE_CBC, iv).decrypt(data)] on block-aligned data *)
  aes_cbc_decrypt : bytes → bytes → bytes → bytes;
  (** [base64.b64encode(b).decode("utf-8")] *)
  b64encode : bytes → string;
  (** [base64.b64decode(s)]; [None] when it raises [binascii.Error] *)
  b64decode : string → option bytes;
}.

(** AES accepts keys of 16, 24 or 32 bytes. *)
Definition aes_key_ok (key : bytes) : bool :=
  let n := length key in ((n =? 16) || (n =? 24) || (n =? 32))%nat.

(** [str(n)] for [n >= 0]. *)
Definition str_of_nat (n : nat) : string :=
  NilZero.string_of_uint (Nat.to_uint n).

(** The message of the [ValueError] that [AES.new] raises for a key of
    another length. *)
Definition aes_key_error (key : bytes) : pyexn :=
  ValueError
    ("Incorrect AES key length (" ++ str_of_nat (length key) ++ " bytes)").

Class ExternalLaws `{Externals} : Prop := {
  aes_cbc_encrypt_length key iv data :
    length (aes_cbc_encrypt key iv data) = length data;
  aes_cbc_decrypt_encrypt key iv data :
    aes_key_ok key = true → length iv = 16%nat →
    (length data mod 16 = 0)%nat →
    aes_cbc_decrypt key iv (aes_cbc_encrypt key iv data) = data;
  b64decode_b64encode b : b64decode (b64encode b) = Some b;
}.

(** ** Data model *)

(** [class Block]; [transactions] refers to a list object. *)
Record Block := mkBlock {
  index : Z;
  timestamp : float;
  transactions : loc;
  previous_hash : string;
  nonce : Z;
  hash : string;
}.

(** [class Blockchain]; [pending_transactions] refers to a list object. *)
Record Blockchain := mkBlockchain {
  chain : list Block;
  difficulty : Z;
  pending_transactions : loc;
}.

(** The metadata dict [DocumentStorage.store_document] builds. *)
Record DocumentMetadata := mkDocumentMetadata {
  doc_user_id : string;
  doc_name : string;
  doc_type : string;
  doc_hash : string;
  doc_size : nat;
  doc_created_at : float;
  doc_iv : string;
  doc_encryption_key : string;
}.

(** The user dict [UserAuth.register_user] builds. *)
Record User := mkUser {
  user_id : string;
  username : string;
  email : string;
  hashed_password : string;
  salt : string;
  role : string;
}.

(** The session dict [UserAuth.login] builds. *)
Record Session := mkSession {
  session_user_id : string;
  session_username : string;
}.

(** The object store: list objects hold references to transaction dicts. *)
Record Heap := mkHeap {
  lists : gmap loc (list loc);
  dicts : gmap loc (gmap string pyval);
}.

(** [DocumentStorage]: [self.metadata] and the ciphertext files under
    [storage_path], both keyed by document hash. *)
Record Storage := mkStorage {
  metadata : gmap string DocumentMetadata;
  files : gmap string bytes;
}.

(** [UserAuth]: [self.users] by username, [self.sessions] by token. *)
Record Auth := mkAuth {
  users : gmap string User;
  sessions : gmap string Session;
}.

(** The file [blockchain.json] as [json.load] sees it: absent; bytes that
    are not text in the encoding of [open], for which reading raises
    [UnicodeDecodeError]; text that is not JSON, for which [json.load]
    raises [json.JSONDecodeError]; or a JSON value. A file written by
    [json.dump] is read back as the value that was written. *)
Inductive snapshot :=
  | NoFile
  | Undecodable
  | Unparsable
  | JsonText (v : pyval).

(** What the process reads from outside: [time.time()] and the random
    source, each a tape with a cursor. *)
Record Env := mkEnv {
  clock : nat → float;
  ticks : nat;
  entropy : nat → byte;
  drawn : nat;
}.

Record World := mkWorld {
  heap : Heap;
  blockchain : Blockchain;
  storage : Storage;
  auth : Auth;
  blockchain_file : snapshot;
  env : Env;
}.

Definition with_heap (f : Heap → Heap) (w : World) : World :=
  mkWorld (f (heap w)) (blockchain w) (storage w) (auth w) (blockchain_file w) (env w).
Definition with_blockchain (f : Blockchain → Blockchain) (w : World) : World :=
  mkWorld (heap w) (f (blockchain w)) (storage w) (auth w) (blockchain_file w) (env w).
Definition with_storage (f : Storage → Storage) (w : World) : World :=
  mkWorld (heap w) (blockchain w) (f (storage w)) (auth w) (blockchain_file w) (env w).
Definition with_auth (f : Auth → Auth) (w : World) : World :=
  mkWorld (heap w) (blockchain w) (storage w) (f (auth w)) (blockchain_file w) (env w).
Definition with_blockchain_file (f : snapshot → snapshot) (w : World) : World :=
  mkWorld (heap w) (blockchain w) (storage w) (auth w) (f (blockchain_file w)) (env w).
Definition with_env (f : Env → Env) (w : World) : World :=
  mkWorld (heap w) (blockchain w) (storage w) (auth w) (blockchain_file w) (f (env w)).

(** ** Computations *)

(** A method call: it ends in an [outcome] and leaves a world behind; the
    mutations made before an exception stay. *)
Definition M (A : Type) : Type := World → outcome A * World.

#[global] Instance M_ret : MRet M := λ A a w, (Return a, w).
#[global] Instance M_bind : MBind M := λ A B f m w,
  match m w with
  | (Return a, w') => f a w'
  | (Raise e, w') => (Raise e, w')
  | (Beyond l, w') => (Beyond l, w')
  end.

Definition gets {A} (f : World → A) : M A := λ w, (Return (f w), w).
Definition modify (f : World → World) : M unit := λ w, (Return (), f w).
Definition raise {A} (e : pyexn) : M A := λ w, (Raise e, w).
Definition beyond {A} (l : limit) : M A := λ w, (Beyond l, w).

(** Lifting of a pure fallible step. *)
Definition lift {A} (o : outcome A) : M A := λ w, (o, w).

(** *** The object store *)

Definition new_list (l : list loc) : M loc := λ w,
  let r := fresh (dom (lists (heap w))) in
  (Return r, with_heap (λ h, mkHeap (<[r := l]> (lists h)) (dicts h)) w).

Definition list_read (r : loc) : M (list loc) :=
  gets (λ w, lists (heap w) !!! r).

(** [r.append(x)] *)
Definition list_append (r : loc) (x : loc) : M unit :=
  modify (with_heap (λ h, mkHeap (<[r := (lists h !!! r) ++ [x]]> (lists h)) (dicts h))).

Definition new_dict (d : gmap string pyval) : M loc := λ w,
  let r := fresh (dom (dicts (heap w))) in
  (Return r, with_heap (λ h, mkHeap (lists h) (<[r := d]> (dicts h))) w).

Definition dict_read (r : loc) : M (gmap string pyval) :=
  gets (λ w, dicts (heap w) !!! r).

(** [r.copy()] *)
Definition dict_copy (r : loc) : M loc :=
  d ← dict_read r; new_dict d.

(** [r[k] = v] *)
Definition dict_setitem (r : loc) (k : string) (v : pyval) : M unit :=
  modify (with_heap (λ h, mkHeap (lists h) (<[r := <[k := v]> (dicts h !!! r)]> (dicts h)))).

(** *** The environment *)

(** [time.time()] *)
Definition time_time : M float := λ w,
  let e := env w in
  (Return (clock e (ticks e)),
   with_env (λ e, mkEnv (clock e) (S (ticks e)) (entropy e) (drawn e)) w).

(** [get_random_bytes(n)] and [secrets.token_bytes(n)] *)
Definition get_random_bytes (n : nat) : M bytes := λ w,
  let e := env w in
  (Return (map (entropy e) (seq (drawn e) n)),
   with_env (λ e, mkEnv (clock e) (ticks e) (entropy e) (drawn e + n)%nat) w).

(** [secrets.token_hex(n)] *)
Definition token_hex (n : nat) : M string :=
  b ← get_random_bytes n; mret (hex b).

(** [v == s] for a value [v] obtained by [dict.get] and a [str] [s]. *)
Definition py_eq_str (v : option pyval) (s : string) : bool :=
  match v with
  | Some (PStr s') => String.eqb s' s
  | _ => false
  end.

(** ** blockchain.py: [class Block] *)

Definition set_nonce (n : Z) (b : Block) : Block :=
  mkBlock (index b) (timestamp b) (transactions b) (previous_hash b) n (hash b).
Definition set_hash (h : string) (b : Block) : Block :=
  mkBlock (index b) (timestamp b) (transactions b) (previous_hash b) (nonce b) h.

(** The dicts a list object refers to, in order. *)
Definition txs_of (h : Heap) (r : loc) : list (gmap string pyval) :=
  (λ t, dicts h !!! t) <$> (lists h !!! r).

(** The same as the JSON value [json.dumps] sees. *)
Definition transactions_value (h : Heap) (r : loc) : pyval :=
  PList (PDict <$> txs_of h r).

Module Block.
Section methods.
Context `{Externals}.

(** The dict that [calculate_hash] hands to [json.dumps]. *)
Definition hashed_fields (h : Heap) (self : Block) : pyval :=
  PDict (list_to_map [
    ("index", PInt (index self));
    ("timestamp", PFloat (timestamp self));
    ("transactions", transactions_value h (transactions self));
    ("previous_hash", PStr (previous_hash self));
    ("nonce", PInt (nonce self))]).

Definition calculate_hash (self : Block) : M string :=
  h ← gets heap;
  let block_string := encode (json_dumps (hashed_fields h self)) in
  mret (sha256_hexdigest block_string).

(** [Block(index, timestamp, transactions, previous_hash)] *)
Definition init (index : Z) (timestamp : float) (transactions : loc)
    (previous_hash : string) : M Block :=
  let self := mkBlock index timestamp transactions previous_hash 0 EmptyString in
  h ← calculate_hash self;
  mret (set_hash h self).

(** The [while] loop of [mine_block]; each test of its condition costs
    one unit of fuel. The block is returned as the loop left it. *)
Fixpoint mine_block (fuel : nat) (self : Block) (difficulty : Z) : M Block :=
  match fuel with
  | O => beyond OutOfFuel
  | S fuel' =>
      let target := str_mul_zero difficulty in
      if negb (String.eqb (str_slice_to (hash self) difficulty) target) then
        let self := set_nonce (nonce self + 1) self in
        h ← calculate_hash self;
        mine_block fuel' (set_hash h self) difficulty
      else mret self
  end.

Definition to_dict (h : Heap) (self : Block) : pyval :=
  PDict (list_to_map [
    ("index", PInt (index self));
    ("timestamp", PFloat (timestamp self));
    ("transactions", transactions_value h (transactions self));
    ("previous_hash", PStr (previous_hash self));
    ("nonce", PInt (nonce self));
    ("hash", PStr (hash self))]).
End methods.
End Block.

(** ** blockchain.py: [class Blockchain] *)

Definition set_chain (c : list Block) (bc : Blockchain) : Blockchain :=
  mkBlockchain c (difficulty bc) (pending_transactions bc).
Definition set_difficulty (d : Z) (bc : Blockchain) : Blockchain :=
  mkBlockchain (chain bc) d (pending_transactions bc).
Definition set_pending_transactions (p : loc) (bc : Blockchain) : Blockchain :=
  mkBlockchain (chain bc) (difficulty bc) p.

(** Reading a JSON value at the type a field of the records has. *)
Definition as_int (v : pyval) : M Z :=
  match v with PInt z => mret z | _ => beyond Untyped end.
Definition as_float (v : pyval) : M float :=
  match v with PFloat f => mret f | _ => beyond Untyped end.
Definition as_str (v : pyval) : M string :=
  match v with PStr s => mret s | _ => beyond Untyped end.

Fixpoint as_dicts (l : list pyval) : option (list (gmap string pyval)) :=
  match l with
  | [] => Some []
  | PDict d :: l' => (d ::.) <$> as_dicts l'
  | _ => None
  end.

(** A parsed JSON list of objects becomes a list object of dict objects. *)
Definition load_transactions (v : pyval) : M loc :=
  match v with
  | PList l =>
      match as_dicts l with
      | Some ds => refs ← mapM new_dict ds; new_list refs
      | None => beyond Untyped
      end
  | _ => beyond Untyped
  end.

(** [v[k]] for a string [k]. *)
Definition getitem (v : pyval) (k : string) : M pyval :=
  match v with
  | PDict d =>
      match d !! k with
      | Some x => mret x
      | None => raise (KeyError k)
      end
  | _ => raise TypeError
  end.

Fixpoint chars (s : string) : list pyval :=
  match s with
  | EmptyString => []
  | String c s' => PStr (String c EmptyString) :: chars s'
  end.

(** What [for x in v] iterates over. *)
Definition py_iter (v : pyval) : M (list pyval) :=
  match v with
  | PList l => mret l
  | PStr s => mret (chars s)
  | PDict d => mret (PStr <$> (map_to_list d).*1)
  | _ => raise TypeError
  end.

Module Blockchain.
Section methods.
Context `{Externals}.

Definition create_genesis_block : M Block :=
  now ← time_time;
  txs ← new_list [];
  Block.init 0 now txs "0".

(** [Blockchain()] *)
Definition init : M unit :=
  genesis ← create_genesis_block;
  pending ← new_list [];
  modify (with_blockchain (λ _, mkBlockchain [genesis] 2 pending)).

(** [self.chain[-1]] *)
Definition get_latest_block : M Block :=
  c ← gets (λ w, chain (blockchain w));
  match last c with
  | Some b => mret b
  | None => raise IndexError
  end.

Definition add_block (fuel : nat) (transactions : loc) : M Block :=
  latest_block ← get_latest_block;
  now ← time_time;
  new_block ← Block.init (index latest_block + 1) now transactions
                (hash latest_block);
  d ← gets (λ w, difficulty (blockchain w));
  new_block ← Block.mine_block fuel new_block d;
  modify (with_blockchain (λ bc, set_chain (chain bc ++ [new_block]) bc));;
  mret new_block.

Definition add_transaction (transaction : loc) : M Z :=
  pending ← gets (λ w, pending_transactions (blockchain w));
  list_append pending transaction;;
  latest_block ← get_latest_block;
  mret (index latest_block + 1).

Definition mine_pending_transactions (fuel : nat) : M (option Block) :=
  pending ← gets (λ w, pending_transactions (blockchain w));
  txs ← list_read pending;
  match txs with
  | [] => mret None
  | _ :: _ =>
      new_block ← add_block fuel pending;
      empty ← new_list [];
      modify (with_blockchain (set_pending_transactions empty));;
      mret (Some new_block)
  end.

(** The body of [for i in range(1, len(self.chain))], over the indices
    still to visit. *)
Fixpoint is_chain_valid_loop (c : list Block) (range : list nat) : M bool :=
  match range with
  | [] => mret true
  | i :: range' =>
      match c !! i, c !! (i - 1)%nat with
      | Some current_block, Some previous_block =>
          h ← Block.calculate_hash current_block;
          if negb (String.eqb (hash current_block) h) then mret false
          else if negb (String.eqb (previous_hash current_block)
                                   (hash previous_block)) then mret false
          else is_chain_valid_loop c range'
      | _, _ => raise IndexError
      end
  end.

Definition is_chain_valid : M bool :=
  c ← gets (λ w, chain (blockchain w));
  is_chain_valid_loop c (seq 1 (length c - 1)).

Fixpoint get_block_by_hash_loop (c : list Block) (hash_value : string)
    : option Block :=
  match c with
  | [] => None
  | block :: c' =>
      if String.eqb (hash block) hash_value then Some block
      else get_block_by_hash_loop c' hash_value
  end.

Definition get_block_by_hash (hash_value : string) : M (option Block) :=
  c ← gets (λ w, chain (blockchain w));
  mret (get_block_by_hash_loop c hash_value).

(** The inner loop of [get_transactions_by_user] over one block; the
    result list [user_transactions] is threaded through. *)
Fixpoint user_transactions_of_block (block : Block) (txs : list loc)
    (user_id : string) (user_transactions : list loc) : M (list loc) :=
  match txs with
  | [] => mret user_transactions
  | transaction :: txs' =>
      d ← dict_read transaction;
      if py_eq_str (d !! "user_id") user_id then
        transaction_copy ← dict_copy transaction;
        dict_setitem transaction_copy "block_hash" (PStr (hash block));;
        dict_setitem transaction_copy "timestamp" (PFloat (timestamp block));;
        user_transactions_of_block block txs' user_id
          (user_transactions ++ [transaction_copy])
      else user_transactions_of_block block txs' user_id user_transactions
  end.

Fixpoint get_transactions_by_user_loop (c : list Block) (user_id : string)
    (user_transactions : list loc) : M (list loc) :=
  match c with
  | [] => mret user_transactions
  | block :: c' =>
      txs ← list_read (transactions block);
      user_transactions ←
        user_transactions_of_block block txs user_id user_transactions;
      get_transactions_by_user_loop c' user_id user_transactions
  end.

Definition get_transactions_by_user (user_id : string) : M (list loc) :=
  c ← gets (λ w, chain (blockchain w));
  get_transactions_by_user_loop c user_id [].

Definition to_dict : M pyval :=
  h ← gets heap;
  bc ← gets blockchain;
  mret (PDict (list_to_map [
    ("chain", PList (Block.to_dict h <$> chain bc));
    ("pending_transactions", transactions_value h (pending_transactions bc));
    ("difficulty", PInt (difficulty bc))])).

(** One round of the loop of [from_dict]. *)
Definition block_from_dict (block_data : pyval) : M Block :=
  i ← getitem block_data "index";
  t ← getitem block_data "timestamp";
  txs ← getitem block_data "transactions";
  p ← getitem block_data "previous_hash";
  i ← as_int i;
  t ← as_float t;
  txs ← load_transactions txs;
  p ← as_str p;
  block ← Block.init i t txs p;
  n ← getitem block_data "nonce";
  n ← as_int n;
  block ← mret (set_nonce n block);
  h ← getitem block_data "hash";
  h ← as_str h;
  mret (set_hash h block).

Fixpoint from_dict_loop (items : list pyval) : M unit :=
  match items with
  | [] => mret ()
  | block_data :: items' =>
      block ← block_from_dict block_data;
      modify (with_blockchain (λ bc, set_chain (chain bc ++ [block]) bc));;
      from_dict_loop items'
  end.

Definition from_dict (data : pyval) : M unit :=
  match data with
  | PDict d =>
      dv ← as_int (default (PInt 2) (d !! "difficulty"));
      modify (with_blockchain (set_difficulty dv));;
      pending ← load_transactions (default (PList []) (d !! "pending_transactions"));
      modify (with_blockchain (set_pending_transactions pending));;
      modify (with_blockchain (set_chain []));;
      items ← py_iter (default (PList []) (d !! "chain"));
      from_dict_loop items
  | _ => raise AttributeError
  end.
End methods.
End Blockchain.

(** ** persistence.py: [class BlockchainPersistence] *)

Module BlockchainPersistence.
Section methods.
Context `{Externals}.

Definition save_blockchain : M unit :=
  blockchain_data ← Blockchain.to_dict;
  modify (with_blockchain_file (λ _, JsonText blockchain_data)).

(** The ledger built is the one left in the world; it is also returned.
    Of what reading the file can raise, [except json.JSONDecodeError]
    covers the case [Unparsable] only. *)
Definition load_blockchain : M Blockchain :=
  Blockchain.init;;
  f ← gets blockchain_file;
  match f with
  | NoFile => mret ()
  | Undecodable => raise UnicodeDecodeError
  | Unparsable => mret ()
  | JsonText blockchain_data => Blockchain.from_dict blockchain_data
  end;;
  gets blockchain.
End methods.
End BlockchainPersistence.

(** ** document_storage.py: [class DocumentStorage] *)

Module DocumentStorage.
Section methods.
Context `{Externals}.

Definition _generate_document_hash (content : bytes) : string :=
  sha256_hexdigest content.

(** [AES.new] refuses a key of the wrong length, and draws the IV itself
    when none is given. *)
Definition _encrypt_document (content key : bytes) : M (bytes * bytes) :=
  if negb (aes_key_ok key) then raise (aes_key_error key)
  else
    iv ← get_random_bytes 16;
    let ct_bytes := aes_cbc_encrypt key iv (pad content 16) in
    mret (ct_bytes, iv).

Definition _decrypt_document (encrypted_content key iv : bytes) : M bytes :=
  if negb (aes_key_ok key) then raise (aes_key_error key)
  else if negb (length iv =? 16)%nat then
    raise (ValueError "Incorrect IV length (it must be 16 bytes long)")
  else if negb (length encrypted_content mod 16 =? 0)%nat then
    raise (ValueError "Data must be padded to 16 byte boundary in CBC mode")
  else lift (unpad (aes_cbc_decrypt key iv encrypted_content) 16).

Definition store_document (user_id document_name : string)
    (document_content : bytes) (document_type : string)
    (encryption_key : option bytes) : M DocumentMetadata :=
  encryption_key ←
    match encryption_key with
    | None => get_random_bytes 32
    | Some k => mret k
    end;
  let document_hash := _generate_document_hash document_content in
  '(encrypted_content, iv) ← _encrypt_document document_content encryption_key;
  now ← time_time;
  let document_metadata :=
    {| doc_user_id := user_id;
       doc_name := document_name;
       doc_type := document_type;
       doc_hash := document_hash;
       doc_size := length document_content;
       doc_created_at := now;
       doc_iv := b64encode iv;
       doc_encryption_key := b64encode encryption_key |} in
  modify (with_storage (λ s,
    mkStorage (metadata s) (<[document_hash := encrypted_content]> (files s))));;
  modify (with_storage (λ s,
    mkStorage (<[document_hash := document_metadata]> (metadata s)) (files s)));;
  mret document_metadata.

(** [base64.b64decode] of a stored field. *)
Definition b64decode_field (s : string) : M bytes :=
  match b64decode s with
  | Some b => mret b
  | None => raise binascii_Error
  end.

Definition retrieve_document (document_hash : string)
    : M (bytes * DocumentMetadata) :=
  s ← gets storage;
  match metadata s !! document_hash with
  | None =>
      raise (ValueError ("Document with hash " ++ document_hash ++ " not found"))
  | Some document_metadata =>
      match files s !! document_hash with
      | None =>
          raise (ValueError ("Document file not found for hash " ++ document_hash))
      | Some encrypted_content =>
          iv ← b64decode_field (doc_iv document_metadata);
          encryption_key ← b64decode_field (doc_encryption_key document_metadata);
          decrypted_content ← _decrypt_document encrypted_content encryption_key iv;
          mret (decrypted_content, document_metadata)
      end
  end.

Definition delete_document (document_hash : string) : M bool :=
  s ← gets storage;
  match metadata s !! document_hash with
  | None => mret false
  | Some _ =>
      modify (with_storage (λ s,
        mkStorage (metadata s) (delete document_hash (files s))));;
      modify (with_storage (λ s,
        mkStorage (delete document_hash (metadata s)) (files s)));;
      mret true
  end.

Definition get_user_documents (user_id : string)
    : M (gmap string DocumentMetadata) :=
  s ← gets storage;
  mret (filter (λ kv, doc_user_id kv.2 = user_id) (metadata s)).
End methods.
End DocumentStorage.

(** ** auth.py: [class UserAuth] *)

(** [user_data["hashed_password"] = h; user_data["salt"] = s] *)
Definition set_password (h s : string) (u : User) : User :=
  mkUser (user_id u) (username u) (email u) h s (role u).

(** [user_data["user_id"] == i] *)
Definition has_user_id (i : string) (u : User) : bool :=
  String.eqb (user_id u) i.

Module UserAuth.
Section methods.
Context `{Externals}.

Definition _hash_password (password : string) (salt : option string)
    : M (string * string) :=
  salt ← match salt with
         | None => token_hex 16
         | Some s => mret s
         end;
  mret (sha256_hexdigest (encode (password ++ salt)), salt).

Definition register_user (username password email : string) : M User :=
  a ← gets auth;
  match users a !! username with
  | Some _ => raise (ValueError "Username already exists")
  | None =>
      '(hashed_password, salt) ← _hash_password password None;
      user_id ← token_hex 16;
      let user_data :=
        {| user_id := user_id; username := username; email := email;
           hashed_password := hashed_password; salt := salt;
           role := "user" |} in
      modify (with_auth (λ a,
        mkAuth (<[username := user_data]> (users a)) (sessions a)));;
      mret user_data
  end.

Definition login (username password : string) : M (option string) :=
  a ← gets auth;
  match users a !! username with
  | None => mret None
  | Some user_data =>
      '(hashed, _) ← _hash_password password (Some (salt user_data));
      if negb (String.eqb hashed (hashed_password user_data))
      then mret None
      else
        session_token ← token_hex 32;
        modify (with_auth (λ a,
          mkAuth (users a)
            (<[session_token := mkSession (user_id user_data) username]>
               (sessions a))));;
        mret (Some session_token)
  end.

Definition logout (session_token : string) : M bool :=
  a ← gets auth;
  match sessions a !! session_token with
  | Some _ =>
      modify (with_auth (λ a,
        mkAuth (users a) (delete session_token (sessions a))));;
      mret true
  | None => mret false
  end.

Definition get_user_by_session (session_token : string) : M (option User) :=
  a ← gets auth;
  match sessions a !! session_token with
  | None => mret None
  | Some session_data =>
      let username := session_username session_data in
      match users a !! username with
      | None => mret None
      | Some user_data => mret (Some user_data)
      end
  end.

(** The loop of [get_user_by_id] over [self.users.items()]: the first
    entry with the identifier is returned. *)
Fixpoint get_user_by_id_loop (items : list (string * User)) (user_id : string)
    : option User :=
  match items with
  | [] => None
  | (_, user_data) :: items' =>
      if has_user_id user_id user_data then Some user_data
      else get_user_by_id_loop items' user_id
  end.

(** A dict is iterated in the order of insertion, which the map does not
    record: the entries are taken in the order [map_to_list] gives, and
    the properties of the loop are stated for every order. *)
Definition get_user_by_id (user_id : string) : M (option User) :=
  a ← gets auth;
  mret (get_user_by_id_loop (map_to_list (users a)) user_id).

Definition change_password (username old_password new_password : string)
    : M bool :=
  a ← gets auth;
  match users a !! username with
  | None => mret false
  | Some user_data =>
      '(hashed_old_password, _) ←
        _hash_password old_password (Some (salt user_data));
      if negb (String.eqb hashed_old_password (hashed_password user_data))
      then mret false
      else
        '(hashed_new_password, salt) ← _hash_password new_password None;
        let user_data := set_password hashed_new_password salt user_data in
        modify (with_auth (λ a,
          mkAuth (<[username := user_data]> (users a)) (sessions a)));;
        mret true
  end.
End methods.
End UserAuth.

(** ** evault_controller.py: [class EVaultController] *)

Module EVaultController.
Section methods.
Context `{Externals}.

(** [EVaultController(storage_path)]: the ledger is loaded from its
    snapshot; the directories of [DocumentStorage] and [UserAuth] are the
    ones of the world. *)
Definition init : M unit :=
  BlockchainPersistence.load_blockchain;; mret ().

Definition register_user (username password email : string) : M User :=
  UserAuth.register_user username password email.

Definition login (username password : string) : M (option string) :=
  UserAuth.login username password.

Definition logout (session_token : string) : M bool :=
  UserAuth.logout session_token.

Definition get_user_by_session (session_token : string) : M (option User) :=
  UserAuth.get_user_by_session session_token.

Definition upload_document (fuel : nat) (session_token document_name : string)
    (document_content : bytes) (document_type : string) : M DocumentMetadata :=
  user_data ← UserAuth.get_user_by_session session_token;
  match user_data with
  | None => raise (ValueError "Invalid session")
  | Some user_data =>
      let uid := user_id user_data in
      document_metadata ←
        DocumentStorage.store_document uid document_name document_content
          document_type None;
      now ← time_time;
      transaction ← new_dict (list_to_map [
        ("type", PStr "document_upload");
        ("user_id", PStr uid);
        ("document_hash", PStr (doc_hash document_metadata));
        ("document_name", PStr document_name);
        ("document_type", PStr document_type);
        ("timestamp", PFloat now)]);
      Blockchain.add_transaction transaction;;
      Blockchain.mine_pending_transactions fuel;;
      BlockchainPersistence.save_blockchain;;
      mret document_metadata
  end.

Definition get_document (session_token document_hash : string)
    : M (bytes * DocumentMetadata) :=
  user_data ← UserAuth.get_user_by_session session_token;
  match user_data with
  | None => raise (ValueError "Invalid session")
  | Some user_data =>
      let uid := user_id user_data in
      '(document_content, document_metadata) ←
        DocumentStorage.retrieve_document document_hash;
      if negb (String.eqb (doc_user_id document_metadata) uid) then
        raise (ValueError "Access denied")
      else mret (document_content, document_metadata)
  end.

(** The loop over [self.auth.users.items()] stops at the entry whose key
    is [recipient_username]: a lookup, keys being unique. *)
Definition transfer_document (fuel : nat)
    (session_token document_hash recipient_username : string)
    : M DocumentMetadata :=
  user_data ← UserAuth.get_user_by_session session_token;
  match user_data with
  | None => raise (ValueError "Invalid session")
  | Some user_data =>
      let uid := user_id user_data in
      '(_, document_metadata) ← DocumentStorage.retrieve_document document_hash;
      if negb (String.eqb (doc_user_id document_metadata) uid) then
        raise (ValueError "Access denied")
      else
        recipient_user ← gets (λ w, users (auth w) !! recipient_username);
        match recipient_user with
        | None =>
            raise (ValueError
              ("Recipient user '" ++ recipient_username ++ "' not found"))
        | Some recipient_user =>
            now ← time_time;
            transaction ← new_dict (list_to_map [
              ("type", PStr "document_transfer");
              ("sender_id", PStr uid);
              ("recipient_id", PStr (user_id recipient_user));
              ("document_hash", PStr document_hash);
              ("document_name", PStr (doc_name document_metadata));
              ("timestamp", PFloat now)]);
            '(document_content, _) ←
              DocumentStorage.retrieve_document document_hash;
            encryption_key ←
              DocumentStorage.b64decode_field
                (doc_encryption_key document_metadata);
            new_document_metadata ←
              DocumentStorage.store_document (user_id recipient_user)
                (doc_name document_metadata) document_content
                (doc_type document_metadata) (Some encryption_key);
            Blockchain.add_transaction transaction;;
            Blockchain.mine_pending_transactions fuel;;
            BlockchainPersistence.save_blockchain;;
            mret new_document_metadata
        end
  end.

Definition get_user_documents (session_token : string)
    : M (gmap string DocumentMetadata) :=
  user_data ← UserAuth.get_user_by_session session_token;
  match user_data with
  | None => raise (ValueError "Invalid session")
  | Some user_data => DocumentStorage.get_user_documents (user_id user_data)
  end.

(** The inner loop of [get_document_history] over one block. *)
Fixpoint document_history_of_block (block : Block) (txs : list loc)
    (document_hash : string) (document_history : list loc) : M (list loc) :=
  match txs with
  | [] => mret document_history
  | transaction :: txs' =>
      d ← dict_read transaction;
      if py_eq_str (d !! "document_hash") document_hash then
        transaction_copy ← dict_copy transaction;
        dict_setitem transaction_copy "block_hash" (PStr (hash block));;
        dict_setitem transaction_copy "block_index" (PInt (index block));;
        document_history_of_block block txs' document_hash
          (document_history ++ [transaction_copy])
      else document_history_of_block block txs' document_hash document_history
  end.

Fixpoint get_document_history_loop (c : list Block) (document_hash : string)
    (document_history : list loc) : M (list loc) :=
  match c with
  | [] => mret document_history
  | block :: c' =>
      txs ← list_read (transactions block);
      document_history ←
        document_history_of_block block txs document_hash document_history;
      get_document_history_loop c' document_hash document_history
  end.

Definition get_document_history (session_token document_hash : string)
    : M (list loc) :=
  user_data ← UserAuth.get_user_by_session session_token;
  match user_data with
  | None => raise (ValueError "Invalid session")
  | Some _ =>
      c ← gets (λ w, chain (blockchain w));
      get_document_history_loop c document_hash []
  end.

Definition get_user_transactions (session_token : string) : M (list loc) :=
  user_data ← UserAuth.get_user_by_session session_token;
  match user_data with
  | None => raise (ValueError "Invalid session")
  | Some user_data => Blockchain.get_transactions_by_user (user_id user_data)
  end.

Definition verify_blockchain : M bool := Blockchain.is_chain_valid.
End methods.
End EVaultController.

(** ** A small instance of the interface

    Stand-ins for the imported libraries, simple enough to run: a 16-bit
    checksum in place of SHA-256, a plain rendering in place of
    [json.dumps], a byte-wise involution in place of AES-CBC, and the
    identity text encoding in place of base64. They serve to evaluate the
    model on concrete inputs; no theorem below depends on them. *)

Module Demo.

Definition checksum (bs : bytes) : N :=
  foldl (λ acc b, (acc * 33 + Byte.to_N b + 1) mod 65536)%N 5381%N bs.

Definition checksum_hexdigest (bs : bytes) : string :=
  let c := checksum bs in
  String (hex_digit (c / 4096)) (String (hex_digit ((c / 256) mod 16))
    (String (hex_digit ((c / 16) mod 16))
      (String (hex_digit (c mod 16)) EmptyString))).

Definition string_of_Z (z : Z) : string :=
  NilZero.string_of_int (Z.to_int z).

Definition string_of_float (f : float) : string :=
  match Prim2SF f with
  | S754_zero _ => "0.0"
  | S754_infinity s => if s then "-Infinity" else "Infinity"
  | S754_nan => "NaN"
  | S754_finite s m e =>
      ((if s then "-" else EmptyString) ++ string_of_Z (Z.pos m) ++ "p"
         ++ string_of_Z e)%string
  end.

Definition quoted (s : string) : string := ("'" ++ s ++ "'")%string.

Fixpoint render (v : pyval) : string :=
  match v with
  | PNone => "null"
  | PBool b => if b then "true" else "false"
  | PInt z => string_of_Z z
  | PFloat f => string_of_float f
  | PStr s => quoted s
  | PList l =>
      ("[" ++ foldr (λ x acc, render x ++ ", " ++ acc) "]" l)%string
  | PDict d =>
      ("{" ++ map_fold (λ k x acc, quoted k ++ ": " ++ render x ++ ", " ++ acc)
                "}" d)%string
  end.

Definition flip (b : byte) : byte :=
  let '(b0, (b1, (b2, (b3, (b4, (b5, (b6, b7))))))) := Byte.to_bits b in
  Byte.of_bits (negb b0, (negb b1, (negb b2, (negb b3,
               (negb b4, (negb b5, (negb b6, negb b7))))))).

Definition scramble (key iv data : bytes) : bytes := flip <$> reverse data.
Definition unscramble (key iv data : bytes) : bytes := reverse (flip <$> data).

#[export] Instance externals : Externals := {|
  sha256_hexdigest := checksum_hexdigest;
  json_dumps := render;
  aes_cbc_encrypt := scramble;
  aes_cbc_decrypt := unscramble;
  b64encode := string_of_list_byte;
  b64decode := λ s, Some (list_byte_of_string s);
|}.

(** An empty vault at process start: nothing on disk, a clock that
    advances by a quarter of a second per reading, and a counter as the
    random source. *)
Definition world0 : World := {|
  heap := mkHeap ∅ ∅;
  blockchain := mkBlockchain [] 2 1%positive;
  storage := mkStorage ∅ ∅;
  auth := mkAuth ∅ ∅;
  blockchain_file := NoFile;
  env := mkEnv (λ n, Nat.iter n (λ t, PrimFloat.add t 0.25) 1700000000%float)
               0
               (λ n, bchr ((n * 7 + 3) mod 256))
               0;
|}.

(** The outcome of a computation and the world it leaves. *)
Definition outcome_of {A} (m : M A) (w : World) : outcome A := (m w).1.
Definition world_after {A} (m : M A) (w : World) : World := (m w).2.

Definition token_of (o : outcome (option string)) : string :=
  match o with
  | Return (Some t) => t
  | _ => EmptyString
  end.

(** A ledger on its own: created, given one transaction, sealed. *)
Definition note : gmap string pyval :=
  list_to_map [("type", PStr "document_upload"); ("user_id", PStr "u1");
               ("document_hash", PStr "d9de")].
Definition ledger_new : World := world_after Blockchain.init world0.
Definition ledger_note : World := world_after (new_dict note) ledger_new.
Definition ledger_pending : World :=
  world_after (Blockchain.add_transaction 1%positive) ledger_note.
Definition ledger_sealed : World :=
  world_after (Blockchain.mine_pending_transactions 5000) ledger_pending.

(** The vault: started, "alice" and "bob" registered and logged in,
    "hello" uploaded by alice, then transferred to bob, or to alice
    herself. *)
Definition hello : bytes := list_byte_of_string "hello".
Definition started : World := world_after EVaultController.init world0.
Definition registered : World :=
  world_after (EVaultController.register_user "bob" "pw2" "b@x")
    (world_after (EVaultController.register_user "alice" "pw1" "a@x") started).
Definition alice_token : string :=
  token_of (outcome_of (EVaultController.login "alice" "pw1") registered).
Definition alice_in : World :=
  world_after (EVaultController.login "alice" "pw1") registered.
Definition bob_token : string :=
  token_of (outcome_of (EVaultController.login "bob" "pw2") alice_in).
Definition logged_in : World :=
  world_after (EVaultController.login "bob" "pw2") alice_in.
Definition uploaded : World :=
  world_after
    (EVaultController.upload_document 5000 alice_token "greet.txt" hello
       "text/plain") logged_in.
Definition hello_hash : string := sha256_hexdigest hello.
Definition transferred : World :=
  world_after
    (EVaultController.transfer_document 5000 alice_token hello_hash "bob")
    uploaded.
Definition transferred_to_self : World :=
  world_after
    (EVaultController.transfer_document 5000 alice_token hello_hash "alice")
    uploaded.

(** The block after genesis. *)
Definition second_block (w : World) : Block :=
  nth 1 (chain (blockchain w)) (mkBlock 0 0%float 1%positive EmptyString 0 EmptyString).
Definition genesis_block (w : World) : Block :=
  nth 0 (chain (blockchain w)) (mkBlock 0 0%float 1%positive EmptyString 0 EmptyString).

(** A session whose user is not in the directory. *)
Definition dangling : World :=
  with_auth (λ _, mkAuth ∅ {["t0" := mkSession "u0" "ghost"]}) world0.

(** Snapshot files that are valid JSON and not a ledger. *)
Definition with_json_list : World :=
  with_blockchain_file (λ _, JsonText (PList [])) world0.
Definition with_json_block_without_index : World :=
  with_blockchain_file
    (λ _, JsonText (PDict {["chain" := PList [PDict ∅]]})) world0.

(** A snapshot file that is not text, and the ledger loaded again from
    the file that the transfer has left. *)
Definition with_binary_file : World :=
  with_blockchain_file (λ _, Undecodable) world0.
Definition restarted : World :=
  world_after BlockchainPersistence.load_blockchain transferred.

(** A snapshot file that holds an empty JSON object, the vault started on
    it, and "alice" registered and logged in there. *)
Definition with_json_empty_object : World :=
  with_blockchain_file (λ _, JsonText (PDict ∅)) world0.
Definition without_genesis : World :=
  world_after EVaultController.init with_json_empty_object.
Definition alice_without_genesis : World :=
  world_after (EVaultController.login "alice" "pw1")
    (world_after (EVaultController.register_user "alice" "pw1" "a@x")
       without_genesis).
Definition alice_token_without_genesis : string :=
  token_of
    (outcome_of (EVaultController.login "alice" "pw1")
       (world_after (EVaultController.register_user "alice" "pw1" "a@x")
          without_genesis)).

End Demo.

(** ** Vocabulary of the properties *)

(** The test that ends the loop of [mine_block]. *)
Definition meets_target (d : Z) (s : string) : bool :=
  String.eqb (str_slice_to s d) (str_mul_zero d).

(** A list object that exists, all of whose entries are dict objects
    that exist. *)
Definition owns (h : Heap) (r : loc) : Prop :=
  r ∈ dom (lists h) ∧ ∀ t, t ∈ lists h !!! r → t ∈ dom (dicts h).

(** The ledger's references are live, and no sealed block shares its
    list of transactions with the pending buffer. *)
Definition ledger_wf (w : World) : Prop :=
  owns (heap w) (pending_transactions (blockchain w)) ∧
  ∀ b, b ∈ chain (blockchain w) →
    owns (heap w) (transactions b) ∧
    transactions b ≠ pending_transactions (blockchain w).

(** The sealed chain as a value: each block with the transactions it
    holds. *)
Definition sealed (w : World) : list (Block * list (gmap string pyval)) :=
  (λ b, (b, txs_of (heap w) (transactions b))) <$> chain (blockchain w).

(** The pending buffer as a value. *)
Definition pending (w : World) : list (gmap string pyval) :=
  txs_of (heap w) (pending_transactions (blockchain w)).

Definition is_beyond {A} (o : outcome A) : bool :=
  match o with Beyond _ => true | _ => false end.

(** The list object [r] and the dicts it reaches are in [h'] what they
    were in [h]. *)
Definition keeps (h h' : Heap) (r : loc) : Prop :=
  owns h r → owns h' r ∧ txs_of h' r = txs_of h r ∧ lists h' !!! r = lists h !!! r.

(** The world gained dict objects and is otherwise as it was. *)
Definition only_new_dicts (w w' : World) : Prop :=
  w' = with_heap (λ _, heap w') w ∧
  lists (heap w') = lists (heap w) ∧
  dicts (heap w) ⊆ dicts (heap w').

(** The outcome of an operation on the sealed chain: nothing, or one
    block on top whose index follows the tip's. *)
Definition appends_at_tip (w w' : World) : Prop :=
  sealed w' = sealed w ∨
  ∃ tip b txs,
    last (chain (blockchain w)) = Some tip ∧ index b = index tip + 1 ∧
    sealed w' = sealed w ++ [(b, txs)].

(** Nothing sealed is lost or changed, and the chain does not shrink. *)
Definition chain_preserved (w w' : World) : Prop :=
  appends_at_tip w w' ∧
  sealed w `prefix_of` sealed w' ∧
  (length (chain (blockchain w)) ≤ length (chain (blockchain w')))%nat.

(** The user a session token stands for. *)
Definition session_user (a : Auth) (session_token : string) : option User :=
  match sessions a !! session_token with
  | None => None
  | Some session_data => users a !! session_username session_data
  end.

Definition set_index (i : Z) (b : Block) : Block :=
  mkBlock i (timestamp b) (transactions b) (previous_hash b) (nonce b) (hash b).
Definition set_timestamp (t : float) (b : Block) : Block :=
  mkBlock (index b) t (transactions b) (previous_hash b) (nonce b) (hash b).
Definition set_transactions (r : loc) (b : Block) : Block :=
  mkBlock (index b) (timestamp b) r (previous_hash b) (nonce b) (hash b).
Definition set_previous_hash (p : string) (b : Block) : Block :=
  mkBlock (index b) (timestamp b) (transactions b) p (nonce b) (hash b).

(** The ledger with the block at position [i] replaced, and with its
    chain cut to its first [k] blocks. *)
Definition replace_block (i : nat) (b : Block) (w : World) : World :=
  with_blockchain (λ bc, set_chain (<[i := b]> (chain bc)) bc) w.
Definition truncate (k : nat) (w : World) : World :=
  with_blockchain (λ bc, set_chain (take k (chain bc)) bc) w.

(** A transaction dict that [dict.get(key) == value] selects, and the
    copy returned for it, with two entries set. *)
Definition selects (key value : string) (d : gmap string pyval) : Prop :=
  py_eq_str (d !! key) value = true.
#[global] Instance selects_dec key value d : Decision (selects key value d) :=
  decide (py_eq_str (d !! key) value = true).
Definition marked (marks : (string * pyval) * (string * pyval))
    (d : gmap string pyval) : gmap string pyval :=
  <[marks.2.1 := marks.2.2]> (<[marks.1.1 := marks.1.2]> d).

(** The rows a scan of the sealed chain yields: block after block, and
    within a block in the order of its transactions. *)
Definition rows_of (key value : string)
    (marks : Block → (string * pyval) * (string * pyval))
    (s : list (Block * list (gmap string pyval))) : list (gmap string pyval) :=
  s ≫= (λ bt, marked (marks bt.1) <$> filter (selects key value) bt.2).

(** The loops of the two scans, with the key compared and the two
    entries set as parameters. *)
Fixpoint scan_block (key value : string)
    (marks : (string * pyval) * (string * pyval))
    (txs : list loc) (acc : list loc) : M (list loc) :=
  match txs with
  | [] => mret acc
  | transaction :: txs' =>
      d ← dict_read transaction;
      if py_eq_str (d !! key) value then
        transaction_copy ← dict_copy transaction;
        dict_setitem transaction_copy marks.1.1 marks.1.2;;
        dict_setitem transaction_copy marks.2.1 marks.2.2;;
        scan_block key value marks txs' (acc ++ [transaction_copy])
      else scan_block key value marks txs' acc
  end.

Fixpoint scan_chain (key value : string)
    (marks : Block → (string * pyval) * (string * pyval))
    (c : list Block) (acc : list loc) : M (list loc) :=
  match c with
  | [] => mret acc
  | block :: c' =>
      txs ← list_read (transactions block);
      acc ← scan_block key value (marks block) txs acc;
      scan_chain key value marks c' acc
  end.

(** The marks of [get_transactions_by_user] and of
    [get_document_history]. *)
Definition user_marks (b : Block) : (string * pyval) * (string * pyval) :=
  (("block_hash", PStr (hash b)), ("timestamp", PFloat (timestamp b))).
Definition history_marks (b : Block) : (string * pyval) * (string * pyval) :=
  (("block_hash", PStr (hash b)), ("block_index", PInt (index b))).

(** A block as a value: its fields, with the transactions it holds in
    place of the reference to them. *)
Definition block_value (h : Heap) (b : Block)
    : Z * float * list (gmap string pyval) * string * Z * string :=
  (index b, timestamp b, txs_of h (transactions b), previous_hash b, nonce b,
   hash b).

(** The ledger as a value: the blocks, the pending buffer and the
    difficulty. *)
Definition ledger_value (w : World) :=
  (block_value (heap w) <$> chain (blockchain w), pending w,
   difficulty (blockchain w)).

(** The object store gained objects and kept the ones it had. *)
Definition heap_grows (h h' : Heap) : Prop :=
  lists h ⊆ lists h' ∧ dicts h ⊆ dicts h'.

(** The transaction dicts that [upload_document] and [transfer_document]
    build. *)
Definition upload_record (user_id document_hash document_name
    document_type : string) (now : float) : gmap string pyval :=
  list_to_map [
    ("type", PStr "document_upload");
    ("user_id", PStr user_id);
    ("document_hash", PStr document_hash);
    ("document_name", PStr document_name);
    ("document_type", PStr document_type);
    ("timestamp", PFloat now)].

Definition transfer_record (sender_id recipient_id document_hash
    document_name : string) (now : float) : gmap string pyval :=
  list_to_map [
    ("type", PStr "document_transfer");
    ("sender_id", PStr sender_id);
    ("recipient_id", PStr recipient_id);
    ("document_hash", PStr document_hash);
    ("document_name", PStr document_name);
    ("timestamp", PFloat now)].

(** The keys of a block object that [from_dict] reads before it builds
    the block, in the order in which it reads them, and the first of a
    list of keys that a dict lacks. *)
Definition required_keys : list string :=
  ["index"; "timestamp"; "transactions"; "previous_hash"].

Fixpoint first_missing (keys : list string) (d : gmap string pyval)
    : option string :=
  match keys with
  | [] => None
  | k :: keys' =>
      match d !! k with
      | Some _ => first_missing keys' d
      | None => Some k
      end
  end.

Section vocabulary.
Context `{Externals}.

(** What [calculate_hash] returns for a block, given the object store. *)
Definition digest (h : Heap) (b : Block) : string :=
  sha256_hexdigest (encode (json_dumps (Block.hashed_fields h b))).

(** The block as [mine_block] leaves it when it stops at nonce [n]. *)
Definition with_nonce (h : Heap) (b : Block) (n : Z) : Block :=
  set_hash (digest h (set_nonce n b)) (set_nonce n b).

(** The two checks [is_chain_valid] makes at index [i]. *)
Definition block_ok (h : Heap) (c : list Block) (i : nat) : bool :=
  match c !! i, c !! (i - 1)%nat with
  | Some current_block, Some previous_block =>
      String.eqb (hash current_block) (digest h current_block)
      && String.eqb (previous_hash current_block) (hash previous_block)
  | _, _ => false
  end.

Definition chain_valid (h : Heap) (c : list Block) : bool :=
  forallb (block_ok h c) (seq 1 (length c - 1)).

(** The block [add_block] builds on top of [tip], before mining. *)
Definition candidate (w : World) (tip : Block) : Block :=
  mkBlock (index tip + 1) (clock (env w) (ticks (env w)))
    (pending_transactions (blockchain w)) (hash tip) 0 EmptyString.

(** The world after [mine_pending_transactions] has sealed [b]: one
    reading of the clock, [b] appended, and a new empty list object as
    the pending buffer. *)
Definition after_seal (w : World) (b : Block) : World :=
  let r := fresh (dom (lists (heap w))) in
  mkWorld (mkHeap (<[r := []]> (lists (heap w))) (dicts (heap w)))
    (mkBlockchain (chain (blockchain w) ++ [b]) (difficulty (blockchain w)) r)
    (storage w) (auth w) (blockchain_file w)
    (mkEnv (clock (env w)) (S (ticks (env w))) (entropy (env w)) (drawn (env w))).

(** The world after [add_transaction]: the reference is appended to the
    list object of the pending buffer. *)
Definition after_add (w : World) (tx : loc) : World :=
  with_heap (λ h,
    let p := pending_transactions (blockchain w) in
    mkHeap (<[p := (lists h !!! p) ++ [tx]]> (lists h)) (dicts h)) w.

(** The record [md] under [h] is the one [store_document] writes for
    [content]: its ciphertext is on file, under a key and an IV that the
    record carries. *)
Definition holds (s : Storage) (h : string) (md : DocumentMetadata)
    (content : bytes) : Prop :=
  doc_hash md = h ∧ sha256_hexdigest content = h ∧
  doc_size md = length content ∧
  ∃ key iv,
    aes_key_ok key = true ∧ length iv = 16%nat ∧
    doc_encryption_key md = b64encode key ∧ doc_iv md = b64encode iv ∧
    files s !! h = Some (aes_cbc_encrypt key iv (pad content 16)).

(** What [store_document] and [delete_document] maintain. *)
Definition store_inv (s : Storage) : Prop :=
  ∀ h md, metadata s !! h = Some md → ∃ content, holds s h md content.

(** What the ledger operations maintain. *)
Definition ledger_inv (w : World) : Prop :=
  ledger_wf w ∧ chain (blockchain w) ≠ [] ∧
  chain_valid (heap w) (chain (blockchain w)) = true.

(** [json.dumps] and SHA-256 tell the two values apart: if they differ,
    so do the digests of their renderings. *)
Definition no_collision (x y : pyval) : Prop :=
  x ≠ y →
  sha256_hexdigest (encode (json_dumps x))
  ≠ sha256_hexdigest (encode (json_dumps y)).

(** A change of the value of one stored field of a block; for the
    transactions, a list object with other contents. *)
Inductive tampered (h : Heap) (b : Block) : Block → Prop :=
  | tamper_index v : v ≠ index b → tampered h b (set_index v b)
  | tamper_timestamp v : v ≠ timestamp b → tampered h b (set_timestamp v b)
  | tamper_transactions r :
      txs_of h r ≠ txs_of h (transactions b) →
      tampered h b (set_transactions r b)
  | tamper_nonce v : v ≠ nonce b → tampered h b (set_nonce v b)
  | tamper_previous_hash p :
      p ≠ previous_hash b → tampered h b (set_previous_hash p b)
  | tamper_hash x : x ≠ hash b → tampered h b (set_hash x b).

(** The change is to a field that [is_chain_valid] compares itself, not
    only through the digest. *)
Definition compared_directly (b b' : Block) : Prop :=
  previous_hash b' ≠ previous_hash b ∨ hash b' ≠ hash b.

(** The chain is invalid from the block at position [i] onward:
    [is_chain_valid] returns false for the chain and for each of its
    prefixes that holds the block, and true for the prefixes before it. *)
Definition invalid_from (i : nat) (w : World) : Prop :=
  Blockchain.is_chain_valid w = (Return false, w) ∧
  (∀ k, (i < k)%nat →
     Blockchain.is_chain_valid (truncate k w) = (Return false, truncate k w)) ∧
  (∀ k, (k ≤ i)%nat →
     Blockchain.is_chain_valid (truncate k w) = (Return true, truncate k w)).

(** The worlds the ledger operations lead to, from a fresh
    [Blockchain()]. A caller may build transaction dicts in between, and
    the rest of the process may change what is not the ledger. *)
Inductive reachable : World → Prop :=
  | reach_init w0 w :
      Blockchain.init w0 = (Return (), w) → reachable w
  | reach_new_dict w d r w' :
      reachable w → new_dict d w = (Return r, w') → reachable w'
  | reach_add_transaction w tx o w' :
      reachable w → tx ∈ dom (dicts (heap w)) →
      Blockchain.add_transaction tx w = (o, w') → reachable w'
  | reach_mine_pending_transactions w fuel o w' :
      reachable w → is_beyond o = false →
      Blockchain.mine_pending_transactions fuel w = (o, w') → reachable w'
  | reach_is_chain_valid w o w' :
      reachable w → Blockchain.is_chain_valid w = (o, w') → reachable w'
  | reach_get_block_by_hash w hash_value o w' :
      reachable w →
      Blockchain.get_block_by_hash hash_value w = (o, w') → reachable w'
  | reach_get_transactions_by_user w user_id o w' :
      reachable w →
      Blockchain.get_transactions_by_user user_id w = (o, w') → reachable w'
  | reach_elsewhere w w' :
      reachable w → heap w' = heap w → blockchain w' = blockchain w →
      reachable w'.

(** The worlds whose ledger the code has built: by [Blockchain()] or by
    [load_blockchain] from whatever file, and from there by the ledger
    operations and the scans. *)
Inductive built : World → Prop :=
  | built_init w0 w :
      Blockchain.init w0 = (Return (), w) → built w
  | built_load w0 bc w :
      BlockchainPersistence.load_blockchain w0 = (Return bc, w) → built w
  | built_new_dict w d r w' :
      built w → new_dict d w = (Return r, w') → built w'
  | built_add_transaction w tx o w' :
      built w → tx ∈ dom (dicts (heap w)) →
      Blockchain.add_transaction tx w = (o, w') → built w'
  | built_mine_pending_transactions w fuel o w' :
      built w → is_beyond o = false →
      Blockchain.mine_pending_transactions fuel w = (o, w') → built w'
  | built_is_chain_valid w o w' :
      built w → Blockchain.is_chain_valid w = (o, w') → built w'
  | built_get_block_by_hash w hash_value o w' :
      built w →
      Blockchain.get_block_by_hash hash_value w = (o, w') → built w'
  | built_get_transactions_by_user w user_id o w' :
      built w →
      Blockchain.get_transactions_by_user user_id w = (o, w') → built w'
  | built_get_document_history w session_token document_hash o w' :
      built w →
      EVaultController.get_document_history session_token document_hash w
        = (o, w') →
      built w'
  | built_elsewhere w w' :
      built w → heap w' = heap w → blockchain w' = blockchain w →
      built w'.
End vocabulary.

(** * Properties *)

(** ** Strings, bytes and padding *)

Lemma str_take_zeros n s :
  str_take n s = zeros n → (n ≤ leading_zeros s)%nat.
Proof.
  revert s. induction n as [|n IH]; intros s Hs; [lia|].
  destruct s as [|c s]; [discriminate|].
  simpl in Hs. injection Hs as -> Hs.
  simpl. specialize (IH _ Hs). lia.
Qed.

Lemma meets_target_leading_zeros d s :
  meets_target d s = true → d ≤ Z.of_nat (leading_zeros s).
Proof.
  unfold meets_target, str_slice_to, str_mul_zero.
  intros Hm%String.eqb_eq.
  destruct (Z.leb_spec 0 d); [|lia].
  apply str_take_zeros in Hm. lia.
Qed.

Lemma bchr_to_nat n : (n ≤ 255)%nat → Byte.to_nat (bchr n) = n.
Proof.
  intros Hn. unfold bchr.
  destruct (Byte.of_nat n) as [b|] eqn:Hb.
  - by apply Byte.to_of_nat.
  - apply Byte.of_nat_None_iff in Hb. lia.
Qed.

Lemma pad_length data :
  (length (pad data 16) mod 16 = 0)%nat ∧ (0 < length (pad data 16))%nat.
Proof.
  unfold pad. rewrite length_app, length_replicate.
  pose proof (Nat.mod_upper_bound (length data) 16 ltac:(lia)) as Hlt.
  pose proof (Nat.div_mod_eq (length data) 16) as Hdm.
  split; [|lia].
  replace (length data + (16 - length data mod 16))%nat
    with ((1 + length data / 16) * 16)%nat by lia.
  apply Nat.Div0.mod_mul.
Qed.

Lemma last_app_replicate {A} (l : list A) n x d :
  (0 < n)%nat → List.last (l ++ replicate n x) d = x.
Proof.
  intros Hn. destruct n as [|n]; [lia|].
  rewrite replicate_S_end, app_assoc. apply List.last_last.
Qed.

(** Unpadding undoes padding, for data of any length. *)
Lemma unpad_pad data : unpad (pad data 16) 16 = Return data.
Proof.
  destruct (pad_length data) as [Hmod Hpos].
  pose proof (Nat.mod_upper_bound (length data) 16 ltac:(lia)) as Hlt.
  set (p := (16 - length data mod 16)%nat).
  assert (Hp : (1 ≤ p ≤ 16)%nat) by (unfold p; lia).
  assert (Hpad : pad data 16 = data ++ replicate p (bchr p)) by done.
  assert (Hlen : length (pad data 16) = (length data + p)%nat).
  { rewrite Hpad, length_app, length_replicate. done. }
  assert (Hlast : Byte.to_nat (List.last (pad data 16) x00) = p).
  { rewrite Hpad, last_app_replicate by lia. apply bchr_to_nat. lia. }
  unfold unpad. cbv zeta. rewrite Hlast, Hmod.
  rewrite (proj2 (Nat.eqb_neq (length (pad data 16)) 0)) by lia.
  rewrite Nat.eqb_refl. cbn [negb].
  rewrite (proj2 (Nat.ltb_ge p 1)) by lia.
  rewrite (proj2 (Nat.ltb_ge (Nat.min 16 (length (pad data 16))) p)) by lia.
  cbn [orb].
  rewrite Hlen. replace (length data + p - p)%nat with (length data) by lia.
  rewrite Hpad, drop_app_length, take_app_length.
  by rewrite bool_decide_eq_true_2.
Qed.

(** ** Running computations *)

Lemma run_bind {A B} (m : M A) (f : A → M B) w :
  (m ≫= f) w =
  match m w with
  | (Return a, w') => f a w'
  | (Raise e, w') => (Raise e, w')
  | (Beyond l, w') => (Beyond l, w')
  end.
Proof. reflexivity. Qed.

Lemma run_bind_return {A B} (m : M A) (f : A → M B) w a w' :
  m w = (Return a, w') → (m ≫= f) w = f a w'.
Proof. intros Hm. by rewrite run_bind, Hm. Qed.

Lemma run_bind_inv {A B} (m : M A) (f : A → M B) w b w2 :
  (m ≫= f) w = (Return b, w2) →
  ∃ a w1, m w = (Return a, w1) ∧ f a w1 = (Return b, w2).
Proof.
  rewrite run_bind. destruct (m w) as [[a|e|l] w1]; [eauto|done..].
Qed.

(** ** The object store *)

Lemma txs_of_ext h h' r :
  lists h' !!! r = lists h !!! r →
  (∀ t, t ∈ lists h !!! r → dicts h' !!! t = dicts h !!! t) →
  txs_of h' r = txs_of h r.
Proof.
  unfold txs_of. intros -> Hd. apply list_fmap_ext.
  intros i t Ht. apply Hd. by eapply list_elem_of_lookup_2.
Qed.

Lemma lookup_total_insert_fresh `{Inhabited A} (m : gmap loc A) r x t :
  t ∈ dom m → r ∉ dom m → <[r := x]> m !!! t = m !!! t.
Proof. intros Ht Hr. apply lookup_total_insert_ne. set_solver. Qed.

Lemma fresh_list_not_in (h : Heap) : fresh (dom (lists h)) ∉ dom (lists h).
Proof. apply is_fresh. Qed.

Lemma fresh_dict_not_in (h : Heap) : fresh (dom (dicts h)) ∉ dom (dicts h).
Proof. apply is_fresh. Qed.

Lemma keeps_refl h r : keeps h h r.
Proof. by intros ?. Qed.

Lemma keeps_trans h1 h2 h3 r : keeps h1 h2 r → keeps h2 h3 r → keeps h1 h3 r.
Proof.
  intros H12 H23 Ho. destruct (H12 Ho) as (Ho2 & Ht2 & Hl2).
  destruct (H23 Ho2) as (Ho3 & Ht3 & Hl3). split; [done|]. split; congruence.
Qed.

Lemma keeps_new_list h l r :
  keeps h (mkHeap (<[fresh (dom (lists h)) := l]> (lists h)) (dicts h)) r.
Proof.
  intros [Hr Hd]. pose proof (fresh_list_not_in h) as Hf.
  assert (Hl : <[fresh (dom (lists h)) := l]> (lists h) !!! r = lists h !!! r).
  { by apply lookup_total_insert_fresh. }
  split; [|split; [|done]].
  - split; simpl; [set_solver|]. rewrite Hl. done.
  - apply txs_of_ext; done.
Qed.

Lemma keeps_new_dict h d r :
  keeps h (mkHeap (lists h) (<[fresh (dom (dicts h)) := d]> (dicts h))) r.
Proof.
  intros [Hr Hd]. pose proof (fresh_dict_not_in h) as Hf.
  split; [|split; [|done]].
  - split; simpl; [done|]. intros t Ht. specialize (Hd t Ht). set_solver.
  - apply txs_of_ext; [done|]. simpl. intros t Ht.
    apply lookup_total_insert_fresh; auto.
Qed.

Lemma keeps_list_append h p x r :
  r ≠ p →
  keeps h (mkHeap (<[p := (lists h !!! p) ++ [x]]> (lists h)) (dicts h)) r.
Proof.
  intros Hne [Hr Hd].
  assert (Hl : <[p := (lists h !!! p) ++ [x]]> (lists h) !!! r = lists h !!! r).
  { by apply lookup_total_insert_ne. }
  split; [|split; [|done]].
  - split; simpl; [set_solver|]. by rewrite Hl.
  - apply txs_of_ext; done.
Qed.

(** Writing to a dict object that the list does not refer to. *)
Lemma keeps_dict_setitem h c k v r :
  c ∉ lists h !!! r →
  keeps h (mkHeap (lists h) (<[c := <[k := v]> (dicts h !!! c)]> (dicts h))) r.
Proof.
  intros Hc [Hr Hd].
  split; [|split; [|done]].
  - split; simpl; [done|]. intros t Ht. specialize (Hd t Ht). set_solver.
  - apply txs_of_ext; [done|]. simpl. intros t Ht.
    apply lookup_total_insert_ne. intros ->. done.
Qed.

(** ** Blocks and mining *)

Section block_facts.
Context `{Externals}.

Lemma calculate_hash_run b w :
  Block.calculate_hash b w = (Return (digest (heap w) b), w).
Proof. reflexivity. Qed.

Lemma digest_set_hash h x b : digest h (set_hash x b) = digest h b.
Proof. reflexivity. Qed.

Lemma digest_with_nonce h b n :
  digest h (with_nonce h b n) = hash (with_nonce h b n).
Proof. reflexivity. Qed.

Lemma digest_ext h h' b :
  txs_of h' (transactions b) = txs_of h (transactions b) →
  digest h' b = digest h b.
Proof.
  intros Ht. unfold digest, Block.hashed_fields, transactions_value.
  by rewrite Ht.
Qed.

Lemma init_run i t r p w :
  Block.init i t r p w
  = (Return (with_nonce (heap w) (mkBlock i t r p 0 EmptyString) 0), w).
Proof. reflexivity. Qed.

Lemma with_nonce_step h b n :
  set_hash (digest h (set_nonce (nonce (with_nonce h b n) + 1) (with_nonce h b n)))
           (set_nonce (nonce (with_nonce h b n) + 1) (with_nonce h b n))
  = with_nonce h b (n + 1).
Proof. reflexivity. Qed.

(** The loop stops at the first nonce whose digest meets the target,
    provided the fuel reaches that far. *)
Lemma mine_block_finds h b d k :
  ∀ n fuel w,
    heap w = h → (k < fuel)%nat →
    meets_target d (hash (with_nonce h b (n + Z.of_nat k))) = true →
    ∃ j, (j ≤ k)%nat ∧
      Block.mine_block fuel (with_nonce h b n) d w
      = (Return (with_nonce h b (n + Z.of_nat j)), w) ∧
      meets_target d (hash (with_nonce h b (n + Z.of_nat j))) = true.
Proof.
  induction k as [|k IH]; intros n fuel w Hh Hfuel Hmeet;
    (destruct fuel as [|fuel]; [lia|]).
  - exists 0%nat. rewrite Z.add_0_r in *. split; [done|]. split; [|done].
    cbn [Block.mine_block]. fold (meets_target d (hash (with_nonce h b n))).
    by rewrite Hmeet.
  - cbn [Block.mine_block]. fold (meets_target d (hash (with_nonce h b n))).
    destruct (meets_target d (hash (with_nonce h b n))) eqn:Hnow; cbn [negb].
    + exists 0%nat. rewrite Z.add_0_r. split; [lia|]. by split.
    + rewrite run_bind, calculate_hash_run, Hh, with_nonce_step.
      destruct (IH (n + 1) fuel w Hh ltac:(lia)) as (j & Hj & Hrun & Hm).
      { by replace (n + 1 + Z.of_nat k) with (n + Z.of_nat (S k)) by lia. }
      exists (S j). split; [lia|].
      replace (n + Z.of_nat (S j)) with (n + 1 + Z.of_nat j) by lia.
      by split.
Qed.

(** Whatever the loop returns meets the target and is the block it was
    given, at some nonce; the world is left as it was. *)
Lemma mine_block_return fuel :
  ∀ b d w b' w',
    Block.mine_block fuel b d w = (Return b', w') →
    w' = w ∧ meets_target d (hash b') = true ∧
    (b' = b ∨ ∃ n, b' = with_nonce (heap w) b n).
Proof.
  induction fuel as [|fuel IH]; intros b d w b' w' Hrun; [done|].
  cbn [Block.mine_block] in Hrun. fold (meets_target d (hash b)) in Hrun.
  destruct (meets_target d (hash b)) eqn:Hnow; cbn [negb] in Hrun.
  - injection Hrun as <- <-. auto.
  - rewrite run_bind, calculate_hash_run in Hrun.
    apply IH in Hrun as (-> & Hm & Hb). split; [done|]. split; [done|].
    right. destruct Hb as [->|[n ->]]; [by exists (nonce b + 1)|by exists n].
Qed.

Lemma mine_block_world fuel :
  ∀ b d w o w', Block.mine_block fuel b d w = (o, w') → w' = w.
Proof.
  induction fuel as [|fuel IH]; intros b d w o w' Hrun.
  - by injection Hrun as <- <-.
  - cbn [Block.mine_block] in Hrun.
    destruct (negb _) in Hrun.
    + rewrite run_bind, calculate_hash_run in Hrun. eauto.
    + by injection Hrun as <- <-.
Qed.
End block_facts.

(** ** The ledger operations, step by step *)

Section ledger_steps.
Context `{Externals}.

Lemma with_nonce_idem h b n m :
  with_nonce h (with_nonce h b n) m = with_nonce h b m.
Proof. reflexivity. Qed.

Lemma get_latest_block_run w :
  Blockchain.get_latest_block w
  = (match last (chain (blockchain w)) with
     | Some b => Return b
     | None => Raise IndexError
     end, w).
Proof.
  unfold Blockchain.get_latest_block. rewrite run_bind. cbn [gets].
  by destruct (last _).
Qed.

Lemma add_transaction_run tx w :
  Blockchain.add_transaction tx w
  = (match last (chain (blockchain w)) with
     | Some b => Return (index b + 1)
     | None => Raise IndexError
     end, after_add w tx).
Proof.
  unfold Blockchain.add_transaction. rewrite run_bind. cbn [gets].
  rewrite run_bind. unfold list_append at 1. cbn [modify].
  rewrite run_bind, get_latest_block_run.
  change (chain (blockchain (with_heap _ w))) with (chain (blockchain w)).
  by destruct (last _).
Qed.

Lemma mine_pending_empty fuel w :
  lists (heap w) !!! pending_transactions (blockchain w) = [] →
  Blockchain.mine_pending_transactions fuel w = (Return None, w).
Proof.
  intros Hp. unfold Blockchain.mine_pending_transactions.
  rewrite run_bind. cbn [gets]. rewrite run_bind.
  unfold list_read. cbn [gets]. by rewrite Hp.
Qed.

Lemma add_block_run fuel w tip b :
  last (chain (blockchain w)) = Some tip →
  Block.mine_block fuel
    (with_nonce (heap w) (candidate w tip) 0) (difficulty (blockchain w))
    (with_env (λ e, mkEnv (clock e) (S (ticks e)) (entropy e) (drawn e)) w)
  = (Return b,
     with_env (λ e, mkEnv (clock e) (S (ticks e)) (entropy e) (drawn e)) w) →
  Blockchain.add_block fuel (pending_transactions (blockchain w)) w
  = (Return b,
     with_blockchain (λ bc, set_chain (chain bc ++ [b]) bc)
       (with_env (λ e, mkEnv (clock e) (S (ticks e)) (entropy e) (drawn e)) w)).
Proof.
  intros Htip Hmine. unfold Blockchain.add_block.
  rewrite run_bind, get_latest_block_run, Htip.
  rewrite run_bind. cbn [time_time].
  rewrite run_bind, init_run. rewrite run_bind. cbn [gets].
  rewrite run_bind.
  change (Block.mine_block fuel _ _ _) with
    (Block.mine_block fuel (with_nonce (heap w) (candidate w tip) 0)
       (difficulty (blockchain w))
       (with_env (λ e, mkEnv (clock e) (S (ticks e)) (entropy e) (drawn e)) w)).
  rewrite Hmine. reflexivity.
Qed.

(** Sealing a non-empty buffer, when some nonce within reach of the
    fuel meets the target. *)
Lemma mine_pending_found fuel w tip k :
  lists (heap w) !!! pending_transactions (blockchain w) ≠ [] →
  last (chain (blockchain w)) = Some tip →
  (k < fuel)%nat →
  meets_target (difficulty (blockchain w))
    (hash (with_nonce (heap w) (candidate w tip) (Z.of_nat k))) = true →
  ∃ j, (j ≤ k)%nat ∧
    let b := with_nonce (heap w) (candidate w tip) (Z.of_nat j) in
    Blockchain.mine_pending_transactions fuel w
    = (Return (Some b), after_seal w b) ∧
    meets_target (difficulty (blockchain w)) (hash b) = true.
Proof.
  intros Hp Htip Hfuel Hmeet.
  set (w1 := with_env (λ e, mkEnv (clock e) (S (ticks e)) (entropy e) (drawn e)) w).
  destruct (mine_block_finds (heap w) (candidate w tip)
              (difficulty (blockchain w)) k 0 fuel w1 eq_refl Hfuel Hmeet)
    as (j & Hj & Hrun & Hm).
  exists j. split; [done|]. cbn zeta. split; [|done].
  unfold Blockchain.mine_pending_transactions.
  rewrite run_bind. cbn [gets]. rewrite run_bind.
  unfold list_read. cbn [gets].
  destruct (lists (heap w) !!! pending_transactions (blockchain w)) eqn:Hl;
    [done|].
  rewrite run_bind. erewrite add_block_run by done.
  reflexivity.
Qed.

(** Every way [mine_pending_transactions] can end. *)
Lemma mine_pending_inv fuel w o w' :
  Blockchain.mine_pending_transactions fuel w = (o, w') →
  is_beyond o = false →
  (o = Return None ∧ w' = w
     ∧ lists (heap w) !!! pending_transactions (blockchain w) = []) ∨
  (o = Raise IndexError ∧ w' = w) ∨
  (∃ tip n,
     lists (heap w) !!! pending_transactions (blockchain w) ≠ [] ∧
     last (chain (blockchain w)) = Some tip ∧
     let b := with_nonce (heap w) (candidate w tip) n in
     o = Return (Some b) ∧ w' = after_seal w b ∧
     meets_target (difficulty (blockchain w)) (hash b) = true).
Proof.
  unfold Blockchain.mine_pending_transactions.
  rewrite run_bind. cbn [gets]. rewrite run_bind.
  unfold list_read. cbn [gets].
  destruct (lists (heap w) !!! pending_transactions (blockchain w)) eqn:Hl.
  { intros [= <- <-] _. auto. }
  rewrite run_bind. unfold Blockchain.add_block.
  rewrite run_bind, get_latest_block_run.
  destruct (last (chain (blockchain w))) as [tip|] eqn:Htip.
  2:{ intros [= <- <-] _. auto. }
  rewrite run_bind. cbn [time_time].
  rewrite run_bind, init_run. rewrite run_bind. cbn [gets].
  rewrite run_bind.
  set (w1 := with_env _ w).
  change (Block.mine_block fuel _ _ _) with
    (Block.mine_block fuel (with_nonce (heap w) (candidate w tip) 0)
       (difficulty (blockchain w)) w1).
  destruct (Block.mine_block fuel _ _ w1) as [[b|e|l] w2] eqn:Hmine.
  - apply mine_block_return in Hmine as (-> & Hm & Hb).
    intros [= <- <-] _. right; right. exists tip.
    destruct Hb as [->|[n ->]].
    + exists 0. repeat split; done.
    + exists n. repeat split; done.
  - intros [= <- <-] _.
    exfalso. clear -Hmine. revert Hmine.
    generalize (with_nonce (heap w) (candidate w tip) 0).
    induction fuel as [|fuel IH]; intros b; [done|].
    cbn [Block.mine_block]. destruct (negb _); [|done].
    rewrite run_bind, calculate_hash_run. apply IH.
  - intros [= <- <-]. done.
Qed.

Lemma is_chain_valid_loop_run c w range :
  (∀ i, i ∈ range → (1 ≤ i < length c)%nat) →
  Blockchain.is_chain_valid_loop c range w
  = (Return (forallb (block_ok (heap w) c) range), w).
Proof.
  induction range as [|i range IH]; intros Hr; [done|].
  cbn [Blockchain.is_chain_valid_loop forallb]. unfold block_ok at 1.
  destruct (Hr i ltac:(left)) as [Hi1 Hi2].
  destruct (lookup_lt_is_Some_2 c i Hi2) as [cur ->].
  destruct (lookup_lt_is_Some_2 c (i - 1) ltac:(lia)) as [prev ->].
  rewrite run_bind, calculate_hash_run.
  destruct (String.eqb (hash cur) (digest (heap w) cur)); cbn [negb andb]; [|done].
  destruct (String.eqb (previous_hash cur) (hash prev)); cbn [negb]; [|done].
  apply IH. intros j Hj. apply Hr. by right.
Qed.

(** [is_chain_valid] never raises and changes nothing: it computes
    [chain_valid]. *)
Lemma is_chain_valid_run w :
  Blockchain.is_chain_valid w
  = (Return (chain_valid (heap w) (chain (blockchain w))), w).
Proof.
  unfold Blockchain.is_chain_valid. rewrite run_bind. cbn [gets].
  apply is_chain_valid_loop_run.
  intros i Hi%elem_of_seq. lia.
Qed.

Lemma get_block_by_hash_run hash_value w :
  Blockchain.get_block_by_hash hash_value w
  = (Return (Blockchain.get_block_by_hash_loop (chain (blockchain w)) hash_value), w).
Proof. reflexivity. Qed.
End ledger_steps.

(** ** Sealing the pending buffer *)

Lemma lookup_total_nonempty (m : gmap loc (list loc)) r :
  m !!! r ≠ [] → r ∈ dom m.
Proof.
  rewrite lookup_total_alt, elem_of_dom.
  destruct (m !! r); [eauto|done].
Qed.

Section sealing.
Context `{Externals}.

Lemma after_seal_buffer w b :
  lists (heap w) !!! pending_transactions (blockchain w) ≠ [] →
  transactions b = pending_transactions (blockchain w) →
  lists (heap (after_seal w b)) !!! transactions b
    = lists (heap w) !!! pending_transactions (blockchain w) ∧
  txs_of (heap (after_seal w b)) (transactions b)
    = txs_of (heap w) (pending_transactions (blockchain w)).
Proof.
  intros Hne ->. apply lookup_total_nonempty in Hne.
  pose proof (fresh_list_not_in (heap w)) as Hf.
  assert (Hl : lists (heap (after_seal w b)) !!! pending_transactions (blockchain w)
               = lists (heap w) !!! pending_transactions (blockchain w)).
  { cbn. by apply lookup_total_insert_fresh. }
  split; [done|]. by apply txs_of_ext.
Qed.

(** C5: sealing with an empty pending buffer returns nothing and leaves
    the world as it was; with a non-empty buffer, and a nonce within
    reach that meets the target, it appends exactly one block, whose
    hash starts with at least [difficulty] zero digits, whose
    [previous_hash] is the hash of the previous tip, whose index is the
    tip's plus one and which holds the buffered transactions, and it
    leaves an empty pending buffer. A fresh ledger has difficulty 2. *)
Theorem seal_pending_block (w : World) (fuel : nat) :
  let bc := blockchain w in
  let buffer := lists (heap w) !!! pending_transactions bc in
  (buffer = [] →
     Blockchain.mine_pending_transactions fuel w = (Return None, w)) ∧
  (∀ tip k,
     buffer ≠ [] → last (chain bc) = Some tip → (k < fuel)%nat →
     meets_target (difficulty bc)
       (hash (with_nonce (heap w) (candidate w tip) (Z.of_nat k))) = true →
     ∃ b w',
       Blockchain.mine_pending_transactions fuel w = (Return (Some b), w') ∧
       chain (blockchain w') = chain bc ++ [b] ∧
       difficulty bc ≤ Z.of_nat (leading_zeros (hash b)) ∧
       previous_hash b = hash tip ∧
       index b = index tip + 1 ∧
       hash b = digest (heap w') b ∧
       lists (heap w') !!! transactions b = buffer ∧
       txs_of (heap w') (transactions b) = pending w ∧
       pending w' = [] ∧
       difficulty (blockchain w') = difficulty bc ∧
       storage w' = storage w ∧ auth w' = auth w) ∧
  (∀ w0 w1, Blockchain.init w0 = (Return (), w1) →
     difficulty (blockchain w1) = 2).
Proof.
  cbn zeta. split; [apply mine_pending_empty|]. split.
  - intros tip k Hbuf Htip Hfuel Hmeet.
    destruct (mine_pending_found fuel w tip k Hbuf Htip Hfuel Hmeet)
      as (j & _ & Hrun & Hm).
    cbn zeta in Hrun, Hm.
    set (b := with_nonce (heap w) (candidate w tip) (Z.of_nat j)) in *.
    destruct (after_seal_buffer w b Hbuf eq_refl) as [Hl Ht].
    exists b, (after_seal w b). split; [done|].
    split; [done|]. split; [by apply meets_target_leading_zeros|].
    split; [done|]. split; [done|].
    split.
    { change (hash b) with (digest (heap w) b). symmetry. by apply digest_ext. }
    split; [done|]. split; [done|].
    split; [|done].
    unfold pending, txs_of. cbn. by rewrite lookup_total_insert_eq.
  - intros w0 w1 [= <-]. reflexivity.
Qed.
End sealing.

(** ** Validity of a chain *)

Section chain_facts.
Context `{Externals}.

Lemma chain_valid_true h c :
  chain_valid h c = true ↔
  ∀ i, (1 ≤ i < length c)%nat → block_ok h c i = true.
Proof.
  unfold chain_valid. rewrite forallb_forall.
  split; intros Hall i Hi; apply Hall.
  - apply in_seq. lia.
  - apply in_seq in Hi. lia.
Qed.

Lemma chain_valid_false h c i :
  (1 ≤ i < length c)%nat → block_ok h c i = false → chain_valid h c = false.
Proof.
  intros Hi Hbad. destruct (chain_valid h c) eqn:Hv; [|done].
  rewrite chain_valid_true in Hv. specialize (Hv i Hi). congruence.
Qed.

Lemma block_ok_ext h h' c i :
  (∀ b, b ∈ c → txs_of h' (transactions b) = txs_of h (transactions b)) →
  block_ok h' c i = block_ok h c i.
Proof.
  intros Hext. unfold block_ok.
  destruct (c !! i) as [cur|] eqn:Hcur; [|done].
  destruct (c !! (i - 1)%nat); [|done].
  rewrite (digest_ext h h' cur); [done|].
  apply Hext. by eapply list_elem_of_lookup_2.
Qed.

Lemma chain_valid_ext h h' c :
  (∀ b, b ∈ c → txs_of h' (transactions b) = txs_of h (transactions b)) →
  chain_valid h' c = chain_valid h c.
Proof.
  intros Hext. apply Bool.eq_iff_eq_true. rewrite !chain_valid_true.
  split; intros Hall i Hi; [rewrite <- (block_ok_ext h h')|rewrite (block_ok_ext h h')];
    auto.
Qed.

Lemma block_ok_snoc h c tip b :
  last c = Some tip →
  block_ok h (c ++ [b]) (length c)
  = String.eqb (hash b) (digest h b) && String.eqb (previous_hash b) (hash tip).
Proof.
  intros Htip. unfold block_ok.
  rewrite list_lookup_middle by done.
  rewrite last_lookup in Htip.
  assert (0 < length c)%nat by (destruct c; [done|simpl; lia]).
  rewrite lookup_app_l by lia.
  replace (length c - 1)%nat with (pred (length c)) by lia.
  by rewrite Htip.
Qed.

Lemma block_ok_app_l h c b i :
  (1 ≤ i < length c)%nat → block_ok h (c ++ [b]) i = block_ok h c i.
Proof.
  intros Hi. unfold block_ok. by rewrite !lookup_app_l by lia.
Qed.

Lemma chain_valid_snoc h c tip b :
  last c = Some tip → chain_valid h c = true →
  hash b = digest h b → previous_hash b = hash tip →
  chain_valid h (c ++ [b]) = true.
Proof.
  intros Htip Hv Hh Hp. rewrite chain_valid_true in *.
  intros i Hi. rewrite length_app in Hi. simpl in Hi.
  destruct (decide (i = length c)) as [->|Hne].
  - rewrite (block_ok_snoc h c tip) by done.
    rewrite Hh, Hp, !String.eqb_refl. done.
  - rewrite block_ok_app_l by lia. apply Hv. lia.
Qed.

Lemma block_ok_take h c k i :
  (i < k)%nat → block_ok h (take k c) i = block_ok h c i.
Proof.
  intros Hi. unfold block_ok. by rewrite !lookup_take_lt by lia.
Qed.

Lemma chain_valid_take h c k :
  chain_valid h c = true → chain_valid h (take k c) = true.
Proof.
  rewrite !chain_valid_true. intros Hv i Hi. rewrite length_take in Hi.
  rewrite block_ok_take by lia. apply Hv. lia.
Qed.

(** A block after genesis that fails one of the two checks makes any
    chain that reaches it invalid, and leaves the chain before it as
    valid as it was. *)
Lemma bad_block_onward h c i k :
  (1 ≤ i < length c)%nat → block_ok h c i = false → (i < k)%nat →
  chain_valid h (take k c) = false.
Proof.
  intros Hi Hbad Hk. apply (chain_valid_false _ _ i).
  - rewrite length_take. lia.
  - by rewrite block_ok_take.
Qed.

(** The dict that [calculate_hash] renders determines the five fields it
    is built from. *)
Lemma hashed_fields_inj h h' b b' :
  Block.hashed_fields h' b' = Block.hashed_fields h b →
  index b' = index b ∧ timestamp b' = timestamp b ∧
  txs_of h' (transactions b') = txs_of h (transactions b) ∧
  previous_hash b' = previous_hash b ∧ nonce b' = nonce b.
Proof.
  intros Hm.
  set (get := λ (k : string) (v : pyval),
                match v with PDict m => m !! k | _ => None end).
  pose proof (f_equal (get "index") Hm) as Hi.
  pose proof (f_equal (get "timestamp") Hm) as Ht.
  pose proof (f_equal (get "transactions") Hm) as Hx.
  pose proof (f_equal (get "previous_hash") Hm) as Hp.
  pose proof (f_equal (get "nonce") Hm) as Hn.
  change (Some (PInt (index b')) = Some (PInt (index b))) in Hi.
  change (Some (PFloat (timestamp b')) = Some (PFloat (timestamp b))) in Ht.
  change (Some (transactions_value h' (transactions b'))
          = Some (transactions_value h (transactions b))) in Hx.
  change (Some (PStr (previous_hash b')) = Some (PStr (previous_hash b))) in Hp.
  change (Some (PInt (nonce b')) = Some (PInt (nonce b))) in Hn.
  injection Hi as Hi. injection Ht as Ht. injection Hp as Hp.
  injection Hn as Hn. unfold transactions_value in Hx. injection Hx as Hx.
  repeat (split; [done|]). split; [|done].
  revert Hx. generalize (txs_of h' (transactions b')) (txs_of h (transactions b)).
  induction l as [|d l IH]; intros [|d0 l0]; try done.
  rewrite !fmap_cons. intros [= -> Hl]. f_equal. by apply IH.
Qed.

(** A change of a field that the digest covers changes the digest, unless
    [json.dumps] and SHA-256 collide on the two dicts. *)
Lemma digest_changed h h' b b' :
  no_collision (Block.hashed_fields h' b') (Block.hashed_fields h b) →
  index b' ≠ index b ∨ timestamp b' ≠ timestamp b ∨
  txs_of h' (transactions b') ≠ txs_of h (transactions b) ∨
  previous_hash b' ≠ previous_hash b ∨ nonce b' ≠ nonce b →
  digest h' b' ≠ digest h b.
Proof.
  intros Hnc Hdiff. apply Hnc. intros Heq.
  apply hashed_fields_inj in Heq as (? & ? & ? & ? & ?).
  destruct Hdiff as [?|[?|[?|[?|?]]]]; done.
Qed.

Lemma block_ok_tampered h c i b b' :
  chain_valid h c = true → (1 ≤ i)%nat → c !! i = Some b →
  tampered h b b' →
  compared_directly b b' ∨
  no_collision (Block.hashed_fields h b') (Block.hashed_fields h b) →
  block_ok h (<[i := b']> c) i = false.
Proof.
  intros Hv Hi Hb Ht Hc.
  assert (Hlen : (i < length c)%nat) by by eapply lookup_lt_Some.
  rewrite chain_valid_true in Hv. specialize (Hv i ltac:(lia)).
  unfold block_ok in *. rewrite Hb in Hv.
  rewrite list_lookup_insert_eq by done.
  rewrite list_lookup_insert_ne by lia.
  destruct (c !! (i - 1)%nat) as [prev|]; [|done].
  apply andb_true_iff in Hv as [Hh%String.eqb_eq Hp%String.eqb_eq].
  assert (Hdigest : ∀ b0,
            hash b0 = hash b → previous_hash b0 = previous_hash b →
            compared_directly b b0 ∨
            no_collision (Block.hashed_fields h b0) (Block.hashed_fields h b) →
            index b0 ≠ index b ∨ timestamp b0 ≠ timestamp b ∨
            txs_of h (transactions b0) ≠ txs_of h (transactions b) ∨
            previous_hash b0 ≠ previous_hash b ∨ nonce b0 ≠ nonce b →
            String.eqb (hash b0) (digest h b0) && String.eqb (previous_hash b0) (hash prev)
            = false).
  { intros b0 Hh0 Hp0 [[?|?]|Hnc] Hdiff; [done..|].
    apply andb_false_iff. left. apply String.eqb_neq.
    rewrite Hh0, Hh. intros Heq. by apply (digest_changed h h b b0 Hnc Hdiff). }
  destruct Ht as [v Hd|v Hd|r Hd|v Hd|p Hp'|x Hx].
  - apply Hdigest; [done..|]. by left.
  - apply Hdigest; [done..|]. right. by left.
  - apply Hdigest; [done..|]. right. right. by left.
  - apply Hdigest; [done..|]. do 4 right. done.
  - cbn [hash previous_hash set_previous_hash].
    apply andb_false_iff; right. apply String.eqb_neq. congruence.
  - cbn [hash previous_hash set_hash].
    apply andb_false_iff; left. apply String.eqb_neq.
    rewrite digest_set_hash. congruence.
Qed.

(** The checks at the positions after genesis look at the genesis block
    only for its hash. *)
Lemma block_ok_genesis h c g' i :
  (1 ≤ i)%nat → (∀ g, c !! 0%nat = Some g → hash g' = hash g) →
  block_ok h (<[0%nat := g']> c) i = block_ok h c i.
Proof.
  intros Hi Hg. unfold block_ok.
  rewrite list_lookup_insert_ne by lia.
  destruct (c !! i) as [cur|]; [|done].
  destruct (decide (i = 1%nat)) as [->|Hne].
  - cbn [Nat.sub]. destruct (c !! 0%nat) as [g|] eqn:Hc.
    + rewrite list_lookup_insert_eq by (by eapply lookup_lt_Some).
      by rewrite (Hg g eq_refl).
    + by destruct c.
  - by rewrite list_lookup_insert_ne by lia.
Qed.

Lemma chain_valid_genesis h c g' :
  (∀ g, c !! 0%nat = Some g → hash g' = hash g) →
  chain_valid h (<[0%nat := g']> c) = chain_valid h c.
Proof.
  intros Hg. apply Bool.eq_iff_eq_true. rewrite !chain_valid_true.
  rewrite length_insert.
  split; intros Hall i Hi;
    [rewrite <- (block_ok_genesis h c g')|rewrite (block_ok_genesis h c g')];
    auto; lia.
Qed.
End chain_facts.

(** ** Scans of the chain *)

Section scans.
Context `{Externals}.

Lemma user_transactions_of_block_scan block user_id txs :
  ∀ acc w,
    Blockchain.user_transactions_of_block block txs user_id acc w
    = scan_block "user_id" user_id (user_marks block) txs acc w.
Proof.
  induction txs as [|t txs IH]; intros acc w; [done|].
  cbn [Blockchain.user_transactions_of_block scan_block].
  rewrite !run_bind. cbn [dict_read gets].
  destruct (py_eq_str _ _); [|apply IH].
  rewrite !run_bind.
  destruct (dict_copy t w) as [[c|e|l] w1]; [|done..].
  rewrite !run_bind. cbn [dict_setitem modify user_marks fst snd].
  rewrite !run_bind. cbn [dict_setitem modify]. apply IH.
Qed.

Lemma get_transactions_by_user_loop_scan user_id c :
  ∀ acc w,
    Blockchain.get_transactions_by_user_loop c user_id acc w
    = scan_chain "user_id" user_id user_marks c acc w.
Proof.
  induction c as [|b c IH]; intros acc w; [done|].
  cbn [Blockchain.get_transactions_by_user_loop scan_chain].
  rewrite !run_bind. cbn [list_read gets].
  rewrite !run_bind, user_transactions_of_block_scan.
  destruct (scan_block _ _ _ _ _ w) as [[acc'|e|l] w1]; [apply IH|done..].
Qed.

Lemma get_transactions_by_user_scan user_id w :
  Blockchain.get_transactions_by_user user_id w
  = scan_chain "user_id" user_id user_marks (chain (blockchain w)) [] w.
Proof.
  unfold Blockchain.get_transactions_by_user. rewrite run_bind. cbn [gets].
  apply get_transactions_by_user_loop_scan.
Qed.

Lemma document_history_of_block_scan block document_hash txs :
  ∀ acc w,
    EVaultController.document_history_of_block block txs document_hash acc w
    = scan_block "document_hash" document_hash (history_marks block) txs acc w.
Proof.
  induction txs as [|t txs IH]; intros acc w; [done|].
  cbn [EVaultController.document_history_of_block scan_block].
  rewrite !run_bind. cbn [dict_read gets].
  destruct (py_eq_str _ _); [|apply IH].
  rewrite !run_bind.
  destruct (dict_copy t w) as [[c|e|l] w1]; [|done..].
  rewrite !run_bind. cbn [dict_setitem modify history_marks fst snd].
  rewrite !run_bind. cbn [dict_setitem modify]. apply IH.
Qed.

Lemma get_document_history_loop_scan document_hash c :
  ∀ acc w,
    EVaultController.get_document_history_loop c document_hash acc w
    = scan_chain "document_hash" document_hash history_marks c acc w.
Proof.
  induction c as [|b c IH]; intros acc w; [done|].
  cbn [EVaultController.get_document_history_loop scan_chain].
  rewrite !run_bind. cbn [list_read gets].
  rewrite !run_bind, document_history_of_block_scan.
  destruct (scan_block _ _ _ _ _ w) as [[acc'|e|l] w1]; [apply IH|done..].
Qed.
End scans.

Lemma lookup_total_subseteq `{Inhabited A} (m m' : gmap loc A) t :
  m ⊆ m' → t ∈ dom m → m' !!! t = m !!! t.
Proof.
  intros Hsub [x Hx]%elem_of_dom.
  rewrite (lookup_total_correct m t x Hx).
  apply lookup_total_correct. by eapply lookup_weaken.
Qed.

Lemma with_heap_heap w : with_heap (λ _, heap w) w = w.
Proof. by destruct w. Qed.

Lemma only_new_dicts_refl w : only_new_dicts w w.
Proof. split; [by rewrite with_heap_heap|done]. Qed.

Lemma only_new_dicts_trans w1 w2 w3 :
  only_new_dicts w1 w2 → only_new_dicts w2 w3 → only_new_dicts w1 w3.
Proof.
  intros (E12 & L12 & D12) (E23 & L23 & D23). split; [|split].
  - rewrite E23, E12. reflexivity.
  - congruence.
  - by etrans.
Qed.

Lemma only_new_dicts_keeps w w' r :
  only_new_dicts w w' → keeps (heap w) (heap w') r.
Proof.
  intros (_ & Hl & Hd) [Hr Ho].
  assert (Hdom : ∀ t, t ∈ lists (heap w) !!! r → t ∈ dom (dicts (heap w'))).
  { intros t Ht. specialize (Ho t Ht). apply subseteq_dom in Hd. set_solver. }
  split; [|split].
  - split; rewrite Hl; done.
  - apply txs_of_ext; [by rewrite Hl|].
    intros t Ht. apply lookup_total_subseteq; auto.
  - by rewrite Hl.
Qed.

(** The copy of a transaction, once its two entries are set. *)
Lemma copy_and_mark {A} t marks (k : loc → M A) w :
  (c ← dict_copy t;
   dict_setitem c marks.1.1 marks.1.2;;
   dict_setitem c marks.2.1 marks.2.2;; k c) w
  = k (fresh (dom (dicts (heap w))))
      (with_heap (λ h, mkHeap (lists h)
         (<[fresh (dom (dicts h)) := marked marks (dicts h !!! t)]> (dicts h))) w).
Proof.
  rewrite run_bind. unfold dict_copy at 1. rewrite run_bind.
  cbn [dict_read gets new_dict].
  rewrite run_bind. cbn [dict_setitem modify].
  rewrite run_bind. cbn [dict_setitem modify].
  f_equal. destruct w as [[ls ds] bc st au bf en]. cbn.
  unfold with_heap. cbn. f_equal. f_equal.
  rewrite !lookup_total_insert_eq, !insert_insert_eq. done.
Qed.

Section scan_results.
Context `{Externals}.

Lemma scan_block_run key value marks txs :
  ∀ acc w,
    (∀ t, t ∈ txs → t ∈ dom (dicts (heap w))) →
    ∃ new w',
      scan_block key value marks txs acc w = (Return (acc ++ new), w') ∧
      only_new_dicts w w' ∧
      (λ c, dicts (heap w') !!! c) <$> new
        = marked marks <$>
            filter (selects key value) ((λ t, dicts (heap w) !!! t) <$> txs) ∧
      (∀ c, c ∈ new → c ∈ dom (dicts (heap w'))).
Proof.
  induction txs as [|t txs IH]; intros acc w Hdom.
  { exists [], w. rewrite app_nil_r. split; [done|].
    split; [apply only_new_dicts_refl|]. split; [done|]. set_solver. }
  cbn [scan_block]. rewrite run_bind. cbn [dict_read gets].
  rewrite fmap_cons.
  destruct (py_eq_str ((dicts (heap w) !!! t) !! key) value) eqn:Hsel.
  - rewrite copy_and_mark.
    set (c0 := fresh (dom (dicts (heap w)))).
    set (w2 := with_heap _ w).
    pose proof (fresh_dict_not_in (heap w)) as Hfresh. fold c0 in Hfresh.
    assert (H12 : only_new_dicts w w2).
    { split; [by destruct w|]. split; [done|].
      cbn. apply insert_subseteq. by apply not_elem_of_dom. }
    destruct (IH (acc ++ [c0]) w2) as (new & w' & Hrun & Hnew & Hrows & Hin).
    { intros t' Ht'. cbn. rewrite dom_insert. set_solver. }
    exists (c0 :: new), w'. split; [by rewrite Hrun, <- app_assoc|].
    split; [by eapply only_new_dicts_trans|].
    destruct Hnew as (_ & _ & Hsub).
    split.
    + rewrite fmap_cons, filter_cons_True by done. rewrite fmap_cons. f_equal.
      * rewrite (lookup_total_subseteq _ _ c0 Hsub).
        -- cbn. by rewrite lookup_total_insert_eq.
        -- cbn. rewrite dom_insert. set_solver.
      * rewrite Hrows. f_equal. f_equal. apply list_fmap_ext.
        intros i t' Ht'. cbn. apply lookup_total_insert_ne.
        intros Heq. apply Hfresh. unfold c0. rewrite Heq. apply Hdom. right.
        by eapply list_elem_of_lookup_2.
    + intros c [->|Hc]%elem_of_cons; [|auto].
      apply subseteq_dom in Hsub. apply Hsub. cbn. rewrite dom_insert. set_solver.
  - destruct (IH acc w) as (new & w' & Hrun & Hnew & Hrows & Hin).
    { intros t' Ht'. apply Hdom. by right. }
    exists new, w'. split; [done|]. split; [done|]. split; [|done].
    rewrite filter_cons_False; [done|]. unfold selects. by rewrite Hsel.
Qed.

Lemma scan_chain_run key value marks c :
  ∀ acc w,
    (∀ b, b ∈ c → owns (heap w) (transactions b)) →
    ∃ new w',
      scan_chain key value marks c acc w = (Return (acc ++ new), w') ∧
      only_new_dicts w w' ∧
      (λ r, dicts (heap w') !!! r) <$> new
        = rows_of key value marks
            ((λ b, (b, txs_of (heap w) (transactions b))) <$> c).
Proof.
  induction c as [|b c IH]; intros acc w Howns.
  { exists [], w. rewrite app_nil_r. split; [done|].
    split; [apply only_new_dicts_refl|done]. }
  cbn [scan_chain]. rewrite run_bind. cbn [list_read gets]. rewrite run_bind.
  destruct (Howns b ltac:(left)) as [Hb Hbd].
  destruct (scan_block_run key value (marks b)
              (lists (heap w) !!! transactions b) acc w Hbd)
    as (new1 & w1 & Hrun1 & H1 & Hrows1 & Hin1).
  rewrite Hrun1.
  destruct (IH (acc ++ new1) w1) as (new2 & w' & Hrun2 & H2 & Hrows2).
  { intros b' Hb'. apply (only_new_dicts_keeps w w1 _ H1), Howns. by right. }
  exists (new1 ++ new2), w'. split; [by rewrite Hrun2, <- app_assoc|].
  split; [by eapply only_new_dicts_trans|].
  rewrite fmap_app, Hrows2. unfold rows_of. rewrite fmap_cons, bind_cons. cbn [fst snd].
  f_equal.
  - unfold txs_of. rewrite <- Hrows1. apply list_fmap_ext. intros i r Hr.
    destruct H2 as (_ & _ & Hsub). apply lookup_total_subseteq; [done|].
    apply Hin1. by eapply list_elem_of_lookup_2.
  - f_equal. apply list_fmap_ext. intros i b' Hb'. f_equal.
    apply (only_new_dicts_keeps w w1 _ H1), Howns.
    right. by eapply list_elem_of_lookup_2.
Qed.
End scan_results.

(** ** What the ledger operations maintain *)

Section ledger_invariant.
Context `{Externals}.

Lemma chain_owned w b :
  ledger_wf w → b ∈ chain (blockchain w) → owns (heap w) (transactions b).
Proof. intros [_ Hb] Hin. by apply Hb. Qed.

Lemma sealed_keeps w w' :
  chain (blockchain w') = chain (blockchain w) →
  (∀ b, b ∈ chain (blockchain w) →
     txs_of (heap w') (transactions b) = txs_of (heap w) (transactions b)) →
  sealed w' = sealed w.
Proof.
  intros Hc Hk. unfold sealed. rewrite Hc. apply list_fmap_ext.
  intros i b Hb. f_equal. apply Hk. by eapply list_elem_of_lookup_2.
Qed.

Lemma ledger_inv_keeps w w' :
  blockchain w' = blockchain w →
  (∀ r, keeps (heap w) (heap w') r) →
  ledger_inv w → ledger_inv w' ∧ sealed w' = sealed w.
Proof.
  intros Hbc Hk ([Hp Hb] & Hne & Hv).
  assert (Htx : ∀ b, b ∈ chain (blockchain w) →
            txs_of (heap w') (transactions b) = txs_of (heap w) (transactions b)).
  { intros b Hin. apply Hk, Hb, Hin. }
  split; [|apply sealed_keeps; [by rewrite Hbc|done]].
  unfold ledger_inv, ledger_wf. rewrite Hbc. split; [split|split; [done|]].
  - by apply Hk.
  - intros b Hin. destruct (Hb b Hin). split; [by apply Hk|done].
  - by rewrite (chain_valid_ext (heap w)).
Qed.

Lemma ledger_inv_only_new_dicts w w' :
  only_new_dicts w w' → ledger_inv w → ledger_inv w' ∧ sealed w' = sealed w.
Proof.
  intros Hnew. apply ledger_inv_keeps.
  - destruct Hnew as (-> & _). by destruct w.
  - intros r. by apply only_new_dicts_keeps.
Qed.

Lemma new_dict_only_new_dicts d w r w' :
  new_dict d w = (Return r, w') → only_new_dicts w w'.
Proof.
  intros [= <- <-]. split; [by destruct w|]. split; [done|].
  cbn. apply insert_subseteq, not_elem_of_dom, fresh_dict_not_in.
Qed.

Lemma ledger_inv_init w0 w :
  Blockchain.init w0 = (Return (), w) → ledger_inv w.
Proof.
  intros [= <-].
  set (r1 := fresh (dom (lists (heap w0)))).
  set (l1 := <[r1 := []]> (lists (heap w0))).
  set (r2 := fresh (dom l1)).
  assert (Hr2 : r2 ∉ dom l1) by apply is_fresh.
  assert (Hne : r1 ≠ r2).
  { intros Heq. apply Hr2. rewrite <- Heq. unfold l1. rewrite dom_insert. set_solver. }
  split; [split|split; [done|reflexivity]].
  - split; cbn; fold r1 l1 r2.
    + rewrite dom_insert. set_solver.
    + rewrite lookup_total_insert_eq. set_solver.
  - cbn. fold r1 l1 r2. intros b ->%list_elem_of_singleton. cbn.
    split; [|done]. split; cbn.
    + unfold l1. rewrite !dom_insert. set_solver.
    + rewrite lookup_total_insert_ne by done. unfold l1.
      rewrite lookup_total_insert_eq. set_solver.
Qed.

Lemma ledger_inv_add w tx :
  tx ∈ dom (dicts (heap w)) → ledger_inv w →
  ledger_inv (after_add w tx) ∧ sealed (after_add w tx) = sealed w.
Proof.
  intros Htx ([[Hp Hpd] Hb] & Hne & Hv).
  set (p := pending_transactions (blockchain w)) in *.
  assert (Hk : ∀ b, b ∈ chain (blockchain w) →
            keeps (heap w) (heap (after_add w tx)) (transactions b)).
  { intros b Hin. destruct (Hb b Hin) as [_ Hbp]. by apply keeps_list_append. }
  assert (Hsame : ∀ b, b ∈ chain (blockchain w) →
            txs_of (heap (after_add w tx)) (transactions b)
            = txs_of (heap w) (transactions b)).
  { intros b Hin. apply Hk; [done|]. by apply Hb. }
  split; [|by apply sealed_keeps].
  split; [split|split; [done|]].
  - split; cbn; fold p.
    + rewrite dom_insert. set_solver.
    + rewrite lookup_total_insert_eq. intros t [Ht| ->%list_elem_of_singleton]%elem_of_app; auto.
  - intros b Hin. destruct (Hb b Hin) as [Hob Hbp]. split; [|done].
    by apply Hk.
  - cbn [blockchain after_add with_heap]. by rewrite (chain_valid_ext (heap w)).
Qed.

Lemma ledger_inv_seal w tip n :
  ledger_inv w → last (chain (blockchain w)) = Some tip →
  let b := with_nonce (heap w) (candidate w tip) n in
  ledger_inv (after_seal w b) ∧
  sealed (after_seal w b) = sealed w ++ [(b, pending w)].
Proof.
  intros ([[Hp Hpd] Hb] & Hne & Hv) Htip b.
  set (p := pending_transactions (blockchain w)) in *.
  pose proof (fresh_list_not_in (heap w)) as Hfresh.
  set (r := fresh (dom (lists (heap w)))) in *.
  assert (Hk : ∀ q, keeps (heap w) (heap (after_seal w b)) q).
  { intros q. apply keeps_new_list. }
  assert (Hpb : txs_of (heap (after_seal w b)) p = txs_of (heap w) p).
  { by apply Hk. }
  assert (Hsame : ∀ b', b' ∈ chain (blockchain w) →
            txs_of (heap (after_seal w b)) (transactions b')
            = txs_of (heap w) (transactions b')).
  { intros b' Hin. apply Hk. by apply Hb. }
  split.
  - split; [split|split].
    + split; cbn; fold r.
      * rewrite dom_insert. set_solver.
      * rewrite lookup_total_insert_eq. set_solver.
    + cbn [blockchain after_seal chain pending_transactions]. fold r.
      intros b' [Hin| ->%list_elem_of_singleton]%elem_of_app.
      * destruct (Hb b' Hin) as [Hob _]. split; [by apply Hk|].
        intros Heq. apply Hfresh. rewrite <- Heq. apply Hob.
      * split; [by apply Hk|]. intros Heq. apply Hfresh. by rewrite <- Heq.
    + cbn. by destruct (chain (blockchain w)).
    + cbn [blockchain after_seal chain].
      apply (chain_valid_snoc _ _ tip); [done| |by rewrite (digest_ext (heap w))|done].
      by rewrite (chain_valid_ext (heap w)).
  - unfold sealed. cbn [blockchain after_seal chain]. rewrite fmap_app. f_equal.
    + apply list_fmap_ext. intros i b' Hb'. f_equal. apply Hsame.
      by eapply list_elem_of_lookup_2.
    + cbn [fmap list_fmap]. unfold pending. do 2 f_equal. exact Hpb.
Qed.

Lemma scan_chain_only_new_dicts key value marks w o w' :
  ledger_inv w →
  scan_chain key value marks (chain (blockchain w)) [] w = (o, w') →
  only_new_dicts w w'.
Proof.
  intros (Hwf & _) Hrun.
  destruct (scan_chain_run key value marks (chain (blockchain w)) [] w)
    as (new & w1 & Hrun1 & Hnew & _).
  { intros b Hin. by apply chain_owned. }
  rewrite Hrun1 in Hrun. by injection Hrun as <- <-.
Qed.

(** The ledger reached by its own operations has live references, no
    sharing between sealed blocks and the pending buffer, a genesis
    block, and a chain that passes [is_chain_valid]. *)
Lemma reachable_inv w : reachable w → ledger_inv w.
Proof.
  induction 1 as [w0 w Hinit|w d r w' _ IH Hnew|w tx o w' _ IH Htx Hadd
                 |w fuel o w' _ IH Ho Hmine|w o w' _ IH Hval
                 |w hv o w' _ IH Hget|w uid o w' _ IH Hscan
                 |w w' _ IH Hh Hbc].
  - by eapply ledger_inv_init.
  - by eapply ledger_inv_only_new_dicts, IH; eapply new_dict_only_new_dicts.
  - rewrite add_transaction_run in Hadd. injection Hadd as _ <-.
    by apply ledger_inv_add.
  - apply mine_pending_inv in Hmine; [|done].
    destruct Hmine as [(_ & -> & _)|[(_ & ->)|(tip & n & _ & Htip & _ & -> & _)]];
      [done..|].
    by apply ledger_inv_seal.
  - rewrite is_chain_valid_run in Hval. by injection Hval as _ <-.
  - rewrite get_block_by_hash_run in Hget. by injection Hget as _ <-.
  - rewrite get_transactions_by_user_scan in Hscan.
    by eapply ledger_inv_only_new_dicts, IH; eapply scan_chain_only_new_dicts.
  - apply (ledger_inv_keeps w w'); [done| |done].
    intros r. rewrite Hh. apply keeps_refl.
Qed.
End ledger_invariant.

(** ** Validity of the ledger and tampering *)

Section validity.
Context `{Externals}.

Lemma is_chain_valid_true w :
  Blockchain.is_chain_valid w = (Return true, w) ↔
  chain_valid (heap w) (chain (blockchain w)) = true.
Proof.
  rewrite is_chain_valid_run. split; [by intros [= ->]|by intros ->].
Qed.

Lemma invalid_from_bad_block w i :
  (1 ≤ i < length (chain (blockchain w)))%nat →
  block_ok (heap w) (chain (blockchain w)) i = false →
  chain_valid (heap w) (take i (chain (blockchain w))) = true →
  invalid_from i w.
Proof.
  intros Hi Hbad Hbefore. split; [|split].
  - rewrite is_chain_valid_run. do 2 f_equal.
    by apply (chain_valid_false _ _ i).
  - intros k Hk. rewrite is_chain_valid_run. do 2 f_equal.
    by apply (bad_block_onward _ _ i).
  - intros k Hk. rewrite is_chain_valid_run. do 2 f_equal.
    cbn [truncate with_blockchain blockchain heap set_chain chain].
    replace k with (k `min` i)%nat by lia. rewrite <- take_take.
    by apply chain_valid_take.
Qed.

(** C1, as amended: every ledger reached by the ledger operations passes
    [is_chain_valid]. In a ledger that passes it, a change of one stored
    field of a block after genesis makes the chain invalid from that
    block onward: always, when the field is [hash] or [previous_hash],
    and unless [json.dumps] and SHA-256 collide on the dict hashed before
    and the one hashed after, when it is [index], [timestamp],
    [transactions] or [nonce]; so does a change in place of the objects
    behind the transactions of the block. Of the genesis block, a change
    of [hash] is noticed when a second block exists, through the
    previous hash that block stores, and a change that leaves [hash] as
    it is, whatever else it changes, is never noticed. *)
Theorem tampering_after_genesis_detected :
  (∀ w, reachable w → Blockchain.is_chain_valid w = (Return true, w)) ∧
  (∀ w i b b',
     Blockchain.is_chain_valid w = (Return true, w) →
     (1 ≤ i)%nat → chain (blockchain w) !! i = Some b →
     tampered (heap w) b b' →
     compared_directly b b' ∨
     no_collision (Block.hashed_fields (heap w) b')
       (Block.hashed_fields (heap w) b) →
     invalid_from i (replace_block i b' w)) ∧
  (∀ w i b h',
     Blockchain.is_chain_valid w = (Return true, w) →
     (1 ≤ i)%nat → chain (blockchain w) !! i = Some b →
     txs_of h' (transactions b) ≠ txs_of (heap w) (transactions b) →
     no_collision (Block.hashed_fields h' b) (Block.hashed_fields (heap w) b) →
     let w' := with_heap (λ _, h') w in
     Blockchain.is_chain_valid w' = (Return false, w')) ∧
  (∀ w g x,
     Blockchain.is_chain_valid w = (Return true, w) →
     chain (blockchain w) !! 0%nat = Some g → x ≠ hash g →
     let w' := replace_block 0 (set_hash x g) w in
     ((2 ≤ length (chain (blockchain w)))%nat → invalid_from 1 w') ∧
     (length (chain (blockchain w)) = 1%nat →
        Blockchain.is_chain_valid w' = (Return true, w'))) ∧
  (∀ w g g' r,
     chain (blockchain w) !! 0%nat = Some g → hash g' = hash g →
     Blockchain.is_chain_valid w = (Return r, w) →
     let w' := replace_block 0 g' w in
     Blockchain.is_chain_valid w' = (Return r, w')).
Proof.
  split; [|split; [|split; [|split]]].
  - intros w Hw. apply is_chain_valid_true.
    by apply reachable_inv in Hw as (_ & _ & ?).
  - intros w i b b' Hv%is_chain_valid_true Hi Hb Ht Hc.
    set (c := chain (blockchain w)) in *.
    assert (Hlen : (i < length c)%nat) by by eapply lookup_lt_Some.
    pose proof (block_ok_tampered _ _ _ _ _ Hv Hi Hb Ht Hc) as Hbad.
    apply invalid_from_bad_block;
      cbn [replace_block with_blockchain blockchain heap set_chain chain]; fold c.
    + rewrite length_insert. lia.
    + done.
    + rewrite take_insert_ge by done. by apply chain_valid_take.
  - intros w i b h' Hv%is_chain_valid_true Hi Hb Htx Hnc w'.
    rewrite is_chain_valid_run. do 2 f_equal.
    assert (Hlen : (i < length (chain (blockchain w)))%nat)
      by by eapply lookup_lt_Some.
    rewrite chain_valid_true in Hv. specialize (Hv i ltac:(lia)).
    apply (chain_valid_false _ _ i); [done|].
    unfold block_ok in *. cbn [w' with_heap blockchain heap].
    rewrite Hb in *.
    destruct (_ !! (i - 1)%nat); [|done].
    apply andb_true_iff in Hv as [Hh%String.eqb_eq _].
    apply andb_false_iff. left. apply String.eqb_neq. rewrite Hh.
    intros Heq. apply (digest_changed (heap w) h' b b Hnc); [|done].
    right. right. by left.
  - intros w g x Hv%is_chain_valid_true Hg Hx w'.
    set (c := chain (blockchain w)) in *. split.
    + intros Hlen.
      destruct (c !! 1%nat) as [b1|] eqn:Hb1;
        [|apply lookup_ge_None in Hb1; lia].
      rewrite chain_valid_true in Hv. specialize (Hv 1%nat ltac:(lia)).
      unfold block_ok in Hv. cbn [Nat.sub] in Hv. rewrite Hb1, Hg in Hv.
      apply andb_true_iff in Hv as [_ Hp%String.eqb_eq].
      apply invalid_from_bad_block;
        cbn [w' replace_block with_blockchain blockchain heap set_chain chain];
        fold c.
      * rewrite length_insert. lia.
      * unfold block_ok. cbn [Nat.sub].
        rewrite list_lookup_insert_ne by lia. rewrite Hb1.
        rewrite list_lookup_insert_eq by lia. cbn [hash set_hash].
        apply andb_false_iff. right. apply String.eqb_neq. congruence.
      * unfold chain_valid. rewrite length_take, length_insert.
        by replace (1 `min` length c - 1)%nat with 0%nat by lia.
    + intros Hlen. rewrite is_chain_valid_run. do 2 f_equal.
      cbn [w' replace_block with_blockchain blockchain heap set_chain chain].
      fold c. unfold chain_valid. by rewrite length_insert, Hlen.
  - intros w g g' r Hg Hh. rewrite is_chain_valid_run. intros [= <-] w'.
    rewrite is_chain_valid_run. do 2 f_equal.
    cbn [w' replace_block with_blockchain blockchain heap set_chain chain].
    apply chain_valid_genesis. intros g0 Hg0. rewrite Hg in Hg0.
    by injection Hg0 as <-.
Qed.
End validity.

(** ** Sessions *)

Section sessions.
Context `{Externals}.

Lemma get_user_by_session_run session_token w :
  UserAuth.get_user_by_session session_token w
  = (Return (session_user (auth w) session_token), w).
Proof.
  unfold UserAuth.get_user_by_session, session_user.
  rewrite run_bind. cbn [gets].
  destruct (sessions (auth w) !! session_token) as [sd|]; [|done].
  by destruct (users (auth w) !! session_username sd).
Qed.

(** C9: a token that is not in the session map resolves to no user, and
    so does a token whose session names a user that is not in the user
    directory; in both cases nothing is changed. *)
Theorem dangling_session_resolves_to_none w session_token :
  (sessions (auth w) !! session_token = None →
     UserAuth.get_user_by_session session_token w = (Return None, w)) ∧
  (∀ session_data,
     sessions (auth w) !! session_token = Some session_data →
     users (auth w) !! session_username session_data = None →
     UserAuth.get_user_by_session session_token w = (Return None, w)).
Proof.
  rewrite get_user_by_session_run. unfold session_user.
  split; [by intros ->|]. intros sd -> ->. done.
Qed.
End sessions.

(** ** The ledgers the code builds *)

Section built_ledgers.
Context `{Externals}.

Lemma heap_grows_refl h : heap_grows h h.
Proof. by split. Qed.

Lemma heap_grows_trans h1 h2 h3 :
  heap_grows h1 h2 → heap_grows h2 h3 → heap_grows h1 h3.
Proof. intros [? ?] [? ?]. split; by etrans. Qed.

Lemma heap_grows_keeps h h' r :
  heap_grows h h' → owns h r →
  owns h' r ∧ txs_of h' r = txs_of h r.
Proof.
  intros [Hl Hd] [Hr Ht].
  assert (Hlr : lists h' !!! r = lists h !!! r)
    by (by apply lookup_total_subseteq).
  split; [split|].
  - by eapply (subseteq_dom _ _ Hl).
  - rewrite Hlr. intros t Hin. by eapply (subseteq_dom _ _ Hd), Ht.
  - apply txs_of_ext; [done|]. intros t Hin.
    apply lookup_total_subseteq; [done|by apply Ht].
Qed.

Lemma as_dicts_fmap ds : as_dicts (PDict <$> ds) = Some ds.
Proof. induction ds as [|d ds IH]; [done|]. cbn. by rewrite IH. Qed.

Lemma mapM_new_dict_run ds :
  ∀ w, ∃ refs w',
    mapM new_dict ds w = (Return refs, w') ∧
    w' = with_heap (λ _, heap w') w ∧
    lists (heap w') = lists (heap w) ∧
    dicts (heap w) ⊆ dicts (heap w') ∧
    (λ r, dicts (heap w') !!! r) <$> refs = ds ∧
    (∀ r, r ∈ refs → r ∈ dom (dicts (heap w'))).
Proof.
  induction ds as [|d ds IH]; intros w.
  - exists [], w. split; [done|]. split; [by destruct w|].
    repeat split; try done. by intros r ?%elem_of_nil.
  - change (mapM new_dict (d :: ds))
      with (new_dict d ≫= λ y, mapM new_dict ds ≫= λ k, mret (y :: k)).
    rewrite run_bind. cbn [new_dict].
    set (r0 := fresh (dom (dicts (heap w)))).
    set (w1 := with_heap _ w).
    destruct (IH w1) as (refs & w' & Hrun & Hw' & Hl & Hd & Hv & Hdom).
    rewrite run_bind, Hrun. cbn [mret M_ret].
    assert (Hr0 : r0 ∈ dom (dicts (heap w1))).
    { cbn. rewrite dom_insert. set_solver. }
    exists (r0 :: refs), w'. split; [done|].
    split; [by rewrite Hw'; destruct w|]. split; [done|]. split; [|split].
    + etrans; [|exact Hd]. cbn.
      apply insert_subseteq, not_elem_of_dom, fresh_dict_not_in.
    + rewrite fmap_cons. f_equal; [|done].
      rewrite (lookup_total_subseteq _ _ r0 Hd Hr0). cbn.
      by rewrite lookup_total_insert_eq.
    + intros r [->|Hin]%elem_of_cons; [|by apply Hdom].
      by eapply (subseteq_dom _ _ Hd).
Qed.

(** Reading a list of dicts written by [json.dump] builds a new list
    object of new dict objects with the contents written. *)
Lemma load_transactions_run ds w :
  ∃ r w',
    load_transactions (PList (PDict <$> ds)) w = (Return r, w') ∧
    w' = with_heap (λ _, heap w') w ∧
    heap_grows (heap w) (heap w') ∧
    (r ∉ dom (lists (heap w))) ∧
    owns (heap w') r ∧ txs_of (heap w') r = ds.
Proof.
  unfold load_transactions. rewrite as_dicts_fmap.
  destruct (mapM_new_dict_run ds w) as (refs & w1 & Hrun & Hw1 & Hl & Hd & Hv & Hdom).
  rewrite run_bind, Hrun. cbn [new_list].
  pose proof (fresh_list_not_in (heap w1)) as Hfresh.
  set (r := fresh (dom (lists (heap w1)))) in *.
  eexists _, _. split; [reflexivity|].
  split; [by rewrite Hw1; destruct w|]. split; [|split; [|split]].
  - split; cbn; [|done]. rewrite Hl.
    apply insert_subseteq, not_elem_of_dom. by rewrite <- Hl.
  - by rewrite <- Hl.
  - split; cbn.
    + rewrite dom_insert. set_solver.
    + by rewrite lookup_total_insert_eq.
  - unfold txs_of. cbn. by rewrite lookup_total_insert_eq.
Qed.

Lemma as_dicts_Some l ds : as_dicts l = Some ds → l = PDict <$> ds.
Proof.
  revert ds. induction l as [|v l IH]; intros ds; [by intros [= <-]|].
  destruct v; try done. cbn [as_dicts].
  destruct (as_dicts l) as [ds'|]; [|done]. intros [= <-].
  rewrite fmap_cons. f_equal. by apply IH.
Qed.

Lemma load_transactions_inv v w r w' :
  load_transactions v w = (Return r, w') →
  w' = with_heap (λ _, heap w') w ∧
  heap_grows (heap w) (heap w') ∧
  (r ∉ dom (lists (heap w))) ∧ owns (heap w') r.
Proof.
  destruct v as [| | | | |l|]; try done. cbn [load_transactions].
  destruct (as_dicts l) as [ds|] eqn:Hds; [|done].
  apply as_dicts_Some in Hds as ->. intros Hrun.
  destruct (load_transactions_run ds w) as (r0 & w0 & Hrun0 & ? & ? & ? & ? & _).
  unfold load_transactions in Hrun0. rewrite as_dicts_fmap in Hrun0.
  rewrite Hrun0 in Hrun. by injection Hrun as <- <-.
Qed.

Lemma getitem_inv v k x w w' : getitem v k w = (Return x, w') → w' = w.
Proof.
  destruct v; try done. cbn [getitem].
  destruct (_ !! k); [|done]. by intros [= _ <-].
Qed.

Lemma as_int_inv v z w w' : as_int v w = (Return z, w') → w' = w.
Proof. destruct v; try done. by intros [= _ <-]. Qed.

Lemma as_float_inv v z w w' : as_float v w = (Return z, w') → w' = w.
Proof. destruct v; try done. by intros [= _ <-]. Qed.

Lemma as_str_inv v z w w' : as_str v w = (Return z, w') → w' = w.
Proof. destruct v; try done. by intros [= _ <-]. Qed.

(** A block that [from_dict] builds holds a list object of its own. *)
Lemma block_from_dict_inv block_data w b w' :
  Blockchain.block_from_dict block_data w = (Return b, w') →
  w' = with_heap (λ _, heap w') w ∧
  heap_grows (heap w) (heap w') ∧
  (transactions b ∉ dom (lists (heap w))) ∧ owns (heap w') (transactions b).
Proof.
  unfold Blockchain.block_from_dict. intros Hrun.
  apply run_bind_inv in Hrun as (i & w1 & ->%getitem_inv & Hrun).
  apply run_bind_inv in Hrun as (t & w1 & ->%getitem_inv & Hrun).
  apply run_bind_inv in Hrun as (txs & w1 & ->%getitem_inv & Hrun).
  apply run_bind_inv in Hrun as (p & w1 & ->%getitem_inv & Hrun).
  apply run_bind_inv in Hrun as (i' & w1 & ->%as_int_inv & Hrun).
  apply run_bind_inv in Hrun as (t' & w1 & ->%as_float_inv & Hrun).
  apply run_bind_inv in Hrun as (r & w1 & Hload & Hrun).
  apply load_transactions_inv in Hload as (Hw1 & Hg & Hfresh & Hown).
  apply run_bind_inv in Hrun as (p' & w2 & ->%as_str_inv & Hrun).
  rewrite run_bind, init_run in Hrun. cbn beta iota in Hrun.
  apply run_bind_inv in Hrun as (n & w2 & ->%getitem_inv & Hrun).
  apply run_bind_inv in Hrun as (n' & w2 & ->%as_int_inv & Hrun).
  rewrite run_bind in Hrun. cbn [mret M_ret] in Hrun.
  apply run_bind_inv in Hrun as (x & w2 & ->%getitem_inv & Hrun).
  apply run_bind_inv in Hrun as (x' & w2 & ->%as_str_inv & Hrun).
  injection Hrun as <- <-. done.
Qed.

Lemma from_dict_loop_inv items :
  ∀ w w',
    Blockchain.from_dict_loop items w = (Return (), w') →
    (∀ b, b ∈ chain (blockchain w) → owns (heap w) (transactions b)) →
    ∃ bs',
      w' = mkWorld (heap w')
             (set_chain (chain (blockchain w) ++ bs') (blockchain w))
             (storage w) (auth w) (blockchain_file w) (env w) ∧
      heap_grows (heap w) (heap w') ∧
      (∀ b, b ∈ chain (blockchain w) ++ bs' → owns (heap w') (transactions b)) ∧
      (∀ b, b ∈ bs' → transactions b ∉ dom (lists (heap w))).
Proof.
  induction items as [|block_data items IH]; intros w w' Hrun Hown.
  - injection Hrun as <-. exists []. rewrite app_nil_r.
    split; [by destruct w as [? [] ? ? ? ?]|].
    split; [apply heap_grows_refl|]. split; [done|].
    by intros b ?%elem_of_nil.
  - cbn [Blockchain.from_dict_loop] in Hrun.
    apply run_bind_inv in Hrun as (b & w1 & Hblock & Hrun).
    apply block_from_dict_inv in Hblock as (Hw1 & Hg1 & Hfresh & Hb).
    rewrite run_bind in Hrun. cbn [modify] in Hrun.
    apply IH in Hrun as (bs' & Hw' & Hg2 & Hown' & Hnew).
    2:{ cbn. intros b' [Hin| ->%list_elem_of_singleton]%elem_of_app; [|done].
        rewrite Hw1 in Hin. by apply (heap_grows_keeps (heap w)), Hown. }
    exists (b :: bs').
    split; [|split; [by eapply heap_grows_trans|split]].
    + rewrite Hw'. cbn. rewrite Hw1. cbn. unfold set_chain. cbn.
      by rewrite <- app_assoc.
    + intros b' Hin. apply Hown'. cbn. rewrite Hw1. cbn.
      by rewrite <- app_assoc.
    + intros b' [->|Hin]%elem_of_cons; [done|].
      intros Hd. apply (Hnew b' Hin). cbn.
      by eapply (subseteq_dom _ _ (proj1 Hg1)).
Qed.

(** Whatever [from_dict] is given, the ledger it leaves when it returns
    holds live references, and the list objects of its blocks and of its
    buffer are all different objects from the buffer. *)
Lemma from_dict_wf data w w' :
  Blockchain.from_dict data w = (Return (), w') → ledger_wf w'.
Proof.
  destruct data as [| | | | | |d]; try done. cbn [Blockchain.from_dict].
  intros Hrun.
  apply run_bind_inv in Hrun as (dv & w1 & ->%as_int_inv & Hrun).
  rewrite run_bind in Hrun. cbn [modify] in Hrun.
  apply run_bind_inv in Hrun as (rp & w2 & Hload & Hrun).
  apply load_transactions_inv in Hload as (Hw2 & Hg2 & Hfresh & Hrp).
  rewrite run_bind in Hrun. cbn [modify] in Hrun.
  rewrite run_bind in Hrun. cbn [modify] in Hrun.
  apply run_bind_inv in Hrun as (items & w3 & Hiter & Hrun).
  assert (w3 = with_blockchain (set_chain [])
                 (with_blockchain (set_pending_transactions rp) w2)) as ->.
  { revert Hiter. unfold py_iter.
    destruct (default (PList []) (d !! "chain")); try done;
      by intros [= _ <-]. }
  apply from_dict_loop_inv in Hrun as (bs' & Hw' & Hg & Hown & Hnew);
    [|by intros b ?%elem_of_nil].
  cbn in Hw', Hg, Hown, Hnew.
  assert (Hbc : blockchain w' = mkBlockchain bs' (difficulty (blockchain w2)) rp)
    by (by rewrite Hw').
  split; rewrite Hbc; cbn.
  - by apply (heap_grows_keeps (heap w2)).
  - intros b Hin. split; [by apply Hown|].
    intros Heq. apply (Hnew b Hin). rewrite Heq. apply Hrp.
Qed.

Lemma load_blockchain_wf w0 bc w :
  BlockchainPersistence.load_blockchain w0 = (Return bc, w) → ledger_wf w.
Proof.
  unfold BlockchainPersistence.load_blockchain. intros Hrun.
  apply run_bind_inv in Hrun as ([] & w1 & Hinit & Hrun).
  apply ledger_inv_init in Hinit as [Hwf _].
  rewrite run_bind in Hrun. cbn [gets] in Hrun.
  destruct (blockchain_file w1); cbn beta iota in Hrun.
  - rewrite run_bind in Hrun. by injection Hrun as _ <-.
  - by rewrite run_bind in Hrun.
  - rewrite run_bind in Hrun. by injection Hrun as _ <-.
  - apply run_bind_inv in Hrun as ([] & w2 & Hfrom & Hrun).
    injection Hrun as _ <-. by eapply from_dict_wf.
Qed.

Lemma ledger_wf_keeps w w' :
  blockchain w' = blockchain w →
  (∀ r, keeps (heap w) (heap w') r) →
  ledger_wf w → ledger_wf w' ∧ sealed w' = sealed w.
Proof.
  intros Hbc Hk [Hp Hb].
  split; [|apply sealed_keeps; [by rewrite Hbc|]].
  - unfold ledger_wf. rewrite Hbc. split; [by apply Hk|].
    intros b Hin. destruct (Hb b Hin). split; [by apply Hk|done].
  - intros b Hin. apply Hk, Hb, Hin.
Qed.

Lemma ledger_wf_only_new_dicts w w' :
  only_new_dicts w w' → ledger_wf w → ledger_wf w' ∧ sealed w' = sealed w.
Proof.
  intros Hnew. apply ledger_wf_keeps.
  - destruct Hnew as (-> & _). by destruct w.
  - intros r. by apply only_new_dicts_keeps.
Qed.

Lemma sealed_after_add w tx :
  ledger_wf w → sealed (after_add w tx) = sealed w.
Proof.
  intros [_ Hb]. apply sealed_keeps; [done|]. intros b Hin.
  destruct (Hb b Hin) as [Hob Hne].
  by apply (keeps_list_append (heap w)).
Qed.

Lemma ledger_wf_add w tx :
  tx ∈ dom (dicts (heap w)) → ledger_wf w → ledger_wf (after_add w tx).
Proof.
  intros Htx [[Hp Hpd] Hb].
  set (p := pending_transactions (blockchain w)) in *.
  split.
  - split; cbn; fold p.
    + rewrite dom_insert. set_solver.
    + rewrite lookup_total_insert_eq.
      intros t [Ht| ->%list_elem_of_singleton]%elem_of_app; auto.
  - intros b Hin. destruct (Hb b Hin) as [Hob Hbp]. split; [|done].
    by apply (keeps_list_append (heap w)).
Qed.

(** Sealing puts the block on top with what was pending, and leaves
    every block below with its transactions. *)
Lemma ledger_wf_seal w b :
  ledger_wf w → transactions b = pending_transactions (blockchain w) →
  ledger_wf (after_seal w b) ∧
  sealed (after_seal w b) = sealed w ++ [(b, pending w)].
Proof.
  intros [[Hp Hpd] Hb] Htx.
  set (p := pending_transactions (blockchain w)) in *.
  pose proof (fresh_list_not_in (heap w)) as Hfresh.
  set (r := fresh (dom (lists (heap w)))) in *.
  assert (Hk : ∀ q, keeps (heap w) (heap (after_seal w b)) q).
  { intros q. apply keeps_new_list. }
  assert (Hpb : txs_of (heap (after_seal w b)) p = txs_of (heap w) p).
  { by apply Hk. }
  split.
  - split.
    + split; cbn; fold r.
      * rewrite dom_insert. set_solver.
      * rewrite lookup_total_insert_eq. set_solver.
    + cbn [blockchain after_seal chain pending_transactions]. fold r.
      intros b' [Hin| ->%list_elem_of_singleton]%elem_of_app.
      * destruct (Hb b' Hin) as [Hob _]. split; [by apply Hk|].
        intros Heq. apply Hfresh. rewrite <- Heq. apply Hob.
      * rewrite Htx. split; [by apply Hk|].
        intros Heq. apply Hfresh. by rewrite <- Heq.
  - unfold sealed. cbn [blockchain after_seal chain]. rewrite fmap_app. f_equal.
    + apply list_fmap_ext. intros i b' Hb'. f_equal. apply Hk.
      by eapply Hb, list_elem_of_lookup_2.
    + cbn [fmap list_fmap]. unfold pending. do 2 f_equal. by rewrite Htx.
Qed.

Lemma scan_chain_new_dicts key value marks w o w' :
  ledger_wf w →
  scan_chain key value marks (chain (blockchain w)) [] w = (o, w') →
  only_new_dicts w w'.
Proof.
  intros Hwf Hrun.
  destruct (scan_chain_run key value marks (chain (blockchain w)) [] w)
    as (new & w1 & Hrun1 & Hnew & _).
  { intros b Hin. by apply chain_owned. }
  rewrite Hrun1 in Hrun. by injection Hrun as <- <-.
Qed.

Lemma get_document_history_new_dicts session_token document_hash w o w' :
  ledger_wf w →
  EVaultController.get_document_history session_token document_hash w
    = (o, w') →
  only_new_dicts w w'.
Proof.
  intros Hwf. unfold EVaultController.get_document_history.
  rewrite run_bind, get_user_by_session_run.
  destruct (session_user _ _);
    [|intros [= _ <-]; apply only_new_dicts_refl].
  rewrite run_bind. cbn [gets]. rewrite get_document_history_loop_scan.
  by apply scan_chain_new_dicts.
Qed.

(** Every ledger the code builds holds live references, and none of its
    blocks shares its list of transactions with the pending buffer. *)
Lemma built_wf w : built w → ledger_wf w.
Proof.
  induction 1 as [w0 w Hinit|w0 bc w Hload|w d r w' _ IH Hnew
                 |w tx o w' _ IH Htx Hadd|w fuel o w' _ IH Ho Hmine
                 |w o w' _ IH Hval|w hv o w' _ IH Hget|w uid o w' _ IH Hscan
                 |w t dh o w' _ IH Hhist|w w' _ IH Hh Hbc].
  - by apply ledger_inv_init in Hinit as [? _].
  - by eapply load_blockchain_wf.
  - by eapply ledger_wf_only_new_dicts, IH; eapply new_dict_only_new_dicts.
  - rewrite add_transaction_run in Hadd. injection Hadd as _ <-.
    by apply ledger_wf_add.
  - apply mine_pending_inv in Hmine; [|done].
    destruct Hmine as [(_ & -> & _)|[(_ & ->)|(tip & n & _ & Htip & _ & -> & _)]];
      [done..|].
    by apply ledger_wf_seal.
  - rewrite is_chain_valid_run in Hval. by injection Hval as _ <-.
  - rewrite get_block_by_hash_run in Hget. by injection Hget as _ <-.
  - rewrite get_transactions_by_user_scan in Hscan.
    by eapply ledger_wf_only_new_dicts, IH; eapply scan_chain_new_dicts.
  - by eapply ledger_wf_only_new_dicts, IH;
      eapply get_document_history_new_dicts.
  - apply (ledger_wf_keeps w w'); [done| |done].
    intros r. rewrite Hh. apply keeps_refl.
Qed.
End built_ledgers.

(** ** Sealed blocks are never rewritten *)

Section preservation.
Context `{Externals}.

Lemma sealed_length w : length (sealed w) = length (chain (blockchain w)).
Proof. unfold sealed. by rewrite length_fmap. Qed.

Lemma chain_preserved_same w w' : sealed w' = sealed w → chain_preserved w w'.
Proof.
  intros Hs. split; [by left|]. split; [by rewrite Hs|].
  by rewrite <- !sealed_length, Hs.
Qed.

Lemma chain_preserved_snoc w w' tip b txs :
  last (chain (blockchain w)) = Some tip → index b = index tip + 1 →
  sealed w' = sealed w ++ [(b, txs)] → chain_preserved w w'.
Proof.
  intros Htip Hi Hs. split; [right; eauto 6|]. split.
  - rewrite Hs. by apply prefix_app_r.
  - rewrite <- !sealed_length, Hs, length_app. lia.
Qed.

Lemma get_document_history_run session_token document_hash w :
  EVaultController.get_document_history session_token document_hash w
  = match session_user (auth w) session_token with
    | None => (Raise (ValueError "Invalid session"), w)
    | Some _ =>
        scan_chain "document_hash" document_hash history_marks
          (chain (blockchain w)) [] w
    end.
Proof.
  unfold EVaultController.get_document_history.
  rewrite run_bind, get_user_by_session_run.
  destruct (session_user _ _); [|done].
  rewrite run_bind. cbn [gets]. apply get_document_history_loop_scan.
Qed.

(** C10: every ledger the code builds, by [Blockchain()], by
    [load_blockchain] or from these by its operations, holds live
    references that the buffer shares with no block. In such a ledger,
    appending a transaction, validating, looking a block up and the two
    scans leave the sealed chain exactly as it was, and sealing the
    pending buffer either leaves it as it was or puts one block on top,
    whose index is the tip's plus one. In every case the old chain is a
    prefix of the new one and the chain has not become shorter. *)
Theorem sealed_blocks_preserved :
  (∀ w, built w → ledger_wf w) ∧
  ∀ w, ledger_wf w →
    (∀ tx o w', Blockchain.add_transaction tx w = (o, w') →
       sealed w' = sealed w ∧ chain_preserved w w') ∧
    (∀ fuel o w',
       Blockchain.mine_pending_transactions fuel w = (o, w') →
       is_beyond o = false → chain_preserved w w') ∧
    (∀ o w', Blockchain.is_chain_valid w = (o, w') →
       sealed w' = sealed w ∧ chain_preserved w w') ∧
    (∀ hash_value o w', Blockchain.get_block_by_hash hash_value w = (o, w') →
       sealed w' = sealed w ∧ chain_preserved w w') ∧
    (∀ user_id o w', Blockchain.get_transactions_by_user user_id w = (o, w') →
       sealed w' = sealed w ∧ chain_preserved w w') ∧
    (∀ session_token document_hash o w',
       EVaultController.get_document_history session_token document_hash w
         = (o, w') →
       sealed w' = sealed w ∧ chain_preserved w w').
Proof.
  split; [exact built_wf|]. intros w Hwf.
  assert (Hsame : ∀ w', sealed w' = sealed w →
            sealed w' = sealed w ∧ chain_preserved w w').
  { intros w' Hs. split; [done|by apply chain_preserved_same]. }
  split; [|split; [|split; [|split; [|split]]]].
  - intros tx o w'. rewrite add_transaction_run. intros [= _ <-]. apply Hsame.
    by apply sealed_after_add.
  - intros fuel o w' Hmine Ho.
    apply mine_pending_inv in Hmine; [|done].
    destruct Hmine as [(_ & -> & _)|[(_ & ->)|(tip & n & _ & Htip & _ & -> & _)]].
    1,2: by apply chain_preserved_same.
    destruct (ledger_wf_seal w (with_nonce (heap w) (candidate w tip) n)
                Hwf eq_refl) as [_ Hs].
    exact (chain_preserved_snoc w _ tip
             (with_nonce (heap w) (candidate w tip) n) _ Htip eq_refl Hs).
  - intros o w'. rewrite is_chain_valid_run. intros [= _ <-]. by apply Hsame.
  - intros hv o w'. rewrite get_block_by_hash_run. intros [= _ <-].
    by apply Hsame.
  - intros user_id o w'. rewrite get_transactions_by_user_scan. intros Hscan.
    apply Hsame.
    by eapply ledger_wf_only_new_dicts; [eapply scan_chain_new_dicts|].
  - intros session_token document_hash o w' Hhist. apply Hsame.
    by eapply ledger_wf_only_new_dicts;
      [eapply get_document_history_new_dicts|].
Qed.


End preservation.

(** ** The object store *)

Lemma random_bytes_length e n : length (map (entropy e) (seq (drawn e) n)) = n.
Proof. by rewrite length_map, length_seq. Qed.

Section store_facts.
Context `{Externals}.

Lemma retrieve_document_world document_hash w o w' :
  DocumentStorage.retrieve_document document_hash w = (o, w') → w' = w.
Proof.
  unfold DocumentStorage.retrieve_document. rewrite run_bind. cbn [gets].
  destruct (metadata (storage w) !! document_hash) as [md|]; [|by intros [= _ <-]].
  destruct (files (storage w) !! document_hash) as [ct|]; [|by intros [= _ <-]].
  rewrite run_bind. unfold DocumentStorage.b64decode_field.
  destruct (b64decode (doc_iv md)) as [iv|]; [|by intros [= _ <-]].
  cbn [mret M_ret]. rewrite run_bind.
  destruct (b64decode (doc_encryption_key md)) as [key|]; [|by intros [= _ <-]].
  cbn [mret M_ret]. rewrite run_bind. unfold DocumentStorage._decrypt_document.
  destruct (negb (aes_key_ok key)); [by intros [= _ <-]|].
  destruct (negb (length iv =? 16)%nat); [by intros [= _ <-]|].
  destruct (negb (length ct mod 16 =? 0)%nat); [by intros [= _ <-]|].
  unfold lift. destruct (unpad _ _); by intros [= _ <-].
Qed.

(** What a successful [retrieve_document] has read. *)
Lemma retrieve_document_inv document_hash w content md w' :
  DocumentStorage.retrieve_document document_hash w = (Return (content, md), w') →
  w' = w ∧ metadata (storage w) !! document_hash = Some md ∧
  ∃ key, b64decode (doc_encryption_key md) = Some key ∧ aes_key_ok key = true.
Proof.
  intros Hrun. split; [by eapply retrieve_document_world|]. revert Hrun.
  unfold DocumentStorage.retrieve_document. rewrite run_bind. cbn [gets].
  destruct (metadata (storage w) !! document_hash) as [md'|]; [|done].
  destruct (files (storage w) !! document_hash) as [ct|]; [|done].
  rewrite run_bind. unfold DocumentStorage.b64decode_field.
  destruct (b64decode (doc_iv md')) as [iv|]; [|done].
  cbn [mret M_ret]. rewrite run_bind.
  destruct (b64decode (doc_encryption_key md')) as [key|] eqn:Hdec; [|done].
  cbn [mret M_ret]. rewrite run_bind. unfold DocumentStorage._decrypt_document.
  destruct (aes_key_ok key) eqn:Hkey; [|done]. cbn [negb].
  destruct (negb (length iv =? 16)%nat); [done|].
  destruct (negb (length ct mod 16 =? 0)%nat); [done|].
  unfold lift. destruct (unpad _ _); [|done..].
  intros [= _ <- _]. split; [done|]. by exists key.
Qed.

(** Every way [store_document] can return. *)
Lemma store_document_inv user_id document_name document_content document_type
    encryption_key w md w' :
  DocumentStorage.store_document user_id document_name document_content
    document_type encryption_key w = (Return md, w') →
  ∃ key iv,
    aes_key_ok key = true ∧ length iv = 16%nat ∧
    (∀ k, encryption_key = Some k → key = k) ∧
    md = {| doc_user_id := user_id; doc_name := document_name;
            doc_type := document_type;
            doc_hash := sha256_hexdigest document_content;
            doc_size := length document_content;
            doc_created_at := doc_created_at md;
            doc_iv := b64encode iv;
            doc_encryption_key := b64encode key |} ∧
    storage w' =
      mkStorage
        (<[sha256_hexdigest document_content := md]> (metadata (storage w)))
        (<[sha256_hexdigest document_content :=
             aes_cbc_encrypt key iv (pad document_content 16)]>
           (files (storage w))) ∧
    heap w' = heap w ∧ blockchain w' = blockchain w ∧ auth w' = auth w ∧
    blockchain_file w' = blockchain_file w.
Proof.
  unfold DocumentStorage.store_document. rewrite run_bind.
  destruct encryption_key as [k|].
  - cbn [mret M_ret]. rewrite run_bind.
    unfold DocumentStorage._encrypt_document.
    destruct (aes_key_ok k) eqn:Hk; [|done]. cbn [negb].
    rewrite run_bind. cbn [get_random_bytes mret M_ret].
    rewrite run_bind. cbn [time_time]. rewrite run_bind. cbn [modify].
    rewrite run_bind. cbn [modify mret M_ret].
    intros [= <- <-].
    exists k, (map (entropy (env w)) (seq (drawn (env w)) 16)).
    split; [done|]. split; [apply random_bytes_length|].
    split; [by intros ? [= ->]|]. repeat split.
  - cbn [get_random_bytes]. rewrite run_bind.
    unfold DocumentStorage._encrypt_document.
    set (key := map _ (seq _ 32)).
    assert (Hk : aes_key_ok key = true).
    { unfold aes_key_ok, key. by rewrite random_bytes_length. }
    rewrite Hk. cbn [negb].
    rewrite run_bind. cbn [get_random_bytes mret M_ret].
    rewrite run_bind. cbn [time_time]. rewrite run_bind. cbn [modify].
    rewrite run_bind. cbn [modify mret M_ret].
    intros [= <- <-].
    exists key, (map (entropy (env w)) (seq (drawn (env w) + 32) 16)).
    split; [done|]. split; [by rewrite length_map, length_seq|].
    split; [done|]. repeat split.
Qed.

(** Without a key, and with a key of a length AES accepts,
    [store_document] returns. *)
Lemma store_document_returns user_id document_name document_content
    document_type encryption_key w :
  (∀ k, encryption_key = Some k → aes_key_ok k = true) →
  ∃ md w',
    DocumentStorage.store_document user_id document_name document_content
      document_type encryption_key w = (Return md, w').
Proof.
  intros Hkey. unfold DocumentStorage.store_document. rewrite run_bind.
  destruct encryption_key as [k|].
  - cbn [mret M_ret]. rewrite run_bind.
    unfold DocumentStorage._encrypt_document.
    rewrite (Hkey k eq_refl). cbn [negb].
    rewrite run_bind. cbn [get_random_bytes mret M_ret].
    rewrite run_bind. cbn [time_time]. rewrite run_bind. cbn [modify].
    rewrite run_bind. cbn [modify mret M_ret]. eauto.
  - cbn [get_random_bytes]. rewrite run_bind.
    unfold DocumentStorage._encrypt_document.
    set (key := map _ (seq _ 32)).
    assert (Hk : aes_key_ok key = true).
    { unfold aes_key_ok, key. by rewrite random_bytes_length. }
    rewrite Hk. cbn [negb].
    rewrite run_bind. cbn [get_random_bytes mret M_ret].
    rewrite run_bind. cbn [time_time]. rewrite run_bind. cbn [modify].
    rewrite run_bind. cbn [modify mret M_ret]. eauto.
Qed.
End store_facts.

Section store_invariant.
Context `{Externals}.

Lemma retrieve_document_run document_hash w :
  DocumentStorage.retrieve_document document_hash w
  = ((DocumentStorage.retrieve_document document_hash w).1, w).
Proof.
  destruct (DocumentStorage.retrieve_document document_hash w) as [o w'] eqn:Hrun.
  by apply retrieve_document_world in Hrun as ->.
Qed.

(** [retrieve_document] reads the object store and nothing else. *)
Lemma retrieve_document_ext document_hash w1 w2 :
  storage w1 = storage w2 →
  (DocumentStorage.retrieve_document document_hash w1).1
  = (DocumentStorage.retrieve_document document_hash w2).1.
Proof.
  intros Hs. unfold DocumentStorage.retrieve_document.
  rewrite !run_bind. cbn [gets]. rewrite Hs.
  destruct (metadata (storage w2) !! document_hash) as [md|]; [|done].
  destruct (files (storage w2) !! document_hash) as [ct|]; [|done].
  rewrite !run_bind. unfold DocumentStorage.b64decode_field.
  destruct (b64decode (doc_iv md)) as [iv|]; [|done].
  cbn [mret M_ret]. rewrite !run_bind.
  destruct (b64decode (doc_encryption_key md)) as [key|]; [|done].
  cbn [mret M_ret]. rewrite !run_bind. unfold DocumentStorage._decrypt_document.
  destruct (negb (aes_key_ok key)); [done|].
  destruct (negb (length iv =? 16)%nat); [done|].
  destruct (negb (length ct mod 16 =? 0)%nat); [done|].
  unfold lift. by destruct (unpad _ _).
Qed.

Lemma store_inv_empty : store_inv (mkStorage ∅ ∅).
Proof. intros h md Hmd. cbn in Hmd. by rewrite lookup_empty in Hmd. Qed.

Lemma holds_other s s' h md content :
  files s' !! h = files s !! h → holds s h md content → holds s' h md content.
Proof.
  intros Hf (? & ? & ? & key & iv & ? & ? & ? & ? & ?).
  repeat (split; [done|]). exists key, iv. rewrite Hf. done.
Qed.

(** [store_document] keeps the object store consistent, and the record
    it returns holds the content it was given. *)
Lemma store_document_holds user_id document_name document_content
    document_type encryption_key w md w' :
  DocumentStorage.store_document user_id document_name document_content
    document_type encryption_key w = (Return md, w') →
  metadata (storage w') !! doc_hash md = Some md ∧
  holds (storage w') (doc_hash md) md document_content ∧
  (store_inv (storage w) → store_inv (storage w')).
Proof.
  intros (key & iv & Hkey & Hiv & _ & Hmd & Hst & _)%store_document_inv.
  set (h := sha256_hexdigest document_content) in *.
  assert (Hh : doc_hash md = h) by by rewrite Hmd.
  assert (Hholds : holds (storage w') h md document_content).
  { split; [done|]. split; [done|]. split; [by rewrite Hmd|].
    exists key, iv. rewrite Hst, Hmd. cbn. by rewrite lookup_insert_eq. }
  rewrite Hh. split; [|split; [done|]].
  - rewrite Hst. cbn. by rewrite lookup_insert_eq.
  - intros Hinv h' md'. rewrite Hst. cbn [metadata].
    destruct (decide (h = h')) as [<-|Hne].
    + rewrite lookup_insert_eq. intros [= <-]. exists document_content.
      by rewrite Hst in Hholds.
    + rewrite lookup_insert_ne by done. intros Hmd'.
      destruct (Hinv h' md' Hmd') as [c Hc]. exists c.
      eapply holds_other; [|done]. cbn. by rewrite lookup_insert_ne.
Qed.

Lemma delete_document_inv_preserved document_hash w o w' :
  DocumentStorage.delete_document document_hash w = (o, w') →
  store_inv (storage w) → store_inv (storage w').
Proof.
  unfold DocumentStorage.delete_document. rewrite run_bind. cbn [gets].
  destruct (metadata (storage w) !! document_hash) as [md0|] eqn:Hmd0.
  2:{ by intros [= _ <-]. }
  rewrite run_bind. cbn [modify]. rewrite run_bind. cbn [modify mret M_ret].
  intros [= _ <-] Hinv h md. cbn.
  destruct (decide (document_hash = h)) as [<-|Hne].
  - by rewrite lookup_delete_eq.
  - rewrite lookup_delete_ne by done. intros Hmd.
    destruct (Hinv h md Hmd) as [c Hc]. exists c.
    eapply holds_other; [|done]. cbn. by rewrite lookup_delete_ne.
Qed.

Context `{!ExternalLaws}.

(** A record that holds a content decrypts to it. *)
Lemma retrieve_held w h md content :
  metadata (storage w) !! h = Some md → holds (storage w) h md content →
  DocumentStorage.retrieve_document h w = (Return (content, md), w).
Proof.
  intros Hmd (_ & _ & _ & key & iv & Hkey & Hiv & Hk & Hi & Hf).
  unfold DocumentStorage.retrieve_document. rewrite run_bind. cbn [gets].
  rewrite Hmd, Hf. rewrite run_bind. unfold DocumentStorage.b64decode_field.
  rewrite Hi, b64decode_b64encode. cbn [mret M_ret]. rewrite run_bind.
  rewrite Hk, b64decode_b64encode. cbn [mret M_ret]. rewrite run_bind.
  unfold DocumentStorage._decrypt_document.
  destruct (pad_length content) as [Hmod _].
  rewrite Hkey, Hiv, aes_cbc_encrypt_length, Hmod. cbn [negb Nat.eqb].
  rewrite aes_cbc_decrypt_encrypt by done.
  unfold lift. by rewrite unpad_pad.
Qed.
End store_invariant.

Section store_claims.
Context `{Externals}.

(** C4: for any bytes, the empty sequence included, [store_document]
    without a key returns a record whose hash is the SHA-256 of the
    bytes, and [retrieve_document] of that hash then returns exactly
    the bytes together with the record; the same holds whenever
    [store_document] returns for a key that was passed in. *)
Theorem store_then_retrieve `{!ExternalLaws} user_id document_name
    (document_content : bytes) document_type w :
  (∃ md w',
     DocumentStorage.store_document user_id document_name document_content
       document_type None w = (Return md, w') ∧
     doc_hash md = sha256_hexdigest document_content ∧
     DocumentStorage.retrieve_document (doc_hash md) w'
       = (Return (document_content, md), w')) ∧
  (∀ key md w',
     DocumentStorage.store_document user_id document_name document_content
       document_type (Some key) w = (Return md, w') →
     doc_hash md = sha256_hexdigest document_content ∧
     DocumentStorage.retrieve_document (doc_hash md) w'
       = (Return (document_content, md), w')).
Proof.
  assert (Hany : ∀ key md w',
    DocumentStorage.store_document user_id document_name document_content
      document_type key w = (Return md, w') →
    doc_hash md = sha256_hexdigest document_content ∧
    DocumentStorage.retrieve_document (doc_hash md) w'
      = (Return (document_content, md), w')).
  { intros key md w' Hstore.
    destruct (store_document_holds _ _ _ _ _ _ _ _ Hstore) as (Hmd & Hholds & _).
    split; [|by apply retrieve_held].
    destruct Hholds as (_ & Hsha & _). done. }
  split; [|intros key; apply Hany].
  destruct (store_document_returns user_id document_name document_content
              document_type None w) as (md & w' & Hstore); [done|].
  exists md, w'. split; [done|]. by apply Hany in Hstore.
Qed.

(** C2: two calls of [store_document] with the same bytes, for
    different owners, return the same content hash; after the second
    call the record under that hash is the one the second call
    returned, with the second owner; in a consistent store no other
    record carries that hash; and when a record was already there, the
    second call adds none. *)
Theorem same_bytes_second_owner_wins owner1 owner2 name1 name2
    (document_content : bytes) type1 type2 key1 key2 w1 md1 w1' w2 md2 w2' :
  owner1 ≠ owner2 →
  DocumentStorage.store_document owner1 name1 document_content type1 key1 w1
    = (Return md1, w1') →
  DocumentStorage.store_document owner2 name2 document_content type2 key2 w2
    = (Return md2, w2') →
  doc_hash md1 = doc_hash md2 ∧
  doc_user_id md1 = owner1 ∧
  metadata (storage w2') !! doc_hash md2 = Some md2 ∧
  doc_user_id md2 = owner2 ∧
  (store_inv (storage w2) →
     ∀ h md, metadata (storage w2') !! h = Some md →
             doc_hash md = doc_hash md2 → h = doc_hash md2 ∧ md = md2) ∧
  (is_Some (metadata (storage w2) !! doc_hash md1) →
     dom (metadata (storage w2')) = dom (metadata (storage w2))).
Proof.
  intros _ Hs1 Hs2.
  destruct (store_document_holds _ _ _ _ _ _ _ _ Hs2) as (Hmd2 & Hh2 & Hinv).
  apply store_document_inv in Hs1 as (k1 & i1 & _ & _ & _ & E1 & _).
  pose proof Hs2 as (k2 & i2 & _ & _ & _ & E2 & Hst & _)%store_document_inv.
  assert (H1 : doc_hash md1 = sha256_hexdigest document_content) by by rewrite E1.
  assert (H2 : doc_hash md2 = sha256_hexdigest document_content) by by rewrite E2.
  split; [congruence|]. split; [by rewrite E1|]. split; [done|].
  split; [by rewrite E2|]. split.
  - intros Hinv2 h md Hmd Hhash.
    destruct (Hinv Hinv2 h md Hmd) as (c & Hh & _).
    assert (h = doc_hash md2) as -> by congruence.
    split; [done|]. congruence.
  - intros Hsome. rewrite Hst. cbn [metadata]. rewrite dom_insert_L.
    rewrite H1 in Hsome. apply elem_of_dom in Hsome. set_solver.
Qed.
End store_claims.

(** ** The orchestrator *)

Section controller_facts.
Context `{Externals}.

Lemma mine_pending_frame fuel w ob w' :
  Blockchain.mine_pending_transactions fuel w = (Return ob, w') →
  storage w' = storage w ∧ auth w' = auth w.
Proof.
  intros Hmine. apply mine_pending_inv in Hmine; [|done].
  destruct Hmine as [(_ & -> & _)|[(_ & ->)|(tip & n & _ & _ & _ & -> & _)]];
    done.
Qed.

Lemma get_document_run session_token document_hash w :
  EVaultController.get_document session_token document_hash w
  = match session_user (auth w) session_token with
    | None => (Raise (ValueError "Invalid session"), w)
    | Some user_data =>
        match (DocumentStorage.retrieve_document document_hash w).1 with
        | Return (document_content, document_metadata) =>
            if String.eqb (doc_user_id document_metadata) (user_id user_data)
            then (Return (document_content, document_metadata), w)
            else (Raise (ValueError "Access denied"), w)
        | Raise e => (Raise e, w)
        | Beyond l => (Beyond l, w)
        end
    end.
Proof.
  unfold EVaultController.get_document.
  rewrite run_bind, get_user_by_session_run.
  destruct (session_user _ _) as [u|]; [|done].
  rewrite run_bind, retrieve_document_run.
  destruct (DocumentStorage.retrieve_document document_hash w).1
    as [[c md]|e|l]; [|done..].
  cbn [fst]. by destruct (String.eqb _ _).
Qed.

(** What a successful [upload_document] has done to the object store. *)
Lemma upload_document_inv fuel session_token document_name document_content
    document_type w md w' :
  EVaultController.upload_document fuel session_token document_name
    document_content document_type w = (Return md, w') →
  ∃ user_data w1,
    session_user (auth w) session_token = Some user_data ∧
    DocumentStorage.store_document (user_id user_data) document_name
      document_content document_type None w = (Return md, w1) ∧
    storage w' = storage w1 ∧ auth w' = auth w.
Proof.
  unfold EVaultController.upload_document.
  rewrite run_bind, get_user_by_session_run.
  destruct (session_user _ _) as [u|]; [|done].
  rewrite run_bind.
  destruct (DocumentStorage.store_document _ _ _ _ _ w) as [[md1|e|l] w1]
    eqn:Hstore; [|done..].
  apply store_document_inv in Hstore as Hst.
  destruct Hst as (_ & _ & _ & _ & _ & _ & _ & _ & _ & Hauth & _).
  rewrite run_bind. cbn [time_time]. rewrite run_bind. cbn [new_dict].
  rewrite run_bind, add_transaction_run.
  destruct (last _); [|done].
  rewrite run_bind.
  destruct (Blockchain.mine_pending_transactions _ _) as [[ob|e|l] w2]
    eqn:Hmine; [|done..].
  apply mine_pending_frame in Hmine as [Hs2 Ha2].
  cbn beta iota. rewrite run_bind. unfold BlockchainPersistence.save_blockchain.
  rewrite run_bind. unfold Blockchain.to_dict. rewrite !run_bind.
  cbn [gets modify mret M_ret].
  intros [= <- <-]. exists u, w1. split; [done|]. split; [done|].
  cbn. rewrite Hs2, Ha2. cbn. by rewrite Hauth.
Qed.

(** What a successful [transfer_document] has done to the object
    store. *)
Lemma transfer_document_inv fuel session_token document_hash
    recipient_username w new_md w' :
  EVaultController.transfer_document fuel session_token document_hash
    recipient_username w = (Return new_md, w') →
  ∃ sender old_md content recipient key w1 w2,
    session_user (auth w) session_token = Some sender ∧
    DocumentStorage.retrieve_document document_hash w
      = (Return (content, old_md), w) ∧
    doc_user_id old_md = user_id sender ∧
    users (auth w) !! recipient_username = Some recipient ∧
    b64decode (doc_encryption_key old_md) = Some key ∧
    storage w1 = storage w ∧
    DocumentStorage.store_document (user_id recipient) (doc_name old_md)
      content (doc_type old_md) (Some key) w1 = (Return new_md, w2) ∧
    storage w' = storage w2 ∧ auth w' = auth w.
Proof.
  unfold EVaultController.transfer_document.
  rewrite run_bind, get_user_by_session_run.
  destruct (session_user _ _) as [sender|] eqn:Hsender; [|done].
  rewrite run_bind, retrieve_document_run.
  destruct (DocumentStorage.retrieve_document document_hash w).1
    as [[c old_md]|e|l] eqn:Hr; [|done..].
  destruct (String.eqb _ _) eqn:Hown; [|done]. cbn [negb].
  apply String.eqb_eq in Hown.
  rewrite run_bind. cbn [gets].
  destruct (users (auth w) !! recipient_username) as [recipient|] eqn:Hrec;
    [|done].
  rewrite run_bind. cbn [time_time]. rewrite run_bind. cbn [new_dict].
  cbn beta iota.
  set (w1 := with_heap _ (with_env _ w)).
  rewrite run_bind, (retrieve_document_run document_hash w1).
  rewrite (retrieve_document_ext document_hash w1 w) by done.
  rewrite Hr. rewrite run_bind. unfold DocumentStorage.b64decode_field at 1.
  destruct (b64decode (doc_encryption_key old_md)) as [key|] eqn:Hkey; [|done].
  cbn [mret M_ret]. rewrite run_bind.
  destruct (DocumentStorage.store_document _ _ _ _ _ w1) as [[md1|e|l] w2]
    eqn:Hstore; [|done..].
  apply store_document_inv in Hstore as Hst.
  destruct Hst as (_ & _ & _ & _ & _ & _ & _ & _ & _ & Hauth & _).
  rewrite run_bind, add_transaction_run.
  destruct (last _); [|done].
  rewrite run_bind.
  destruct (Blockchain.mine_pending_transactions _ _) as [[ob|e|l] w3]
    eqn:Hmine; [|done..].
  apply mine_pending_frame in Hmine as [Hs3 Ha3].
  cbn beta iota. rewrite run_bind. unfold BlockchainPersistence.save_blockchain.
  rewrite run_bind. unfold Blockchain.to_dict. rewrite !run_bind.
  cbn [gets modify mret M_ret].
  intros [= <- <-]. exists sender, old_md, c, recipient, key, w1, w2.
  split; [done|]. split; [done|].
  split; [done|]. split; [done|]. split; [done|]. split; [done|].
  split; [done|]. cbn. rewrite Hs3, Ha3. cbn. by rewrite Hauth.
Qed.
End controller_facts.

Section transfer_claims.
Context `{Externals} `{!ExternalLaws}.

(** What a transfer does to a consistent object store, in full. *)
Lemma transfer_document_effect fuel session_token document_hash
    recipient_username w new_md w' :
  store_inv (storage w) →
  EVaultController.transfer_document fuel session_token document_hash
    recipient_username w = (Return new_md, w') →
  ∃ sender old_md recipient content key iv,
    session_user (auth w) session_token = Some sender ∧
    users (auth w) !! recipient_username = Some recipient ∧
    metadata (storage w) !! document_hash = Some old_md ∧
    holds (storage w) document_hash old_md content ∧
    doc_user_id old_md = user_id sender ∧
    doc_encryption_key old_md = b64encode key ∧
    new_md = {| doc_user_id := user_id recipient;
                doc_name := doc_name old_md;
                doc_type := doc_type old_md;
                doc_hash := document_hash;
                doc_size := doc_size old_md;
                doc_created_at := doc_created_at new_md;
                doc_iv := b64encode iv;
                doc_encryption_key := doc_encryption_key old_md |} ∧
    storage w' =
      mkStorage (<[document_hash := new_md]> (metadata (storage w)))
        (<[document_hash := aes_cbc_encrypt key iv (pad content 16)]>
           (files (storage w))) ∧
    holds (storage w') document_hash new_md content ∧
    store_inv (storage w') ∧ auth w' = auth w.
Proof.
  intros Hinv Htransfer.
  apply transfer_document_inv in Htransfer
    as (sender & old_md & content & recipient & key & w1 & w2 & Hsender & Hr
        & Hown & Hrec & Hkey & Hs1 & Hstore & Hs' & Hauth).
  pose proof Hr as (_ & Hold & _)%retrieve_document_inv.
  destruct (Hinv _ _ Hold) as (c' & Hholds).
  pose proof (retrieve_held w _ _ _ Hold Hholds) as Hr'.
  assert (c' = content) as -> by congruence.
  pose proof Hholds as (Hh & Hsha & Hsize & k0 & iv0 & Hk0 & _ & Hkey0 & _).
  assert (key = k0) as ->.
  { rewrite Hkey0, b64decode_b64encode in Hkey. congruence. }
  pose proof Hstore as (_ & Hholds2 & Hinv2)%store_document_holds.
  apply store_document_inv in Hstore
    as (k & iv & _ & _ & Hk & Hmd & Hst & _).
  rewrite (Hk k0 eq_refl) in *. clear Hk.
  rewrite Hsha in Hmd, Hst. rewrite Hs1 in Hst, Hinv2.
  assert (Hhash : doc_hash new_md = document_hash) by by rewrite Hmd.
  exists sender, old_md, recipient, content, k0, iv.
  repeat (split; [done|]).
  split; [by rewrite Hmd, Hsize, Hkey0|].
  split; [by rewrite Hs'|].
  rewrite Hs'. rewrite Hhash in Hholds2. auto.
Qed.

(** C6: a transfer stores the same plaintext again under the same key
    and the same content hash; in the record under that hash the owner
    becomes the recipient, while name, type, size, hash and key are
    those of the old record; the records and ciphertexts under every
    other hash are untouched, and so is the user directory. *)
Theorem transfer_rewrites_owner_only fuel session_token document_hash
    recipient_username w new_md w' :
  store_inv (storage w) →
  EVaultController.transfer_document fuel session_token document_hash
    recipient_username w = (Return new_md, w') →
  ∃ old_md recipient content,
    metadata (storage w) !! document_hash = Some old_md ∧
    users (auth w) !! recipient_username = Some recipient ∧
    DocumentStorage.retrieve_document document_hash w
      = (Return (content, old_md), w) ∧
    DocumentStorage.retrieve_document document_hash w'
      = (Return (content, new_md), w') ∧
    doc_hash old_md = document_hash ∧ doc_hash new_md = document_hash ∧
    doc_encryption_key new_md = doc_encryption_key old_md ∧
    doc_user_id new_md = user_id recipient ∧
    doc_name new_md = doc_name old_md ∧
    doc_type new_md = doc_type old_md ∧
    doc_size new_md = doc_size old_md ∧
    metadata (storage w') = <[document_hash := new_md]> (metadata (storage w)) ∧
    (∀ h, h ≠ document_hash →
       metadata (storage w') !! h = metadata (storage w) !! h ∧
       files (storage w') !! h = files (storage w) !! h) ∧
    auth w' = auth w ∧ store_inv (storage w').
Proof.
  intros Hinv Htransfer.
  destruct (transfer_document_effect _ _ _ _ _ _ _ Hinv Htransfer)
    as (sender & old_md & recipient & content & key & iv & _ & Hrec & Hold
        & Hholds & _ & _ & Hmd & Hst & Hholds' & Hinv' & Hauth).
  exists old_md, recipient, content.
  split; [done|]. split; [done|].
  split; [by apply retrieve_held|].
  split.
  { apply retrieve_held; [|done]. rewrite Hst. cbn. by rewrite lookup_insert_eq. }
  split; [by destruct Hholds|].
  rewrite Hmd at 1 2 3 4 5 6. cbn.
  repeat (split; [done|]).
  split; [by rewrite Hst|].
  split; [|done].
  intros h Hne. rewrite Hst. cbn. by rewrite !lookup_insert_ne.
Qed.

(** C3, as amended: after a transfer that succeeded in a consistent
    store, to a recipient whose user id is not the sender's,
    [get_document] raises "Access denied" for the sender's session, and
    for every session of the recipient it returns the plaintext that the
    store held for the hash before the transfer, with the new record;
    when the world before the transfer is the one the sender's upload
    left, that plaintext is the uploaded bytes. *)
Theorem transfer_moves_retrieval_rights fuel session_token document_hash
    recipient_username w new_md w' sender recipient :
  store_inv (storage w) →
  EVaultController.transfer_document fuel session_token document_hash
    recipient_username w = (Return new_md, w') →
  session_user (auth w) session_token = Some sender →
  users (auth w) !! recipient_username = Some recipient →
  user_id recipient ≠ user_id sender →
  EVaultController.get_document session_token document_hash w'
    = (Raise (ValueError "Access denied"), w') ∧
  ∃ content old_md,
    DocumentStorage.retrieve_document document_hash w
      = (Return (content, old_md), w) ∧
    (∀ recipient_token session_data,
       sessions (auth w') !! recipient_token = Some session_data →
       session_username session_data = recipient_username →
       EVaultController.get_document recipient_token document_hash w'
         = (Return (content, new_md), w')) ∧
    (∀ fuel0 w0 document_name document_content document_type md,
       EVaultController.upload_document fuel0 session_token document_name
         document_content document_type w0 = (Return md, w) →
       doc_hash md = document_hash →
       content = document_content).
Proof.
  intros Hinv Htransfer Hsender Hrec Hne.
  destruct (transfer_document_effect _ _ _ _ _ _ _ Hinv Htransfer)
    as (sender' & old_md & recipient' & content & key & iv & Hsender' & Hrec'
        & Hold & Hholds & _ & _ & Hmd & Hst & Hholds' & _ & Hauth).
  assert (sender' = sender) as -> by congruence.
  assert (recipient' = recipient) as -> by congruence.
  assert (Hnew : metadata (storage w') !! document_hash = Some new_md).
  { rewrite Hst. cbn. by rewrite lookup_insert_eq. }
  pose proof (retrieve_held w' _ _ _ Hnew Hholds') as Hr'.
  assert (Howner : doc_user_id new_md = user_id recipient) by by rewrite Hmd.
  split; [|exists content, old_md; split; [by apply retrieve_held|split]].
  - rewrite get_document_run, Hauth, Hsender, Hr'. cbn [fst].
    rewrite Howner. by rewrite (proj2 (String.eqb_neq _ _) Hne).
  - intros tok sd Hsd Hname.
    rewrite get_document_run. unfold session_user. rewrite Hsd, Hname, Hauth, Hrec.
    rewrite Hr'. cbn [fst]. by rewrite Howner, String.eqb_refl.
  - intros fuel0 w0 name c type md Hupload Hhash.
    apply upload_document_inv in Hupload as (u & w1 & _ & Hstore & Hs & _).
    apply store_document_holds in Hstore as (Hmd1 & Hh1 & _).
    rewrite <- Hs, Hhash in Hmd1, Hh1.
    pose proof (retrieve_held w _ _ _ Hmd1 Hh1) as Hr1.
    pose proof (retrieve_held w _ _ _ Hold Hholds) as Hr2.
    congruence.
Qed.
End transfer_claims.

(** ** Loading the snapshot *)

Section loading.
Context `{Externals}.

Lemma init_fresh w :
  ∃ genesis w',
    Blockchain.init w = (Return (), w') ∧
    chain (blockchain w') = [genesis] ∧
    difficulty (blockchain w') = 2 ∧
    index genesis = 0 ∧
    timestamp genesis = clock (env w) (ticks (env w)) ∧
    previous_hash genesis = "0" ∧ nonce genesis = 0 ∧
    hash genesis = digest (heap w') genesis ∧
    txs_of (heap w') (transactions genesis) = [] ∧
    pending w' = [] ∧
    blockchain_file w' = blockchain_file w.
Proof.
  set (r1 := fresh (dom (lists (heap w)))).
  set (l1 := <[r1 := []]> (lists (heap w))).
  set (r2 := fresh (dom l1)).
  assert (Hne : r1 ≠ r2).
  { intros Heq. apply (is_fresh (dom l1)). fold r2. rewrite <- Heq.
    unfold l1. rewrite dom_insert. set_solver. }
  set (h1 := mkHeap l1 (dicts (heap w))).
  set (h2 := mkHeap (<[r2 := []]> l1) (dicts (heap w))).
  set (g := with_nonce h1
              (mkBlock 0 (clock (env w) (ticks (env w))) r1 "0" 0 EmptyString) 0).
  assert (Hg : txs_of h2 r1 = []).
  { unfold txs_of, h2. cbn. rewrite lookup_total_insert_ne by done.
    unfold l1. by rewrite lookup_total_insert_eq. }
  assert (Hg1 : txs_of h1 r1 = []).
  { unfold txs_of, h1, l1. cbn. by rewrite lookup_total_insert_eq. }
  exists g, (mkWorld h2 (mkBlockchain [g] 2 r2) (storage w) (auth w)
               (blockchain_file w)
               (mkEnv (clock (env w)) (S (ticks (env w))) (entropy (env w))
                  (drawn (env w)))).
  split; [reflexivity|]. cbn [blockchain chain difficulty heap blockchain_file].
  repeat (split; [reflexivity|]).
  split; [|split; [done|split; [|done]]].
  - change (hash g) with (digest h1 g). symmetry. apply digest_ext.
    change (transactions g) with r1. by rewrite Hg, Hg1.
  - unfold pending, txs_of. cbn. by rewrite lookup_total_insert_eq.
Qed.

Lemma block_from_dict_missing bd key w :
  first_missing required_keys bd = Some key →
  Blockchain.block_from_dict (PDict bd) w = (Raise (KeyError key), w).
Proof.
  unfold required_keys, first_missing, Blockchain.block_from_dict.
  rewrite run_bind. cbn [getitem].
  destruct (bd !! "index"); [|by intros [= <-]]. cbn [mret M_ret].
  rewrite run_bind. cbn [getitem].
  destruct (bd !! "timestamp"); [|by intros [= <-]]. cbn [mret M_ret].
  rewrite run_bind. cbn [getitem].
  destruct (bd !! "transactions"); [|by intros [= <-]]. cbn [mret M_ret].
  rewrite run_bind. cbn [getitem].
  destruct (bd !! "previous_hash"); [done|by intros [= <-]].
Qed.

Lemma from_dict_loop_app pre items :
  ∀ w,
    Blockchain.from_dict_loop (pre ++ items) w
    = match Blockchain.from_dict_loop pre w with
      | (Return _, w') => Blockchain.from_dict_loop items w'
      | (Raise e, w') => (Raise e, w')
      | (Beyond l, w') => (Beyond l, w')
      end.
Proof.
  induction pre as [|block_data pre IH]; intros w; [done|].
  cbn [app Blockchain.from_dict_loop]. rewrite !run_bind.
  destruct (Blockchain.block_from_dict block_data w) as [[b|e|l] w1]; [|done..].
  rewrite !run_bind. cbn [modify]. apply IH.
Qed.

(** C8, as amended: when the snapshot file is absent and when its text is
    not valid JSON, [load_blockchain] returns the fresh ledger of
    [Blockchain()]: one genesis block with index 0, no transactions and
    previous hash ["0"], difficulty 2 and an empty pending buffer. It
    does not always return: a file that is not text makes it raise
    [UnicodeDecodeError]; and when the file is valid JSON,
    [load_blockchain] is [from_dict] on a fresh ledger, and whatever
    [from_dict] raises escapes: [AttributeError] for a JSON value that is
    not an object, and [KeyError] for a block object that lacks one of
    the four keys read to build the block, naming the first that is
    missing, at whatever position of the chain the object stands once
    the ones before it are loaded. *)
Theorem load_blockchain_outcomes w :
  (blockchain_file w = NoFile ∨ blockchain_file w = Unparsable →
     ∃ genesis w',
       BlockchainPersistence.load_blockchain w = (Return (blockchain w'), w') ∧
       Blockchain.init w = (Return (), w') ∧
       chain (blockchain w') = [genesis] ∧
       difficulty (blockchain w') = 2 ∧
       index genesis = 0 ∧ previous_hash genesis = "0" ∧
       hash genesis = digest (heap w') genesis ∧
       txs_of (heap w') (transactions genesis) = [] ∧
       pending w' = []) ∧
  (blockchain_file w = Undecodable →
     ∃ w', BlockchainPersistence.load_blockchain w
           = (Raise UnicodeDecodeError, w')) ∧
  (∀ v w1,
     blockchain_file w = JsonText v →
     Blockchain.init w = (Return (), w1) →
     BlockchainPersistence.load_blockchain w
     = match Blockchain.from_dict v w1 with
       | (Return _, w2) => (Return (blockchain w2), w2)
       | (Raise e, w2) => (Raise e, w2)
       | (Beyond l, w2) => (Beyond l, w2)
       end) ∧
  (∀ v, blockchain_file w = JsonText v → (∀ d, v ≠ PDict d) →
     ∃ w', BlockchainPersistence.load_blockchain w = (Raise AttributeError, w')) ∧
  (∀ d k ds bd rest key,
     blockchain_file w = JsonText (PDict d) →
     default (PInt 2) (d !! "difficulty") = PInt k →
     default (PList []) (d !! "pending_transactions") = PList (PDict <$> ds) →
     default (PList []) (d !! "chain") = PList (PDict bd :: rest) →
     first_missing required_keys bd = Some key →
     ∃ w', BlockchainPersistence.load_blockchain w
           = (Raise (KeyError key), w')) ∧
  (∀ pre bd rest key w1 w2,
     first_missing required_keys bd = Some key →
     Blockchain.from_dict_loop pre w1 = (Return (), w2) →
     Blockchain.from_dict_loop (pre ++ PDict bd :: rest) w1
     = (Raise (KeyError key), w2)).
Proof.
  destruct (init_fresh w)
    as (genesis & w1 & Hinit & Hc & Hd & Hi & _ & Hp & _ & Hh & Ht & Hpe & Hf).
  assert (Hload : ∀ v, blockchain_file w = JsonText v →
    BlockchainPersistence.load_blockchain w
    = match Blockchain.from_dict v w1 with
      | (Return _, w2) => (Return (blockchain w2), w2)
      | (Raise e, w2) => (Raise e, w2)
      | (Beyond l, w2) => (Beyond l, w2)
      end).
  { intros v Hv. unfold BlockchainPersistence.load_blockchain.
    rewrite run_bind, Hinit. rewrite run_bind. cbn [gets]. rewrite Hf, Hv.
    rewrite run_bind. by destruct (Blockchain.from_dict v w1) as [[[]|e|l] w2]. }
  split; [|split; [|split; [|split; [|split]]]].
  - intros Hfile. exists genesis, w1.
    split; [|done]. unfold BlockchainPersistence.load_blockchain.
    rewrite run_bind, Hinit. rewrite run_bind. cbn [gets]. rewrite Hf.
    by destruct Hfile as [-> | ->].
  - intros Hfile. exists w1. unfold BlockchainPersistence.load_blockchain.
    rewrite run_bind, Hinit. rewrite run_bind. cbn [gets].
    by rewrite Hf, Hfile.
  - intros v w1' Hv Hinit'. rewrite Hinit in Hinit'. injection Hinit' as <-.
    by apply Hload.
  - intros v Hv Hnd. rewrite (Hload v Hv).
    exists w1. destruct v; try done. by destruct (Hnd d).
  - intros d k ds bd rest key Hv Hdiff Hpend Hchain Hmiss.
    rewrite (Hload _ Hv). cbn [Blockchain.from_dict].
    rewrite run_bind, Hdiff. cbn [as_int mret M_ret].
    rewrite run_bind. cbn [modify]. rewrite run_bind, Hpend.
    destruct (load_transactions_run ds
                (with_blockchain (set_difficulty k) w1))
      as (rp & w2 & -> & _).
    rewrite run_bind. cbn [modify]. rewrite run_bind. cbn [modify].
    rewrite run_bind, Hchain. cbn [py_iter mret M_ret].
    cbn [Blockchain.from_dict_loop].
    rewrite run_bind, (block_from_dict_missing _ _ _ Hmiss). by eexists.
  - intros pre bd rest key w0 w2 Hmiss Hpre.
    rewrite from_dict_loop_app, Hpre. cbn [Blockchain.from_dict_loop].
    by rewrite run_bind, (block_from_dict_missing _ _ _ Hmiss).
Qed.
End loading.

(** ** The properties on the small instance *)

Lemma flip_flip b : Demo.flip (Demo.flip b) = b.
Proof. by destruct b. Qed.

#[export] Instance demo_laws : @ExternalLaws Demo.externals.
Proof.
  split.
  - intros key iv data.
    change (length (Demo.scramble key iv data) = length data).
    unfold Demo.scramble. by rewrite length_fmap, length_reverse.
  - intros key iv data _ _ _.
    change (Demo.unscramble key iv (Demo.scramble key iv data) = data).
    unfold Demo.unscramble, Demo.scramble.
    rewrite <- list_fmap_compose.
    rewrite (list_fmap_ext _ id (reverse data)).
    + by rewrite list_fmap_id, reverse_involutive.
    + intros i b _. apply flip_flip.
  - intros b.
    change (Some (list_byte_of_string (string_of_list_byte b)) = Some b).
    by rewrite list_byte_of_string_of_list_byte.
Qed.

(** Closes a goal between closed terms by evaluating them. *)
Ltac evaluate :=
  vm_compute;
  first [ reflexivity
        | (let E := fresh in intros E; discriminate E)
        | (eexists; reflexivity)
        | exact I ].

Section demo_checks.
#[local] Existing Instance Demo.externals.

Lemma run_pair {A} (m : M A) w :
  m w = (Demo.outcome_of m w, Demo.world_after m w).
Proof. unfold Demo.outcome_of, Demo.world_after. by destruct (m w). Qed.

Lemma ledger_pending_reachable : reachable Demo.ledger_pending.
Proof.
  eapply (reach_add_transaction Demo.ledger_note 1%positive).
  - eapply (reach_new_dict Demo.ledger_new Demo.note 1%positive).
    + eapply (reach_init Demo.world0). reflexivity.
    + reflexivity.
  - apply elem_of_dom. eexists. reflexivity.
  - apply run_pair.
Qed.

Lemma ledger_sealed_reachable : reachable Demo.ledger_sealed.
Proof.
  eapply (reach_mine_pending_transactions Demo.ledger_pending 5000);
    [apply ledger_pending_reachable| |apply run_pair].
  evaluate.
Qed.
End demo_checks.

Section demo_witnesses.
#[local] Existing Instance Demo.externals.

Lemma seal_pending_block_witness :
  Blockchain.mine_pending_transactions 5000 Demo.ledger_new
    = (Return None, Demo.ledger_new) ∧
  ∃ b w',
    Blockchain.mine_pending_transactions 5000 Demo.ledger_pending
      = (Return (Some b), w') ∧
    chain (blockchain w') = chain (blockchain Demo.ledger_pending) ++ [b] ∧
    2 ≤ Z.of_nat (leading_zeros (hash b)) ∧
    previous_hash b = hash (Demo.genesis_block Demo.ledger_pending) ∧
    index b = 1 ∧
    pending w' = [].
Proof.
  split.
  - destruct (seal_pending_block Demo.ledger_new 5000) as (Hempty & _).
    apply Hempty. evaluate.
  - destruct (seal_pending_block Demo.ledger_pending 5000) as (_ & Hseal & _).
    destruct (Hseal (Demo.genesis_block Demo.ledger_pending) 32%nat)
      as (b & w' & H1 & H2 & H3 & H4 & H5 & _ & _ & _ & H6 & _).
    + evaluate.
    + evaluate.
    + lia.
    + evaluate.
    + exists b, w'. repeat (split; [assumption|]). exact H6.
Defined.

Lemma tampering_after_genesis_detected_witness :
  Blockchain.is_chain_valid Demo.ledger_sealed = (Return true, Demo.ledger_sealed) ∧
  invalid_from 1
    (replace_block 1 (set_nonce 7 (Demo.second_block Demo.ledger_sealed))
       Demo.ledger_sealed) ∧
  invalid_from 1
    (replace_block 1 (set_index 5 (Demo.second_block Demo.ledger_sealed))
       Demo.ledger_sealed) ∧
  invalid_from 1
    (replace_block 0 (set_hash "beef" (Demo.genesis_block Demo.ledger_sealed))
       Demo.ledger_sealed).
Proof.
  destruct tampering_after_genesis_detected
    as (Hreach & Htamper & _ & Hgenesis & _).
  pose proof (Hreach _ ledger_sealed_reachable) as Hvalid.
  split; [exact Hvalid|]. split; [|split].
  - apply (Htamper Demo.ledger_sealed 1%nat (Demo.second_block Demo.ledger_sealed)).
    + exact Hvalid.
    + lia.
    + evaluate.
    + apply tamper_nonce. evaluate.
    + right. intros _. evaluate.
  - apply (Htamper Demo.ledger_sealed 1%nat (Demo.second_block Demo.ledger_sealed)).
    + exact Hvalid.
    + lia.
    + evaluate.
    + apply tamper_index. evaluate.
    + right. intros _. evaluate.
  - destruct (Hgenesis Demo.ledger_sealed (Demo.genesis_block Demo.ledger_sealed)
                "beef" Hvalid) as [Hsecond _]; [evaluate|evaluate|].
    apply Hsecond. vm_compute. lia.
Defined.

Lemma dangling_session_resolves_to_none_witness :
  UserAuth.get_user_by_session "t0" Demo.dangling = (Return None, Demo.dangling) ∧
  UserAuth.get_user_by_session "t1" Demo.dangling = (Return None, Demo.dangling).
Proof.
  split.
  - destruct (dangling_session_resolves_to_none Demo.dangling "t0") as [_ Hd].
    apply (Hd (mkSession "u0" "ghost")); evaluate.
  - destruct (dangling_session_resolves_to_none Demo.dangling "t1") as [Hn _].
    apply Hn. evaluate.
Defined.

End demo_witnesses.

Section demo_store_witnesses.
#[local] Existing Instance Demo.externals.

(** A computation whose outcome evaluates to a value returns it. *)
Lemma returns_pair {A} (m : M A) w :
  (match Demo.outcome_of m w with Return _ => true | _ => false end) = true →
  ∃ a, Demo.outcome_of m w = Return a ∧ m w = (Return a, Demo.world_after m w).
Proof.
  intros Hret. destruct (Demo.outcome_of m w) as [a| |] eqn:Ho; [|done..].
  exists a. split; [done|]. by rewrite (run_pair m w), Ho.
Qed.

Lemma store_then_retrieve_witness :
  (∃ md w',
     DocumentStorage.store_document "u1" "greet.txt" Demo.hello "text/plain"
       None Demo.world0 = (Return md, w') ∧
     DocumentStorage.retrieve_document (doc_hash md) w'
       = (Return (Demo.hello, md), w')) ∧
  (∃ md w',
     DocumentStorage.store_document "u1" "empty" [] "text/plain"
       None Demo.world0 = (Return md, w') ∧
     DocumentStorage.retrieve_document (doc_hash md) w' = (Return ([], md), w')).
Proof.
  split.
  - destruct (@store_then_retrieve Demo.externals demo_laws "u1" "greet.txt"
                Demo.hello "text/plain" Demo.world0)
      as [(md & w' & Hstore & _ & Hget) _].
    exists md, w'. exact (conj Hstore Hget).
  - destruct (@store_then_retrieve Demo.externals demo_laws "u1" "empty"
                [] "text/plain" Demo.world0)
      as [(md & w' & Hstore & _ & Hget) _].
    exists md, w'. exact (conj Hstore Hget).
Defined.

Lemma same_bytes_second_owner_wins_witness :
  ∃ md1 w1 md2 w2,
    DocumentStorage.store_document "id-of-alice" "a.txt" Demo.hello "text/plain"
      None Demo.world0 = (Return md1, w1) ∧
    DocumentStorage.store_document "id-of-bob" "b.txt" Demo.hello "text/plain"
      None w1 = (Return md2, w2) ∧
    doc_hash md1 = doc_hash md2 ∧
    metadata (storage w2) !! doc_hash md2 = Some md2 ∧
    doc_user_id md2 = "id-of-bob" ∧
    (∀ h md, metadata (storage w2) !! h = Some md →
             doc_hash md = doc_hash md2 → h = doc_hash md2 ∧ md = md2) ∧
    dom (metadata (storage w2)) = dom (metadata (storage w1)).
Proof.
  destruct (store_document_returns "id-of-alice" "a.txt" Demo.hello "text/plain"
              None Demo.world0) as (md1 & w1 & Hs1); [discriminate|].
  destruct (store_document_returns "id-of-bob" "b.txt" Demo.hello "text/plain"
              None w1) as (md2 & w2 & Hs2); [discriminate|].
  destruct (store_document_holds _ _ _ _ _ _ _ _ Hs1) as (Hmd1 & _ & Hinv1).
  assert (Hne : "id-of-alice" ≠ "id-of-bob") by (intros E; discriminate E).
  destruct (same_bytes_second_owner_wins _ _ _ _ _ _ _ _ _ _ _ _ _ _ _
              Hne Hs1 Hs2) as (Hh & _ & Hmd2 & Ho2 & Huniq & Hdom).
  exists md1, w1, md2, w2.
  repeat (split; [assumption|]). split.
  - apply Huniq, Hinv1. exact store_inv_empty.
  - apply Hdom. rewrite Hmd1. eauto.
Defined.

Lemma demo_upload_returns :
  ∃ md,
    EVaultController.upload_document 5000 Demo.alice_token "greet.txt" Demo.hello
      "text/plain" Demo.logged_in = (Return md, Demo.uploaded).
Proof.
  unfold Demo.uploaded.
  destruct (returns_pair
              (EVaultController.upload_document 5000 Demo.alice_token "greet.txt"
                 Demo.hello "text/plain") Demo.logged_in) as (md & _ & Hrun);
    [evaluate|].
  exists md. exact Hrun.
Qed.

Lemma demo_uploaded_inv : store_inv (storage Demo.uploaded).
Proof.
  destruct demo_upload_returns as (md & Hup).
  apply upload_document_inv in Hup as (u & w1 & _ & Hstore & -> & _).
  apply store_document_holds in Hstore as (_ & _ & Hinv). apply Hinv.
  assert (storage Demo.logged_in = mkStorage ∅ ∅) as -> by evaluate.
  exact store_inv_empty.
Qed.

Lemma demo_transfer_returns :
  ∃ md,
    EVaultController.transfer_document 5000 Demo.alice_token Demo.hello_hash
      "bob" Demo.uploaded = (Return md, Demo.transferred).
Proof.
  unfold Demo.transferred.
  destruct (returns_pair
              (EVaultController.transfer_document 5000 Demo.alice_token
                 Demo.hello_hash "bob") Demo.uploaded) as (md & _ & Hrun);
    [evaluate|].
  exists md. exact Hrun.
Qed.

Lemma transfer_rewrites_owner_only_witness :
  ∃ old_md new_md recipient,
    EVaultController.transfer_document 5000 Demo.alice_token Demo.hello_hash
      "bob" Demo.uploaded = (Return new_md, Demo.transferred) ∧
    metadata (storage Demo.uploaded) !! Demo.hello_hash = Some old_md ∧
    users (auth Demo.uploaded) !! "bob" = Some recipient ∧
    doc_hash new_md = doc_hash old_md ∧
    doc_encryption_key new_md = doc_encryption_key old_md ∧
    doc_user_id new_md = user_id recipient ∧
    doc_name new_md = doc_name old_md ∧
    doc_size new_md = doc_size old_md ∧
    metadata (storage Demo.transferred)
      = <[Demo.hello_hash := new_md]> (metadata (storage Demo.uploaded)).
Proof.
  destruct demo_transfer_returns as (new_md & Htransfer).
  destruct (@transfer_rewrites_owner_only Demo.externals demo_laws _ _ _ _ _ _ _
              demo_uploaded_inv Htransfer)
    as (old_md & recipient & content & Hold & Hrec & _ & _ & Hh1 & Hh2 & Hk
        & Hu & Hn & _ & Hs & Hm & _).
  exists old_md, new_md, recipient.
  split; [exact Htransfer|]. split; [exact Hold|]. split; [exact Hrec|].
  split; [rewrite Hh1, Hh2; reflexivity|].
  split; [exact Hk|]. split; [exact Hu|]. split; [exact Hn|].
  split; [exact Hs|exact Hm].
Defined.

Lemma transfer_moves_retrieval_rights_witness :
  ∃ new_md,
    EVaultController.transfer_document 5000 Demo.alice_token Demo.hello_hash
      "bob" Demo.uploaded = (Return new_md, Demo.transferred) ∧
    EVaultController.get_document Demo.alice_token Demo.hello_hash Demo.transferred
      = (Raise (ValueError "Access denied"), Demo.transferred) ∧
    EVaultController.get_document Demo.bob_token Demo.hello_hash Demo.transferred
      = (Return (Demo.hello, new_md), Demo.transferred).
Proof.
  destruct demo_transfer_returns as (new_md & Htransfer).
  destruct demo_upload_returns as (md & Hupload).
  assert (Hsender : ∃ sender,
            session_user (auth Demo.uploaded) Demo.alice_token = Some sender ∧
            user_id sender = "737a81888f969da4abb2b9c0c7ced5dc").
  { eexists. split; evaluate. }
  destruct Hsender as (sender & Hsender & Hsid).
  assert (Hrec : ∃ recipient,
            users (auth Demo.uploaded) !! "bob" = Some recipient ∧
            user_id recipient = "535a61686f767d848b9299a0a7aeb5bc").
  { eexists. split; evaluate. }
  destruct Hrec as (recipient & Hrec & Hrid).
  assert (Hne : user_id recipient ≠ user_id sender).
  { rewrite Hsid, Hrid. discriminate. }
  destruct (@transfer_moves_retrieval_rights Demo.externals demo_laws _ _ _ _ _ _ _
              sender recipient demo_uploaded_inv Htransfer Hsender Hrec Hne)
    as (Hdenied & content & old_md & _ & Hgranted & Hsame).
  exists new_md. split; [exact Htransfer|]. split; [exact Hdenied|].
  assert (Hc : content = Demo.hello).
  { eapply Hsame; [exact Hupload|].
    apply upload_document_inv in Hupload as (u & w1 & _ & Hstore & _).
    apply store_document_inv in Hstore as (k & iv & _ & _ & _ & -> & _).
    reflexivity. }
  rewrite <- Hc.
  apply (Hgranted Demo.bob_token
           (mkSession "535a61686f767d848b9299a0a7aeb5bc" "bob")); evaluate.
Defined.

Lemma load_blockchain_outcomes_witness :
  (∃ genesis w',
     BlockchainPersistence.load_blockchain Demo.world0
       = (Return (blockchain w'), w') ∧
     chain (blockchain w') = [genesis] ∧ index genesis = 0 ∧
     pending w' = []) ∧
  (∃ w', BlockchainPersistence.load_blockchain Demo.with_binary_file
         = (Raise UnicodeDecodeError, w')) ∧
  (∃ w', BlockchainPersistence.load_blockchain Demo.with_json_list
         = (Raise AttributeError, w')) ∧
  (∃ w', BlockchainPersistence.load_blockchain
           Demo.with_json_block_without_index
         = (Raise (KeyError "index"), w')).
Proof.
  split; [|split; [|split]].
  - destruct (load_blockchain_outcomes Demo.world0) as (Habsent & _).
    destruct Habsent as (genesis & w' & Hload & _ & Hc & _ & Hi & _ & _ & _ & Hp).
    { left. reflexivity. }
    exists genesis, w'. exact (conj Hload (conj Hc (conj Hi Hp))).
  - destruct (load_blockchain_outcomes Demo.with_binary_file)
      as (_ & Hbinary & _).
    apply Hbinary. reflexivity.
  - destruct (load_blockchain_outcomes Demo.with_json_list)
      as (_ & _ & _ & Hforeign & _).
    apply (Hforeign (PList [])); [reflexivity|]. intros d E. discriminate E.
  - destruct (load_blockchain_outcomes Demo.with_json_block_without_index)
      as (_ & _ & _ & _ & Hkey & _).
    apply (Hkey {["chain" := PList [PDict ∅]]} 2 [] ∅ []); reflexivity.
Defined.
End demo_store_witnesses.

Section demo_built_witnesses.
#[local] Existing Instance Demo.externals.

Lemma demo_restarted_built : built Demo.restarted.
Proof.
  unfold Demo.restarted.
  destruct (returns_pair BlockchainPersistence.load_blockchain Demo.transferred)
    as (bc & _ & Hrun); [evaluate|].
  exact (built_load _ _ _ Hrun).
Qed.

Lemma sealed_blocks_preserved_witness :
  chain_preserved Demo.ledger_pending Demo.ledger_sealed ∧
  sealed Demo.ledger_pending = sealed Demo.ledger_note ∧
  sealed (Demo.world_after (Blockchain.add_transaction 1%positive) Demo.restarted)
    = sealed Demo.restarted ∧
  chain_preserved
    (Demo.world_after (Blockchain.add_transaction 1%positive) Demo.restarted)
    (Demo.world_after (Blockchain.mine_pending_transactions 5000)
       (Demo.world_after (Blockchain.add_transaction 1%positive) Demo.restarted)).
Proof.
  destruct sealed_blocks_preserved as (Hwf & Hkept).
  assert (Hnote : built Demo.ledger_note).
  { eapply (built_new_dict Demo.ledger_new Demo.note 1%positive);
      [eapply (built_init Demo.world0); reflexivity|reflexivity]. }
  assert (Hpending : built Demo.ledger_pending).
  { eapply (built_add_transaction Demo.ledger_note 1%positive);
      [exact Hnote| |apply run_pair].
    apply elem_of_dom. eexists. reflexivity. }
  assert (Hadded : built (Demo.world_after (Blockchain.add_transaction 1%positive)
                            Demo.restarted)).
  { eapply (built_add_transaction Demo.restarted 1%positive);
      [exact demo_restarted_built| |apply run_pair].
    apply elem_of_dom. evaluate. }
  split; [|split; [|split]].
  - destruct (Hkept Demo.ledger_pending (Hwf _ Hpending)) as (_ & Hmine & _).
    apply (Hmine 5000%nat (Demo.outcome_of (Blockchain.mine_pending_transactions 5000)
                         Demo.ledger_pending)).
    + apply run_pair.
    + evaluate.
  - destruct (Hkept Demo.ledger_note (Hwf _ Hnote)) as (Hadd & _).
    eapply Hadd. apply (run_pair (Blockchain.add_transaction 1%positive)).
  - destruct (Hkept Demo.restarted (Hwf _ demo_restarted_built)) as (Hadd & _).
    eapply Hadd. apply (run_pair (Blockchain.add_transaction 1%positive)).
  - destruct (Hkept _ (Hwf _ Hadded)) as (_ & Hmine & _).
    apply (Hmine 5000%nat
             (Demo.outcome_of (Blockchain.mine_pending_transactions 5000)
                (Demo.world_after (Blockchain.add_transaction 1%positive)
                   Demo.restarted))).
    + apply run_pair.
    + evaluate.
Defined.

End demo_built_witnesses.

(** ** Where the specification does not hold *)

Section demo_counterexamples.
#[local] Existing Instance Demo.externals.

Lemma get_document_pair session_token document_hash w :
  EVaultController.get_document session_token document_hash w
  = (Demo.outcome_of (EVaultController.get_document session_token document_hash) w, w).
Proof.
  unfold Demo.outcome_of. rewrite get_document_run.
  destruct (session_user _ _); [|done].
  destruct (DocumentStorage.retrieve_document _ _).1 as [[c md]|e|l]; [|done..].
  by destruct (String.eqb _ _).
Qed.

(** C1 as stated fails at genesis: in the ledger with one sealed block,
    overwriting the timestamp of the genesis block leaves a stored hash
    that is no longer the digest of the block, and [is_chain_valid]
    still returns true. *)
Lemma genesis_tampering_undetected :
  let g := Demo.genesis_block Demo.ledger_sealed in
  let g' := set_timestamp 0 g in
  let w' := replace_block 0 g' Demo.ledger_sealed in
  reachable Demo.ledger_sealed ∧
  chain (blockchain Demo.ledger_sealed) !! 0%nat = Some g ∧
  timestamp g' ≠ timestamp g ∧
  digest (heap w') g' ≠ hash g' ∧
  Blockchain.is_chain_valid w' = (Return true, w').
Proof.
  cbv zeta. split; [exact ledger_sealed_reachable|].
  split; [evaluate|]. split; [evaluate|]. split; [evaluate|].
  rewrite is_chain_valid_run. evaluate.
Qed.

(** C3 as stated fails when the recipient is the sender: alice uploads
    "hello", transfers it to "alice", an existing user, the transfer
    succeeds, and her session still gets the document. *)
Lemma self_transfer_keeps_access :
  ∃ uploaded_md new_md,
    EVaultController.upload_document 5000 Demo.alice_token "greet.txt"
      Demo.hello "text/plain" Demo.logged_in
      = (Return uploaded_md, Demo.uploaded) ∧
    doc_hash uploaded_md = Demo.hello_hash ∧
    is_Some (users (auth Demo.uploaded) !! "alice") ∧
    EVaultController.transfer_document 5000 Demo.alice_token Demo.hello_hash
      "alice" Demo.uploaded = (Return new_md, Demo.transferred_to_self) ∧
    EVaultController.get_document Demo.alice_token Demo.hello_hash
      Demo.transferred_to_self
      = (Return (Demo.hello, new_md), Demo.transferred_to_self).
Proof.
  destruct demo_upload_returns as (md & Hupload).
  destruct (returns_pair
              (EVaultController.transfer_document 5000 Demo.alice_token
                 Demo.hello_hash "alice") Demo.uploaded)
    as (new_md & Ho & Htransfer); [evaluate|].
  exists md, new_md. split; [exact Hupload|]. split.
  { apply upload_document_inv in Hupload as (u & w1 & _ & Hstore & _).
    apply store_document_inv in Hstore as (k & iv & _ & _ & _ & -> & _).
    reflexivity. }
  split; [evaluate|].
  split; [unfold Demo.transferred_to_self; exact Htransfer|].
  assert (Hget : match Demo.outcome_of
                         (EVaultController.transfer_document 5000
                            Demo.alice_token Demo.hello_hash "alice")
                         Demo.uploaded with
                 | Return m =>
                     Demo.outcome_of
                       (EVaultController.get_document Demo.alice_token
                          Demo.hello_hash) Demo.transferred_to_self
                     = Return (Demo.hello, m)
                 | _ => False
                 end) by evaluate.
  rewrite Ho in Hget.
  rewrite get_document_pair, Hget. reflexivity.
Qed.


(** C8 as stated fails on snapshots that are valid JSON and not a
    ledger: for a file holding a JSON list [load_blockchain] raises
    [AttributeError], and for a block without an ["index"] entry it
    raises [KeyError]; neither is caught. *)
Lemma load_raises_on_foreign_json :
  blockchain_file Demo.with_json_list = JsonText (PList []) ∧
  Demo.outcome_of BlockchainPersistence.load_blockchain Demo.with_json_list
    = Raise AttributeError ∧
  blockchain_file Demo.with_json_block_without_index
    = JsonText (PDict {["chain" := PList [PDict ∅]]}) ∧
  Demo.outcome_of BlockchainPersistence.load_blockchain
    Demo.with_json_block_without_index = Raise (KeyError "index").
Proof. repeat split; evaluate. Qed.
End demo_counterexamples.

(** * Further properties

    Properties of the code beyond those of the specification: the user
    directory, deletion and listing of documents, the shape of the
    ledger, its file, and what the controller records. *)

(** ** The user directory *)

Section directory.
Context `{Externals}.

(** The token [secrets.token_hex(n)] draws in a world. *)
Lemma token_hex_run n w :
  token_hex n w
  = (Return (hex (map (entropy (env w)) (seq (drawn (env w)) n))),
     with_env (λ e, mkEnv (clock e) (ticks e) (entropy e) (drawn e + n)%nat) w).
Proof. reflexivity. Qed.

Lemma hash_password_with_salt password s w :
  UserAuth._hash_password password (Some s) w
  = (Return (sha256_hexdigest (encode (password ++ s)), s), w).
Proof. reflexivity. Qed.

Lemma login_run uname password w :
  UserAuth.login uname password w
  = match users (auth w) !! uname with
    | None => (Return None, w)
    | Some u =>
        if String.eqb (sha256_hexdigest (encode (password ++ salt u)))
                      (hashed_password u)
        then
          let token := hex (map (entropy (env w)) (seq (drawn (env w)) 32)) in
          (Return (Some token),
           with_auth (λ a, mkAuth (users a)
             (<[token := mkSession (user_id u) uname]> (sessions a)))
             (with_env (λ e, mkEnv (clock e) (ticks e) (entropy e)
                                   (drawn e + 32)%nat) w))
        else (Return None, w)
    end.
Proof.
  unfold UserAuth.login. rewrite run_bind. cbn [gets].
  destruct (users (auth w) !! uname) as [u|]; [|reflexivity].
  rewrite run_bind, hash_password_with_salt. cbn beta iota.
  destruct (String.eqb _ _); reflexivity.
Qed.

Lemma logout_run session_token w :
  UserAuth.logout session_token w
  = match sessions (auth w) !! session_token with
    | Some _ =>
        (Return true,
         with_auth (λ a, mkAuth (users a) (delete session_token (sessions a))) w)
    | None => (Return false, w)
    end.
Proof.
  unfold UserAuth.logout. rewrite run_bind. cbn [gets].
  destruct (sessions (auth w) !! session_token); reflexivity.
Qed.

(** X1: a user name that is free can be registered; the record keeps the
    name and the e-mail address given and has the role "user"; with the
    password of the registration, [login] then returns a token, and the
    token stands for the registered record. A name that is taken is
    refused with [ValueError("Username already exists")], and the world,
    the record under that name included, is as it was. *)
Theorem register_then_login uname password mail w :
  (users (auth w) !! uname = None →
   ∃ u w1,
     UserAuth.register_user uname password mail w = (Return u, w1) ∧
     username u = uname ∧ email u = mail ∧ role u = "user" ∧
     users (auth w1) = <[uname := u]> (users (auth w)) ∧
     sessions (auth w1) = sessions (auth w) ∧
     ∀ w2, users (auth w2) !! uname = Some u →
       ∃ token w3,
         UserAuth.login uname password w2 = (Return (Some token), w3) ∧
         sessions (auth w3) !! token = Some (mkSession (user_id u) uname) ∧
         UserAuth.get_user_by_session token w3 = (Return (Some u), w3)) ∧
  (is_Some (users (auth w) !! uname) →
   UserAuth.register_user uname password mail w
     = (Raise (ValueError "Username already exists"), w)).
Proof.
  split.
  - intros Hfree. unfold UserAuth.register_user.
    rewrite run_bind. cbn [gets]. cbn beta iota. rewrite Hfree.
    eexists _, _. split; [reflexivity|].
    cbn. repeat (split; [reflexivity|]).
    intros w2 Hu. rewrite login_run, Hu. cbn [salt hashed_password].
    rewrite String.eqb_refl. cbv zeta.
    eexists _, _. split; [reflexivity|].
    rewrite get_user_by_session_run. unfold session_user. cbn.
    rewrite lookup_insert_eq. cbn. by rewrite Hu.
  - intros [u Hu]. unfold UserAuth.register_user.
    rewrite run_bind. cbn [gets]. cbn beta iota. by rewrite Hu.
Qed.

(** X2: [login] creates a session only for a user of the directory whose
    stored digest is the digest of the password given with the stored
    salt; the session then carries the identifier of that user. When it
    returns [None], nothing has changed: no session, no randomness used. *)
Theorem login_needs_matching_digest uname password w o w' :
  UserAuth.login uname password w = (o, w') →
  match o with
  | Return (Some token) =>
      ∃ u, users (auth w) !! uname = Some u ∧
           sha256_hexdigest (encode (password ++ salt u)) = hashed_password u ∧
           sessions (auth w')
             = <[token := mkSession (user_id u) uname]> (sessions (auth w)) ∧
           users (auth w') = users (auth w) ∧
           storage w' = storage w ∧ blockchain w' = blockchain w
  | Return None =>
      w' = w ∧
      ∀ u, users (auth w) !! uname = Some u →
           sha256_hexdigest (encode (password ++ salt u)) ≠ hashed_password u
  | _ => False
  end.
Proof.
  rewrite login_run. destruct (users (auth w) !! uname) as [u|] eqn:Hu.
  - destruct (String.eqb _ _) eqn:Heq; cbv zeta; intros [= <- <-].
    + apply String.eqb_eq in Heq. exists u. done.
    + apply String.eqb_neq in Heq. split; [done|]. by intros ? [= <-].
  - intros [= <- <-]. done.
Qed.

(** X3: [logout] answers whether the token was a session; afterwards the
    token stands for no user, every other token stands for whom it stood
    before, the directory of users is untouched, and a second [logout] of
    the token answers false and changes nothing. *)
Theorem logout_ends_the_session session_token w :
  ∃ b w',
    UserAuth.logout session_token w = (Return b, w') ∧
    (b = true ↔ is_Some (sessions (auth w) !! session_token)) ∧
    UserAuth.get_user_by_session session_token w' = (Return None, w') ∧
    (∀ t, t ≠ session_token →
       UserAuth.get_user_by_session t w'
       = (Return (session_user (auth w) t), w')) ∧
    users (auth w') = users (auth w) ∧
    UserAuth.logout session_token w' = (Return false, w').
Proof.
  rewrite logout_run.
  destruct (sessions (auth w) !! session_token) as [s|] eqn:Hs.
  - eexists _, _. split; [reflexivity|].
    split; [by split; eauto|].
    rewrite !get_user_by_session_run, logout_run. unfold session_user. cbn.
    rewrite lookup_delete_eq. repeat split.
    intros t Ht. rewrite get_user_by_session_run. unfold session_user. cbn.
    by rewrite lookup_delete_ne.
  - eexists _, _. split; [reflexivity|].
    split; [split; [done|by intros [? ?]]|].
    rewrite !get_user_by_session_run, logout_run. unfold session_user.
    rewrite Hs. repeat split.
    intros t Ht. by rewrite get_user_by_session_run.
Qed.

End directory.

Section passwords.
Context `{Externals}.

Lemma change_password_run uname old_password new_password w :
  UserAuth.change_password uname old_password new_password w
  = match users (auth w) !! uname with
    | None => (Return false, w)
    | Some u =>
        if String.eqb (sha256_hexdigest (encode (old_password ++ salt u)))
                      (hashed_password u)
        then
          let s := hex (map (entropy (env w)) (seq (drawn (env w)) 16)) in
          let u' := set_password
                      (sha256_hexdigest (encode (new_password ++ s))) s u in
          (Return true,
           with_auth (λ a, mkAuth (<[uname := u']> (users a)) (sessions a))
             (with_env (λ e, mkEnv (clock e) (ticks e) (entropy e)
                                   (drawn e + 16)%nat) w))
        else (Return false, w)
    end.
Proof.
  unfold UserAuth.change_password. rewrite run_bind. cbn [gets].
  destruct (users (auth w) !! uname) as [u|]; [|reflexivity].
  rewrite run_bind, hash_password_with_salt. cbn beta iota.
  destruct (String.eqb _ _); reflexivity.
Qed.

(** X4: with the right old password, [change_password] answers true and
    replaces digest and salt of the user's record, nothing else: the
    identifier, name, e-mail address and role stay, and so do all
    sessions, which go on standing for the user. [login] then accepts the
    new password, and refuses the old one unless its digest under the new
    salt is the new digest. *)
Theorem change_password_then_login uname old_password new_password w u :
  users (auth w) !! uname = Some u →
  sha256_hexdigest (encode (old_password ++ salt u)) = hashed_password u →
  ∃ u' w1,
    UserAuth.change_password uname old_password new_password w
      = (Return true, w1) ∧
    users (auth w1) = <[uname := u']> (users (auth w)) ∧
    user_id u' = user_id u ∧ username u' = username u ∧
    email u' = email u ∧ role u' = role u ∧
    hashed_password u'
      = sha256_hexdigest (encode (new_password ++ salt u')) ∧
    sessions (auth w1) = sessions (auth w) ∧
    storage w1 = storage w ∧ blockchain w1 = blockchain w ∧
    (∃ token w2,
       UserAuth.login uname new_password w1 = (Return (Some token), w2) ∧
       UserAuth.get_user_by_session token w2 = (Return (Some u'), w2)) ∧
    (sha256_hexdigest (encode (old_password ++ salt u')) ≠ hashed_password u' →
       UserAuth.login uname old_password w1 = (Return None, w1)) ∧
    (∀ t s, sessions (auth w) !! t = Some s → session_username s = uname →
       UserAuth.get_user_by_session t w1 = (Return (Some u'), w1)).
Proof.
  intros Hu Hold. rewrite change_password_run, Hu, Hold, String.eqb_refl.
  cbv zeta. eexists _, _. split; [reflexivity|].
  cbn. repeat (split; [reflexivity|]). split; [|split].
  - rewrite login_run. cbn. rewrite lookup_insert_eq. cbn.
    rewrite String.eqb_refl. cbv zeta. eexists _, _. split; [reflexivity|].
    rewrite get_user_by_session_run. unfold session_user. cbn.
    rewrite lookup_insert_eq. cbn. by rewrite lookup_insert_eq.
  - intros Hne. rewrite login_run. cbn. rewrite lookup_insert_eq. cbn in *.
    apply String.eqb_neq in Hne. by rewrite Hne.
  - intros t s Ht Hs. rewrite get_user_by_session_run. unfold session_user.
    cbn. rewrite Ht, Hs. by rewrite lookup_insert_eq.
Qed.

(** X5: [change_password] answers false for a name that is not in the
    directory and for an old password whose digest under the stored salt
    is not the stored digest; the world is then as it was, so the password
    in force still logs in. *)
Theorem change_password_refused uname old_password new_password w :
  (users (auth w) !! uname = None →
     UserAuth.change_password uname old_password new_password w
       = (Return false, w)) ∧
  (∀ u, users (auth w) !! uname = Some u →
     sha256_hexdigest (encode (old_password ++ salt u)) ≠ hashed_password u →
     UserAuth.change_password uname old_password new_password w
       = (Return false, w) ∧
     ∀ password,
       sha256_hexdigest (encode (password ++ salt u)) = hashed_password u →
       ∃ token w',
         UserAuth.login uname password w = (Return (Some token), w'))  ∧
  (∀ o w', UserAuth.change_password uname old_password new_password w = (o, w') →
     o = Return false → w' = w).
Proof.
  split; [|split].
  - intros Hu. by rewrite change_password_run, Hu.
  - intros u Hu Hne. rewrite change_password_run, Hu.
    apply String.eqb_neq in Hne. rewrite Hne. split; [done|].
    intros password Hpw. rewrite login_run, Hu, Hpw, String.eqb_refl.
    cbv zeta. by eexists _, _.
  - rewrite change_password_run. intros o w'.
    destruct (users (auth w) !! uname) as [u|]; [|by intros [= <- <-]].
    destruct (String.eqb _ _); cbv zeta; intros [= <- <-]; [discriminate|done].
Qed.

Lemma get_user_by_id_loop_Some items uid u :
  UserAuth.get_user_by_id_loop items uid = Some u →
  user_id u = uid ∧ ∃ name, (name, u) ∈ items.
Proof.
  induction items as [|[name u0] items IH]; [done|]. cbn.
  destruct (has_user_id uid u0) eqn:Hid.
  - intros [= ->]. apply String.eqb_eq in Hid. split; [done|].
    exists name. apply list_elem_of_here.
  - intros [? [name' ?]]%IH. split; [done|]. exists name'.
    by apply list_elem_of_further.
Qed.

Lemma get_user_by_id_loop_None items uid :
  UserAuth.get_user_by_id_loop items uid = None ↔
  ∀ name u, (name, u) ∈ items → user_id u ≠ uid.
Proof.
  induction items as [|[name u0] items IH]; cbn.
  - split; [|done]. intros _ ? ? ?%elem_of_nil. done.
  - destruct (has_user_id uid u0) eqn:Hid.
    + apply String.eqb_eq in Hid. split; [done|]. intros Hall.
      by destruct (Hall name u0 (list_elem_of_here _ _)).
    + apply String.eqb_neq in Hid. rewrite IH. split.
      * intros Hall name' u' [[= -> ->]|?]%elem_of_cons; [done|by eapply Hall].
      * intros Hall name' u' ?. eapply Hall. by apply list_elem_of_further.
Qed.

(** X6: whatever the order in which the directory is gone through,
    [get_user_by_id] returns [None] exactly when no user has the
    identifier; a record it returns is in the directory and has the
    identifier; and it returns the record of a user whose identifier no
    other record of the directory has. *)
Theorem get_user_by_id_finds_the_user uid w items :
  items ≡ₚ map_to_list (users (auth w)) →
  UserAuth.get_user_by_id uid w
    = (Return (UserAuth.get_user_by_id_loop (map_to_list (users (auth w))) uid),
       w) ∧
  (UserAuth.get_user_by_id_loop items uid = None ↔
     ∀ name u, users (auth w) !! name = Some u → user_id u ≠ uid) ∧
  (∀ u, UserAuth.get_user_by_id_loop items uid = Some u →
     user_id u = uid ∧ ∃ name, users (auth w) !! name = Some u) ∧
  (∀ name u,
     users (auth w) !! name = Some u → user_id u = uid →
     (∀ name' u', users (auth w) !! name' = Some u' → user_id u' = uid →
                  u' = u) →
     UserAuth.get_user_by_id_loop items uid = Some u).
Proof.
  intros Hperm.
  assert (Hin : ∀ name u,
            (name, u) ∈ items ↔ users (auth w) !! name = Some u).
  { intros name u. rewrite Hperm. apply elem_of_map_to_list. }
  split; [reflexivity|]. split; [|split].
  - rewrite get_user_by_id_loop_None. split.
    + intros Hall name u Hu. by apply (Hall name), Hin.
    + intros Hall name u Hu. by apply (Hall name), Hin.
  - intros u [Hid [name Hu]]%get_user_by_id_loop_Some. split; [done|].
    exists name. by apply Hin.
  - intros name u Hu Hid Huniq.
    destruct (UserAuth.get_user_by_id_loop items uid) as [u'|] eqn:Hloop.
    + apply get_user_by_id_loop_Some in Hloop as [Hid' [name' Hu']].
      f_equal. apply (Huniq name'); [by apply Hin|done].
    + rewrite get_user_by_id_loop_None in Hloop.
      by destruct (Hloop name u (proj2 (Hin name u) Hu)).
Qed.
End passwords.

(** ** Deleting and listing documents *)

Section listing.
Context `{Externals}.

Lemma delete_document_run document_hash w :
  DocumentStorage.delete_document document_hash w
  = match metadata (storage w) !! document_hash with
    | None => (Return false, w)
    | Some _ =>
        (Return true,
         with_storage (λ s, mkStorage (delete document_hash (metadata s))
                                      (delete document_hash (files s))) w)
    end.
Proof.
  unfold DocumentStorage.delete_document. rewrite run_bind. cbn [gets].
  destruct (metadata (storage w) !! document_hash); reflexivity.
Qed.

(** [retrieve_document] reads the record and the file of its hash only. *)
Lemma retrieve_document_local document_hash w1 w2 :
  metadata (storage w1) !! document_hash = metadata (storage w2) !! document_hash →
  files (storage w1) !! document_hash = files (storage w2) !! document_hash →
  (DocumentStorage.retrieve_document document_hash w1).1
  = (DocumentStorage.retrieve_document document_hash w2).1.
Proof.
  intros Hm Hf. unfold DocumentStorage.retrieve_document.
  rewrite !run_bind. cbn [gets]. rewrite Hm, Hf.
  destruct (metadata (storage w2) !! document_hash) as [md|]; [|done].
  destruct (files (storage w2) !! document_hash) as [ct|]; [|done].
  rewrite !run_bind. unfold DocumentStorage.b64decode_field.
  destruct (b64decode (doc_iv md)) as [iv|]; [|done].
  cbn [mret M_ret]. rewrite !run_bind.
  destruct (b64decode (doc_encryption_key md)) as [key|]; [|done].
  cbn [mret M_ret]. rewrite !run_bind. unfold DocumentStorage._decrypt_document.
  destruct (negb (aes_key_ok key)); [done|].
  destruct (negb (length iv =? 16)%nat); [done|].
  destruct (negb (length ct mod 16 =? 0)%nat); [done|].
  unfold lift. by destruct (unpad _ _).
Qed.

Lemma get_user_documents_run session_token w :
  EVaultController.get_user_documents session_token w
  = match session_user (auth w) session_token with
    | None => (Raise (ValueError "Invalid session"), w)
    | Some u =>
        (Return (filter (λ kv, doc_user_id kv.2 = user_id u)
                        (metadata (storage w))), w)
    end.
Proof.
  unfold EVaultController.get_user_documents.
  rewrite run_bind, get_user_by_session_run.
  destruct (session_user _ _); reflexivity.
Qed.

(** X7: [delete_document] answers whether the hash had a record. After
    it the hash has neither record nor, if it had a record, file, and
    [retrieve_document] raises "not found" for it; every other document
    is retrieved as before; the store stays consistent; ledger, directory
    and sessions are untouched (the deletion is not recorded on the
    ledger); a second deletion answers false and changes nothing. *)
Theorem delete_document_removes_one document_hash w :
  ∃ b w',
    DocumentStorage.delete_document document_hash w = (Return b, w') ∧
    (b = true ↔ is_Some (metadata (storage w) !! document_hash)) ∧
    (b = false → w' = w) ∧
    (b = true → files (storage w') !! document_hash = None) ∧
    DocumentStorage.retrieve_document document_hash w'
      = (Raise (ValueError
                  ("Document with hash " ++ document_hash ++ " not found")), w') ∧
    (∀ h, h ≠ document_hash →
       metadata (storage w') !! h = metadata (storage w) !! h ∧
       files (storage w') !! h = files (storage w) !! h ∧
       (DocumentStorage.retrieve_document h w').1
         = (DocumentStorage.retrieve_document h w).1) ∧
    (store_inv (storage w) → store_inv (storage w')) ∧
    heap w' = heap w ∧ blockchain w' = blockchain w ∧ auth w' = auth w ∧
    blockchain_file w' = blockchain_file w ∧
    DocumentStorage.delete_document document_hash w' = (Return false, w').
Proof.
  assert (Hnone : ∀ w0, metadata (storage w0) !! document_hash = None →
            DocumentStorage.retrieve_document document_hash w0
            = (Raise (ValueError
                 ("Document with hash " ++ document_hash ++ " not found")), w0)).
  { intros w0 Hm. unfold DocumentStorage.retrieve_document.
    rewrite run_bind. cbn [gets]. by rewrite Hm. }
  destruct (DocumentStorage.delete_document document_hash w) as [o w'] eqn:Hdel.
  pose proof (delete_document_inv_preserved _ _ _ _ Hdel) as Hinv.
  rewrite delete_document_run in Hdel.
  destruct (metadata (storage w) !! document_hash) as [md|] eqn:Hmd;
    injection Hdel as <- <-.
  - eexists _, _. split; [reflexivity|].
    split; [by split; eauto|]. split; [done|].
    split; [by intros _; cbn; rewrite lookup_delete_eq|].
    split; [by apply Hnone; cbn; rewrite lookup_delete_eq|].
    split.
    { intros h Hh.
      assert (Hm : metadata (storage (with_storage (λ s,
                     mkStorage (delete document_hash (metadata s))
                               (delete document_hash (files s))) w)) !! h
                   = metadata (storage w) !! h)
        by (cbn; by rewrite lookup_delete_ne).
      assert (Hf : files (storage (with_storage (λ s,
                     mkStorage (delete document_hash (metadata s))
                               (delete document_hash (files s))) w)) !! h
                   = files (storage w) !! h)
        by (cbn; by rewrite lookup_delete_ne).
      split; [done|]. split; [done|]. by apply retrieve_document_local. }
    split; [done|]. repeat (split; [reflexivity|]).
    rewrite delete_document_run. cbn. by rewrite lookup_delete_eq.
  - eexists _, _. split; [reflexivity|].
    split; [split; [done|by intros [? ?]]|]. split; [done|].
    split; [done|]. split; [by apply Hnone|].
    split; [done|]. split; [done|]. repeat (split; [reflexivity|]).
    by rewrite delete_document_run, Hmd.
Qed.

(** X10: [get_document] returns a document only to a session of the user
    the record names as its owner; the record returned is the one stored
    under the hash, and nothing changes. *)
Theorem get_document_only_to_owner session_token document_hash w
    document_content document_metadata w' :
  EVaultController.get_document session_token document_hash w
    = (Return (document_content, document_metadata), w') →
  w' = w ∧
  metadata (storage w) !! document_hash = Some document_metadata ∧
  DocumentStorage.retrieve_document document_hash w
    = (Return (document_content, document_metadata), w) ∧
  ∃ u, session_user (auth w) session_token = Some u ∧
       doc_user_id document_metadata = user_id u.
Proof.
  rewrite get_document_run.
  destruct (session_user (auth w) session_token) as [u|]; [|done].
  destruct (DocumentStorage.retrieve_document document_hash w) as [o w1] eqn:Hget.
  pose proof (retrieve_document_world _ _ _ _ Hget) as ->.
  cbn [fst]. destruct o as [[c md]| |]; [|done..].
  destruct (String.eqb (doc_user_id md) (user_id u)) eqn:Heq; [|done].
  intros [= -> -> <-]. apply String.eqb_eq in Heq.
  apply retrieve_document_inv in Hget as Hinv. destruct Hinv as (_ & Hmd & _).
  split; [done|]. split; [done|]. split; [done|]. by exists u.
Qed.

(** X11: with a token that stands for no user, each operation of the
    controller that takes a session raises [ValueError("Invalid session")]
    and leaves the world as it was: nothing is stored, recorded or read. *)
Theorem invalid_session_is_refused session_token w :
  session_user (auth w) session_token = None →
  (∀ fuel document_name document_content document_type,
     EVaultController.upload_document fuel session_token document_name
       document_content document_type w
     = (Raise (ValueError "Invalid session"), w)) ∧
  (∀ document_hash,
     EVaultController.get_document session_token document_hash w
     = (Raise (ValueError "Invalid session"), w)) ∧
  (∀ fuel document_hash recipient_username,
     EVaultController.transfer_document fuel session_token document_hash
       recipient_username w
     = (Raise (ValueError "Invalid session"), w)) ∧
  EVaultController.get_user_documents session_token w
    = (Raise (ValueError "Invalid session"), w) ∧
  (∀ document_hash,
     EVaultController.get_document_history session_token document_hash w
     = (Raise (ValueError "Invalid session"), w)) ∧
  EVaultController.get_user_transactions session_token w
    = (Raise (ValueError "Invalid session"), w).
Proof.
  intros Hnone. repeat split; intros.
  - unfold EVaultController.upload_document.
    by rewrite run_bind, get_user_by_session_run, Hnone.
  - by rewrite get_document_run, Hnone.
  - unfold EVaultController.transfer_document.
    by rewrite run_bind, get_user_by_session_run, Hnone.
  - by rewrite get_user_documents_run, Hnone.
  - by rewrite get_document_history_run, Hnone.
  - unfold EVaultController.get_user_transactions.
    by rewrite run_bind, get_user_by_session_run, Hnone.
Qed.

(** X12: a transfer that is refused changes nothing. For a session that
    stands for a user: a hash without a record raises "not found"; a
    document of another owner raises "Access denied"; a recipient name
    that is not in the directory raises "Recipient user ... not found".
    In each case the store, the ledger and its file are as they were. *)
Theorem transfer_refused_changes_nothing fuel session_token document_hash
    recipient_username w sender :
  session_user (auth w) session_token = Some sender →
  (metadata (storage w) !! document_hash = None →
     EVaultController.transfer_document fuel session_token document_hash
       recipient_username w
     = (Raise (ValueError
                 ("Document with hash " ++ document_hash ++ " not found")), w)) ∧
  (∀ document_content document_metadata,
     DocumentStorage.retrieve_document document_hash w
       = (Return (document_content, document_metadata), w) →
     doc_user_id document_metadata ≠ user_id sender →
     EVaultController.transfer_document fuel session_token document_hash
       recipient_username w
     = (Raise (ValueError "Access denied"), w)) ∧
  (∀ document_content document_metadata,
     DocumentStorage.retrieve_document document_hash w
       = (Return (document_content, document_metadata), w) →
     doc_user_id document_metadata = user_id sender →
     users (auth w) !! recipient_username = None →
     EVaultController.transfer_document fuel session_token document_hash
       recipient_username w
     = (Raise (ValueError
                 ("Recipient user '" ++ recipient_username ++ "' not found")), w)).
Proof.
  intros Hs. split; [|split].
  - intros Hmd. unfold EVaultController.transfer_document.
    rewrite run_bind, get_user_by_session_run, Hs. cbn beta iota.
    rewrite run_bind. unfold DocumentStorage.retrieve_document.
    rewrite run_bind. cbn [gets]. by rewrite Hmd.
  - intros c md Hget Hne. unfold EVaultController.transfer_document.
    rewrite run_bind, get_user_by_session_run, Hs. cbn beta iota.
    rewrite run_bind, Hget. cbn beta iota.
    apply String.eqb_neq in Hne. by rewrite Hne.
  - intros c md Hget Heq Hnone. unfold EVaultController.transfer_document.
    rewrite run_bind, get_user_by_session_run, Hs. cbn beta iota.
    rewrite run_bind, Hget. cbn beta iota.
    apply String.eqb_eq in Heq. rewrite Heq. cbn [negb].
    rewrite run_bind. cbn [gets]. by rewrite Hnone.
Qed.
End listing.

Section listing_laws.
Context `{Externals} `{!ExternalLaws}.

(** X9: after an upload that succeeds, [get_document] with the same
    session returns the uploaded bytes with the record the upload
    returned; the record carries the digest of the bytes, their length,
    the name and the type given and the identifier of the session's user;
    and the document is in the user's listing. *)
Theorem upload_then_get_document fuel session_token document_name
    (document_content : bytes) document_type w md w' :
  EVaultController.upload_document fuel session_token document_name
    document_content document_type w = (Return md, w') →
  EVaultController.get_document session_token (doc_hash md) w'
    = (Return (document_content, md), w') ∧
  doc_hash md = sha256_hexdigest document_content ∧
  doc_size md = length document_content ∧
  doc_name md = document_name ∧ doc_type md = document_type ∧
  (∃ u, session_user (auth w) session_token = Some u ∧
        doc_user_id md = user_id u) ∧
  ∃ docs,
    EVaultController.get_user_documents session_token w' = (Return docs, w') ∧
    docs !! doc_hash md = Some md.
Proof.
  intros Hup.
  apply upload_document_inv in Hup as (u & w1 & Hs & Hstore & Hst & Hauth).
  apply store_document_inv in Hstore as Hshape.
  destruct Hshape as (key & iv & _ & _ & _ & Hmd & _).
  apply store_document_holds in Hstore as (Hlook & Hholds & _).
  assert (Hown : doc_user_id md = user_id u) by (by rewrite Hmd).
  assert (Hget : DocumentStorage.retrieve_document (doc_hash md) w'
                 = (Return (document_content, md), w')).
  { apply retrieve_held; rewrite Hst; [done|].
    by apply (holds_other (storage w1)). }
  split; [|split; [by rewrite Hmd|split; [by rewrite Hmd|
           split; [by rewrite Hmd|split; [by rewrite Hmd|split; [by exists u|]]]]]].
  - rewrite get_document_run, Hauth, Hs, Hget. cbn [fst].
    by rewrite Hown, String.eqb_refl.
  - rewrite get_user_documents_run, Hauth, Hs. eexists. split; [reflexivity|].
    apply map_lookup_filter_Some. rewrite Hst. by split.
Qed.

(** X8: a transfer to a user with another identifier moves the document
    from the sender's listing to the recipient's: the sender's listing
    loses the hash and is otherwise as before, and the listing of every
    session of the recipient has the hash with the new record. *)
Theorem transfer_moves_the_listing fuel session_token document_hash
    recipient_username w new_md w' sender recipient :
  store_inv (storage w) →
  EVaultController.transfer_document fuel session_token document_hash
    recipient_username w = (Return new_md, w') →
  session_user (auth w) session_token = Some sender →
  users (auth w) !! recipient_username = Some recipient →
  user_id recipient ≠ user_id sender →
  ∃ docs_before,
    EVaultController.get_user_documents session_token w
      = (Return docs_before, w) ∧
    is_Some (docs_before !! document_hash) ∧
    EVaultController.get_user_documents session_token w'
      = (Return (delete document_hash docs_before), w') ∧
    ∀ recipient_token session_data,
      sessions (auth w') !! recipient_token = Some session_data →
      session_username session_data = recipient_username →
      ∃ docs,
        EVaultController.get_user_documents recipient_token w'
          = (Return docs, w') ∧
        docs !! document_hash = Some new_md ∧
        ∀ h, h ≠ document_hash →
          docs !! h
          = filter (λ kv, doc_user_id kv.2 = user_id recipient)
                   (metadata (storage w)) !! h.
Proof.
  intros Hinv Htransfer Hs Hr Hne.
  destruct (transfer_document_effect _ _ _ _ _ _ _ Hinv Htransfer)
    as (sender' & old_md & recipient' & content & key & iv & Hs' & Hr' & Hold
        & _ & Hown & _ & Hnew & Hst & _ & _ & Hauth).
  rewrite Hs in Hs'. injection Hs' as <-.
  rewrite Hr in Hr'. injection Hr' as <-.
  assert (Hnewown : doc_user_id new_md = user_id recipient) by (by rewrite Hnew).
  eexists. rewrite !get_user_documents_run, Hauth, Hs.
  split; [reflexivity|]. split; [|split].
  - exists old_md. by apply map_lookup_filter_Some.
  - f_equal. rewrite Hst. cbn [metadata].
    rewrite map_filter_insert_False by (cbn; by rewrite Hnewown).
    by rewrite map_filter_delete.
  - intros rt sd Hrt Hname. rewrite get_user_documents_run.
    unfold session_user. rewrite Hauth, Hrt, Hname, Hr.
    eexists. split; [reflexivity|]. rewrite Hst. cbn [metadata]. split.
    + apply map_lookup_filter_Some. by rewrite lookup_insert_eq.
    + intros h Hh. rewrite map_filter_insert_True by done.
      by rewrite lookup_insert_ne.
Qed.
End listing_laws.

(** ** The shape of the ledger *)

Section ledger_shape.
Context `{Externals}.

Lemma get_block_by_hash_loop_None c hash_value :
  Blockchain.get_block_by_hash_loop c hash_value = None ↔
  ∀ b, b ∈ c → hash b ≠ hash_value.
Proof.
  induction c as [|b0 c IH]; cbn.
  - split; [|done]. by intros _ b ?%elem_of_nil.
  - destruct (String.eqb (hash b0) hash_value) eqn:Heq.
    + apply String.eqb_eq in Heq. split; [done|]. intros Hall.
      by destruct (Hall b0 (list_elem_of_here _ _)).
    + apply String.eqb_neq in Heq. rewrite IH. split.
      * intros Hall b [->|?]%elem_of_cons; [done|by apply Hall].
      * intros Hall b ?. by apply Hall, list_elem_of_further.
Qed.

Lemma get_block_by_hash_loop_Some c hash_value b :
  Blockchain.get_block_by_hash_loop c hash_value = Some b →
  ∃ i, c !! i = Some b ∧ hash b = hash_value ∧
       ∀ j b', (j < i)%nat → c !! j = Some b' → hash b' ≠ hash_value.
Proof.
  induction c as [|b0 c IH]; [done|]. cbn.
  destruct (String.eqb (hash b0) hash_value) eqn:Heq.
  - apply String.eqb_eq in Heq. intros [= ->]. exists 0%nat.
    split; [done|]. split; [done|]. intros j b' Hj. lia.
  - apply String.eqb_neq in Heq. intros (i & Hi & Hh & Hbefore)%IH.
    exists (S i). split; [done|]. split; [done|].
    intros [|j] b' Hj; cbn; [by intros [= <-]|].
    apply Hbefore. lia.
Qed.

(** X13: [get_block_by_hash] returns the first block of the chain with
    the hash, [None] exactly when no block has it, and changes nothing;
    a block that [mine_pending_transactions] has sealed is found under
    its hash, or an earlier block with the same hash is. *)
Theorem get_block_by_hash_first_match hash_value w :
  ∃ r,
    Blockchain.get_block_by_hash hash_value w = (Return r, w) ∧
    (r = None ↔ ∀ b, b ∈ chain (blockchain w) → hash b ≠ hash_value) ∧
    (∀ b, r = Some b →
       ∃ i, chain (blockchain w) !! i = Some b ∧ hash b = hash_value ∧
            ∀ j b', (j < i)%nat → chain (blockchain w) !! j = Some b' →
                    hash b' ≠ hash_value) ∧
    (∀ fuel w0 b, Blockchain.mine_pending_transactions fuel w0
                    = (Return (Some b), w) →
       hash b = hash_value → ∃ b', r = Some b' ∧ hash b' = hash_value).
Proof.
  rewrite get_block_by_hash_run. eexists. split; [reflexivity|].
  split; [apply get_block_by_hash_loop_None|].
  split; [apply get_block_by_hash_loop_Some|].
  intros fuel w0 b Hmine Hb.
  apply mine_pending_inv in Hmine; [|done].
  destruct Hmine as [(? & _)|[(? & _)|(tip & n & _ & _ & Hret & -> & _)]];
    [done..|].
  injection Hret as ->.
  destruct (Blockchain.get_block_by_hash_loop _ hash_value) as [b'|] eqn:Hloop.
  - exists b'. split; [done|].
    by apply get_block_by_hash_loop_Some in Hloop as (_ & _ & ? & _).
  - rewrite get_block_by_hash_loop_None in Hloop. exfalso.
    apply (Hloop (with_nonce (heap w0) (candidate w0 tip) n)); [|done].
    cbn. apply elem_of_app. right. apply list_elem_of_here.
Qed.

(** The sealed chains of the ledgers reached by the ledger operations:
    a genesis block without transactions, and blocks sealed on top, one
    at a time. *)
Lemma reachable_sealed_ind
    (P : Z → list (Block * list (gmap string pyval)) → Prop) :
  (∀ g, index g = 0 → previous_hash g = "0" → nonce g = 0 → P 2 [(g, [])]) →
  (∀ d s tip b txs,
     P d s → last s.*1 = Some tip → txs ≠ [] →
     index b = index tip + 1 → previous_hash b = hash tip →
     meets_target d (hash b) = true →
     P d (s ++ [(b, txs)])) →
  ∀ w, reachable w → P (difficulty (blockchain w)) (sealed w).
Proof.
  intros Hgen Hseal.
  induction 1 as [w0 w Hinit|w d r w' Hw IH Hnew|w tx o w' Hw IH Htx Hadd
                 |w fuel o w' Hw IH Ho Hmine|w o w' Hw IH Hval
                 |w hv o w' Hw IH Hget|w uid o w' Hw IH Hscan
                 |w w' Hw IH Hh Hbc].
  - destruct (init_fresh w0)
      as (g & w1 & Hrun & Hc & Hd & Hi & _ & Hp & Hn & _ & Htx & _).
    rewrite Hrun in Hinit. injection Hinit as <-.
    unfold sealed. rewrite Hc, Hd. cbn. rewrite Htx. by apply Hgen.
  - apply new_dict_only_new_dicts in Hnew as Hnew'.
    destruct (ledger_inv_only_new_dicts _ _ Hnew' (reachable_inv _ Hw)) as [_ ->].
    destruct Hnew' as (-> & _). exact IH.
  - rewrite add_transaction_run in Hadd. injection Hadd as _ <-.
    destruct (ledger_inv_add _ _ Htx (reachable_inv _ Hw)) as [_ ->]. exact IH.
  - apply mine_pending_inv in Hmine; [|done].
    destruct Hmine as [(_ & -> & _)|[(_ & ->)
                      |(tip & n & Hne & Htip & _ & -> & Hm)]]; [done..|].
    destruct (ledger_inv_seal _ _ n (reachable_inv _ Hw) Htip) as [_ ->].
    cbn [blockchain after_seal difficulty].
    apply (Hseal _ _ tip); [done| | |done..].
    + unfold sealed. rewrite <- list_fmap_compose.
      rewrite (list_fmap_ext _ id (chain (blockchain w))); [|done].
      by rewrite list_fmap_id.
    + unfold pending, txs_of. intros Hnil%fmap_nil_inv. done.
  - rewrite is_chain_valid_run in Hval. by injection Hval as _ <-.
  - rewrite get_block_by_hash_run in Hget. by injection Hget as _ <-.
  - rewrite get_transactions_by_user_scan in Hscan.
    apply scan_chain_only_new_dicts in Hscan as Hnew; [|by apply reachable_inv].
    destruct (ledger_inv_only_new_dicts _ _ Hnew (reachable_inv _ Hw)) as [_ ->].
    destruct Hnew as (-> & _). exact IH.
  - destruct (ledger_inv_keeps w w' Hbc) as [_ ->];
      [by intros r; rewrite Hh; apply keeps_refl|by apply reachable_inv|].
    by rewrite Hbc.
Qed.

Lemma reachable_shape w :
  reachable w →
  difficulty (blockchain w) = 2 ∧
  ∀ i b txs, sealed w !! i = Some (b, txs) →
    index b = Z.of_nat i ∧ (txs = [] ↔ i = 0%nat) ∧
    ((1 ≤ i)%nat → meets_target 2 (hash b) = true).
Proof.
  intros Hw.
  apply (reachable_sealed_ind (λ d s,
    d = 2 ∧ ∀ i b txs, s !! i = Some (b, txs) →
      index b = Z.of_nat i ∧ (txs = [] ↔ i = 0%nat) ∧
      ((1 ≤ i)%nat → meets_target 2 (hash b) = true))); [| |done].
  - intros g Hi _ _. split; [done|].
    intros [|i] b txs; [|done]. intros [= <- <-].
    split; [done|]. split; [done|]. lia.
  - intros d s tip b txs [-> IH] Htip Htxs Hib _ Hm. split; [done|].
    intros i b' txs' Hi.
    apply lookup_app_Some in Hi as [Hi|[Hlen Hi]]; [by apply IH|].
    destruct (i - length s)%nat eqn:Hk; [|done]. injection Hi as <- <-.
    assert (i = length s) as -> by lia.
    rewrite last_lookup, length_fmap in Htip.
    destruct s as [|x s] using rev_ind; [done|].
    rewrite length_app in *. cbn in *.
    replace (Init.Nat.pred (length s + 1)) with (length s) in Htip by lia.
    rewrite fmap_app in Htip. rewrite lookup_app_r in Htip
      by (by rewrite length_fmap).
    rewrite length_fmap, Nat.sub_diag in Htip. cbn in Htip.
    injection Htip as <-. destruct x as [tip ttxs].
    destruct (IH (length s) tip ttxs) as (Hit & _).
    { rewrite lookup_app_r by done. by rewrite Nat.sub_diag. }
    cbn in Hib. split; [lia|]. split; [|done].
    split; [done|lia].
Qed.

Lemma sealed_lookup w i b :
  chain (blockchain w) !! i = Some b →
  sealed w !! i = Some (b, txs_of (heap w) (transactions b)).
Proof. intros Hb. unfold sealed. by rewrite list_lookup_fmap, Hb. Qed.

(** X14: in every ledger reached by the ledger operations the difficulty
    is 2, the block at position [i] has index [i], the genesis block holds
    no transaction and every later block holds at least one and has a hash
    that starts with two zeros; [add_transaction] returns the length of
    the chain. *)
Theorem reachable_ledger_shape w :
  reachable w →
  difficulty (blockchain w) = 2 ∧
  (∀ i b, chain (blockchain w) !! i = Some b →
     index b = Z.of_nat i ∧
     (txs_of (heap w) (transactions b) = [] ↔ i = 0%nat) ∧
     ((1 ≤ i)%nat → (2 ≤ leading_zeros (hash b))%nat)) ∧
  (∀ tx, ∃ w',
     Blockchain.add_transaction tx w
       = (Return (Z.of_nat (length (chain (blockchain w)))), w')).
Proof.
  intros Hw. destruct (reachable_shape w Hw) as [Hd Hshape].
  split; [done|]. split.
  - intros i b Hb. destruct (Hshape i b _ (sealed_lookup w i b Hb))
      as (Hi & Htxs & Hm).
    split; [done|]. split; [done|]. intros Hi1.
    apply Nat2Z.inj_le. by apply (meets_target_leading_zeros 2), Hm.
  - intros tx. rewrite add_transaction_run.
    destruct (reachable_inv w Hw) as (_ & Hne & _).
    destruct (last (chain (blockchain w))) as [tip|] eqn:Htip.
    + eexists. f_equal. f_equal.
      rewrite last_lookup in Htip.
      destruct (Hshape _ _ _ (sealed_lookup w _ _ Htip)) as (-> & _).
      destruct (chain (blockchain w)); [done|]. cbn. lia.
    + by apply last_None in Htip.
Qed.

(** X15: the index that [add_transaction] returns is the index of the
    block that the next [mine_pending_transactions] seals, and that block
    holds the buffer as it was with the transaction added at its end; the
    chain grows by that block and the buffer is empty again. *)
Theorem add_transaction_announces_block tx w i w1 fuel b w2 :
  Blockchain.add_transaction tx w = (Return i, w1) →
  Blockchain.mine_pending_transactions fuel w1 = (Return (Some b), w2) →
  index b = i ∧
  lists (heap w2) !!! transactions b
    = (lists (heap w) !!! pending_transactions (blockchain w)) ++ [tx] ∧
  chain (blockchain w2) = chain (blockchain w) ++ [b] ∧
  lists (heap w2) !!! pending_transactions (blockchain w2) = [].
Proof.
  rewrite add_transaction_run.
  destruct (last (chain (blockchain w))) as [tip|] eqn:Htip; [|done].
  intros [= <- <-] Hmine.
  apply mine_pending_inv in Hmine; [|done].
  destruct Hmine as [(? & _)|[(? & _)|(tip' & n & Hne & Htip' & Hret & -> & _)]];
    [done..|].
  injection Hret as ->.
  change (chain (blockchain (after_add w tx))) with (chain (blockchain w)) in Htip'.
  rewrite Htip in Htip'. injection Htip' as <-.
  split; [done|]. split; [|split; [done|]].
  - destruct (after_seal_buffer (after_add w tx)
                (with_nonce (heap (after_add w tx))
                   (candidate (after_add w tx) tip) n) Hne eq_refl) as [Hbuf _].
    etransitivity; [exact Hbuf|]. cbn. by rewrite lookup_total_insert_eq.
  - cbn. by rewrite lookup_total_insert_eq.
Qed.

(** X16: on a ledger without blocks [add_transaction] raises
    [IndexError] after it has appended the transaction to the buffer, and
    [mine_pending_transactions] then raises [IndexError] and leaves the
    buffer as it is. *)
Theorem empty_chain_raises_index_error tx w :
  chain (blockchain w) = [] →
  ∃ w1,
    Blockchain.add_transaction tx w = (Raise IndexError, w1) ∧
    chain (blockchain w1) = [] ∧
    pending_transactions (blockchain w1) = pending_transactions (blockchain w) ∧
    lists (heap w1) !!! pending_transactions (blockchain w1)
      = (lists (heap w) !!! pending_transactions (blockchain w)) ++ [tx] ∧
    ∀ fuel,
      Blockchain.mine_pending_transactions fuel w1 = (Raise IndexError, w1).
Proof.
  intros Hc. rewrite add_transaction_run, Hc. cbn [last].
  eexists. split; [reflexivity|]. split; [done|]. split; [done|].
  assert (Hbuf : lists (heap (after_add w tx))
                   !!! pending_transactions (blockchain (after_add w tx))
                 = (lists (heap w) !!! pending_transactions (blockchain w)) ++ [tx]).
  { cbn. by rewrite lookup_total_insert_eq. }
  split; [done|]. intros fuel.
  unfold Blockchain.mine_pending_transactions.
  rewrite run_bind. cbn [gets]. rewrite run_bind. unfold list_read. cbn [gets].
  rewrite Hbuf.
  destruct (lists (heap w) !!! pending_transactions (blockchain w)); cbn [app];
    rewrite run_bind; unfold Blockchain.add_block;
    rewrite run_bind, get_latest_block_run;
    change (chain (blockchain (after_add w tx))) with (chain (blockchain w));
    by rewrite Hc.
Qed.
End ledger_shape.

(** ** Saving and loading the ledger *)

Section persistence.
Context `{Externals}.

Lemma block_from_dict_to_dict h b w :
  Blockchain.block_from_dict (Block.to_dict h b) w
  = match load_transactions (transactions_value h (transactions b)) w with
    | (Return r, w') => (Return (set_transactions r b), w')
    | (Raise e, w') => (Raise e, w')
    | (Beyond l, w') => (Beyond l, w')
    end.
Proof.
  unfold Blockchain.block_from_dict.
  rewrite run_bind.
  change (getitem (Block.to_dict h b) "index" w)
    with (Return (PInt (index b)), w). cbn beta iota.
  rewrite run_bind.
  change (getitem (Block.to_dict h b) "timestamp" w)
    with (Return (PFloat (timestamp b)), w). cbn beta iota.
  rewrite run_bind.
  change (getitem (Block.to_dict h b) "transactions" w)
    with (Return (transactions_value h (transactions b)), w). cbn beta iota.
  rewrite run_bind.
  change (getitem (Block.to_dict h b) "previous_hash" w)
    with (Return (PStr (previous_hash b)), w). cbn beta iota.
  rewrite run_bind. cbn [as_int mret M_ret].
  rewrite run_bind. cbn [as_float mret M_ret].
  rewrite run_bind.
  destruct (load_transactions _ w) as [[r|e|l] w'] eqn:E; [|done..].
  rewrite run_bind. cbn [as_str mret M_ret].
  rewrite run_bind, init_run. cbn beta iota.
  rewrite run_bind.
  change (getitem (Block.to_dict h b) "nonce" w')
    with (Return (PInt (nonce b)), w'). cbn beta iota.
  rewrite run_bind. cbn [as_int mret M_ret].
  rewrite run_bind. cbn [mret M_ret].
  rewrite run_bind.
  change (getitem (Block.to_dict h b) "hash" w')
    with (Return (PStr (hash b)), w'). cbn beta iota.
  rewrite run_bind. cbn [as_str mret M_ret].
  by destruct b.
Qed.

Lemma from_dict_loop_to_dict h bs :
  ∀ w,
    (∀ b, b ∈ chain (blockchain w) → owns (heap w) (transactions b)) →
    ∃ bs' w',
      Blockchain.from_dict_loop (Block.to_dict h <$> bs) w = (Return (), w') ∧
      w' = mkWorld (heap w')
             (set_chain (chain (blockchain w) ++ bs') (blockchain w))
             (storage w) (auth w) (blockchain_file w) (env w) ∧
      heap_grows (heap w) (heap w') ∧
      block_value (heap w') <$> bs' = block_value h <$> bs ∧
      (∀ b, b ∈ bs' →
         owns (heap w') (transactions b) ∧
         transactions b ∉ dom (lists (heap w))).
Proof.
  induction bs as [|b bs IH]; intros w Hown.
  - exists [], w. split; [done|]. rewrite app_nil_r.
    split; [by destruct w as [? [] ? ? ? ?]|].
    split; [apply heap_grows_refl|]. split; [done|].
    by intros b ?%elem_of_nil.
  - rewrite fmap_cons. cbn [Blockchain.from_dict_loop].
    rewrite run_bind, block_from_dict_to_dict.
    destruct (load_transactions_run (txs_of h (transactions b)) w)
      as (r & w1 & Hload & Hw1 & Hg1 & Hfresh & Hr & Htx).
    unfold transactions_value. rewrite Hload. cbn beta iota.
    rewrite run_bind. cbn [modify].
    set (w2 := with_blockchain _ w1).
    destruct (IH w2) as (bs' & w' & Hrun & Hw' & Hg2 & Hv & Hnew).
    { cbn. intros b' [Hin| ->%list_elem_of_singleton]%elem_of_app.
      - rewrite Hw1 in Hin. by apply (heap_grows_keeps (heap w)), Hown.
      - done. }
    rewrite Hrun.
    exists (set_transactions r b :: bs'), w'. split; [done|].
    assert (Hg : heap_grows (heap w) (heap w'))
      by (by eapply heap_grows_trans).
    split; [|split; [done|split]].
    + rewrite Hw'. cbn. rewrite Hw1. cbn. unfold set_chain. cbn.
      by rewrite <- app_assoc.
    + rewrite !fmap_cons. f_equal; [|done].
      unfold block_value. cbn.
      destruct (heap_grows_keeps _ _ r Hg2 Hr) as [_ ->].
      change (heap w2) with (heap w1). by rewrite Htx.
    + intros b' [->|Hin]%elem_of_cons.
      * split; [by apply (heap_grows_keeps (heap w1))|done].
      * destruct (Hnew b' Hin) as [Ho Hn]. split; [done|].
        intros Hd. apply Hn. cbn.
        by eapply (subseteq_dom _ _ (proj1 Hg1)).
Qed.

Lemma digest_value h h' b b' :
  block_value h' b' = block_value h b → digest h' b' = digest h b.
Proof.
  unfold block_value, digest, Block.hashed_fields, transactions_value.
  by intros [= -> -> -> -> -> _].
Qed.

Lemma block_ok_value h h' c c' i :
  block_value h' <$> c' = block_value h <$> c →
  block_ok h' c' i = block_ok h c i.
Proof.
  intros Hv. unfold block_ok.
  assert (Hi : ∀ j, block_value h' <$> (c' !! j) = block_value h <$> (c !! j)).
  { intros j. by rewrite <- !list_lookup_fmap, Hv. }
  pose proof (Hi i) as H1. pose proof (Hi (i - 1)%nat) as H2.
  destruct (c' !! i) as [x'|], (c !! i) as [x|]; try done.
  destruct (c' !! (i - 1)%nat) as [y'|], (c !! (i - 1)%nat) as [y|]; try done.
  cbn in H1, H2. apply (inj Some) in H1. apply (inj Some) in H2.
  rewrite (digest_value _ _ _ _ H1).
  unfold block_value in H1, H2.
  injection H1 as _ _ _ Hp _ Hh. injection H2 as _ _ _ _ _ Hh'.
  by rewrite Hp, Hh, Hh'.
Qed.

Lemma chain_valid_value h h' c c' :
  block_value h' <$> c' = block_value h <$> c →
  chain_valid h' c' = chain_valid h c.
Proof.
  intros Hv.
  assert (Hlen : length c' = length c).
  { by rewrite <- (length_fmap (block_value h') c'), Hv, length_fmap. }
  apply Bool.eq_iff_eq_true. rewrite !chain_valid_true, Hlen.
  split; intros Hall i Hi;
    [rewrite <- (block_ok_value h h' c c')|rewrite (block_ok_value h h' c c')];
    auto.
Qed.

(** Loading a file that holds what [to_dict] gives for a ledger. *)
Lemma load_saved_ledger w v w2 :
  Blockchain.to_dict w = (Return v, w) →
  blockchain_file w2 = JsonText v →
  ∃ w3,
    BlockchainPersistence.load_blockchain w2 = (Return (blockchain w3), w3) ∧
    ledger_value w3 = ledger_value w ∧
    ledger_wf w3 ∧
    chain_valid (heap w3) (chain (blockchain w3))
      = chain_valid (heap w) (chain (blockchain w)) ∧
    storage w3 = storage w2 ∧ auth w3 = auth w2 ∧
    blockchain_file w3 = JsonText v.
Proof.
  intros Hto Hfile2.
  unfold Blockchain.to_dict in Hto. rewrite !run_bind in Hto.
  cbn [gets mret M_ret] in Hto. injection Hto as <-.
  destruct (init_fresh w2)
    as (g & wi & Hinit & _ & _ & _ & _ & _ & _ & _ & _ & _ & Hfile).
  assert (Hframe : storage wi = storage w2 ∧ auth wi = auth w2).
  { by injection Hinit as <-. }
  destruct Hframe as [Hst Hau].
  unfold BlockchainPersistence.load_blockchain.
  rewrite run_bind, Hinit. cbn beta iota.
  rewrite run_bind. cbn [gets]. rewrite Hfile, Hfile2. cbn beta iota.
  rewrite run_bind. unfold Blockchain.from_dict.
  rewrite run_bind.
  change (default (PInt 2) (_ !! "difficulty"))
    with (PInt (difficulty (blockchain w))).
  cbn [as_int mret M_ret]. rewrite run_bind. cbn [modify]. rewrite run_bind.
  change (default (PList []) (_ !! "pending_transactions"))
    with (transactions_value (heap w) (pending_transactions (blockchain w))).
  set (w4 := with_blockchain _ wi).
  destruct (load_transactions_run (pending w) w4)
    as (rp & w5 & Hload & Hw5 & Hg5 & Hfresh & Hrp & Hptx).
  unfold transactions_value. fold (pending w). rewrite Hload. cbn beta iota.
  rewrite run_bind. cbn [modify]. rewrite run_bind. cbn [modify].
  rewrite run_bind.
  change (default (PList []) (_ !! "chain"))
    with (PList (Block.to_dict (heap w) <$> chain (blockchain w))).
  cbn [py_iter mret M_ret].
  set (w6 := with_blockchain _ (with_blockchain _ w5)).
  destruct (from_dict_loop_to_dict (heap w) (chain (blockchain w)) w6)
    as (bs' & w7 & Hloop & Hw7 & Hg7 & Hvs & Hnew).
  { cbn. by intros b ?%elem_of_nil. }
  rewrite Hloop. cbn beta iota. cbn [gets].
  exists w7. split; [done|].
  assert (Hbc : blockchain w7
                = mkBlockchain bs' (difficulty (blockchain w)) rp).
  { rewrite Hw7. cbn. by rewrite Hw5. }
  assert (Hrp7 : owns (heap w7) rp ∧ txs_of (heap w7) rp = pending w).
  { destruct (heap_grows_keeps (heap w5) (heap w7) rp) as [? ->]; done. }
  split; [|split; [|split]].
  - unfold ledger_value, pending. rewrite Hbc. cbn.
    by rewrite Hvs, (proj2 Hrp7).
  - split; rewrite Hbc; cbn; [by apply Hrp7|].
    intros b Hin. destruct (Hnew b Hin) as [Ho Hn]. split; [done|].
    intros Heq. apply Hn. rewrite Heq. cbn. apply Hrp.
  - rewrite Hbc.
    exact (chain_valid_value (heap w) (heap w7) (chain (blockchain w)) bs' Hvs).
  - rewrite Hw7. cbn. rewrite Hw5. cbn. by rewrite Hst, Hau, Hfile, Hfile2.
Qed.

(** X17: [save_blockchain] writes the ledger to its file and changes
    nothing else; [load_blockchain] on a world with that file returns a
    ledger with the same blocks (index, timestamp, transactions, previous
    hash, nonce and hash), the same pending transactions and the same
    difficulty, held in list and dict objects of its own;
    [is_chain_valid] answers for it what it answers for the ledger
    saved. Store, directory and file are untouched by the load. *)
Theorem save_then_load w :
  ∃ v,
    BlockchainPersistence.save_blockchain w
      = (Return (), with_blockchain_file (λ _, JsonText v) w) ∧
    ∀ w2, ∃ w3,
      BlockchainPersistence.load_blockchain
        (with_blockchain_file (λ _, JsonText v) w2)
        = (Return (blockchain w3), w3) ∧
      ledger_value w3 = ledger_value w ∧
      ledger_wf w3 ∧
      Blockchain.is_chain_valid w3
        = (Return (chain_valid (heap w) (chain (blockchain w))), w3) ∧
      Blockchain.is_chain_valid w
        = (Return (chain_valid (heap w) (chain (blockchain w))), w) ∧
      storage w3 = storage w2 ∧ auth w3 = auth w2 ∧
      blockchain_file w3 = JsonText v.
Proof.
  eexists. split; [reflexivity|]. intros w2.
  set (v := PDict _).
  destruct (load_saved_ledger w v (with_blockchain_file (λ _, JsonText v) w2))
    as (w3 & Hrun & Hval & Hwf & Hvalid & Hst & Hau & Hfile);
    [reflexivity..|].
  exists w3. split; [exact Hrun|]. split; [exact Hval|]. split; [exact Hwf|].
  split; [by rewrite is_chain_valid_run, Hvalid|].
  split; [by rewrite is_chain_valid_run|]. done.
Qed.
End persistence.

(** ** What the controller records on the ledger *)

Section recording.
Context `{Externals}.

(** The common end of [upload_document] and [transfer_document]: the
    transaction is added, the buffer is sealed, the ledger is saved. *)
Lemma seal_transaction_run {A} fuel tx (a : A) w r w' :
  ledger_inv w → tx ∈ dom (dicts (heap w)) →
  (Blockchain.add_transaction tx;;
   Blockchain.mine_pending_transactions fuel;;
   BlockchainPersistence.save_blockchain;; mret a) w = (Return r, w') →
  r = a ∧
  ∃ tip b v,
    last (chain (blockchain w)) = Some tip ∧
    chain (blockchain w') = chain (blockchain w) ++ [b] ∧
    sealed w' = sealed w ++ [(b, pending w ++ [dicts (heap w) !!! tx])] ∧
    index b = index tip + 1 ∧ previous_hash b = hash tip ∧
    meets_target (difficulty (blockchain w)) (hash b) = true ∧
    pending w' = [] ∧ ledger_inv w' ∧
    difficulty (blockchain w') = difficulty (blockchain w) ∧
    storage w' = storage w ∧ auth w' = auth w ∧
    Blockchain.to_dict w' = (Return v, w') ∧ blockchain_file w' = JsonText v.
Proof.
  intros Hinv Htx.
  rewrite run_bind, add_transaction_run.
  assert (Hne := proj1 (proj2 Hinv)).
  destruct (last (chain (blockchain w))) as [tip|] eqn:Htip;
    [|by apply last_None in Htip].
  destruct (ledger_inv_add w tx Htx Hinv) as [Hinv1 Hs1].
  assert (Hp1 : pending (after_add w tx) = pending w ++ [dicts (heap w) !!! tx]).
  { unfold pending, txs_of. cbn. rewrite lookup_total_insert_eq.
    by rewrite fmap_app. }
  rewrite run_bind.
  destruct (Blockchain.mine_pending_transactions fuel (after_add w tx))
    as [[ob|e|l] w2] eqn:Hmine; [|done..].
  apply mine_pending_inv in Hmine; [|done].
  destruct Hmine as [(_ & _ & Hnil)|[(? & _)
                    |(tip' & n & _ & Htip' & Hret & -> & Hm)]]; [|done|].
  { exfalso. revert Hnil. cbn. rewrite lookup_total_insert_eq.
    by destruct (lists (heap w) !!! pending_transactions (blockchain w)). }
  change (chain (blockchain (after_add w tx))) with (chain (blockchain w)) in Htip'.
  rewrite Htip in Htip'. injection Htip' as <-.
  destruct (ledger_inv_seal (after_add w tx) tip n Hinv1 Htip) as [Hinv2 Hs2].
  cbv zeta in Hinv2, Hs2, Hm.
  set (b := with_nonce (heap (after_add w tx)) (candidate (after_add w tx) tip) n)
    in *.
  cbn beta iota. rewrite run_bind.
  unfold BlockchainPersistence.save_blockchain.
  rewrite run_bind. unfold Blockchain.to_dict. rewrite !run_bind.
  cbn [gets modify mret M_ret].
  intros [= <- <-]. split; [done|].
  eexists tip, b, _. split; [done|]. split; [done|].
  split.
  { change (sealed (with_blockchain_file _ ?x)) with (sealed x).
    by rewrite Hs2, Hs1, Hp1. }
  split; [done|]. split; [done|]. split; [done|].
  split.
  { unfold pending, txs_of. cbn. by rewrite lookup_total_insert_eq. }
  split.
  { apply (ledger_inv_keeps (after_seal (after_add w tx) b)); [done| |done].
    intros q. apply keeps_refl. }
  repeat (split; [reflexivity|]). reflexivity.
Qed.

Lemma ledger_inv_same w w' :
  heap w' = heap w → blockchain w' = blockchain w →
  ledger_inv w → ledger_inv w' ∧ sealed w' = sealed w ∧ pending w' = pending w.
Proof.
  intros Hh Hbc Hinv.
  destruct (ledger_inv_keeps w w' Hbc) as [? ?]; [|done|].
  { intros r. rewrite Hh. apply keeps_refl. }
  split; [done|]. split; [done|]. unfold pending. by rewrite Hh, Hbc.
Qed.

Lemma ledger_inv_new_dict w d :
  ledger_inv w →
  let r := fresh (dom (dicts (heap w))) in
  let w' := with_heap (λ h, mkHeap (lists h) (<[r := d]> (dicts h))) w in
  ledger_inv w' ∧ sealed w' = sealed w ∧ pending w' = pending w ∧
  r ∈ dom (dicts (heap w')) ∧ dicts (heap w') !!! r = d.
Proof.
  intros Hinv r w'.
  assert (Hnew : only_new_dicts w w').
  { by apply (new_dict_only_new_dicts d w r). }
  destruct (ledger_inv_only_new_dicts _ _ Hnew Hinv) as [Hinv' Hs].
  split; [done|]. split; [done|]. split; [|split].
  - apply (only_new_dicts_keeps _ _ (pending_transactions (blockchain w)) Hnew).
    apply Hinv.
  - cbn. rewrite dom_insert. set_solver.
  - cbn. by rewrite lookup_total_insert_eq.
Qed.

(** What a successful [upload_document] has done to the ledger. *)
Lemma upload_document_sealed fuel session_token document_name
    document_content document_type w md w' :
  ledger_inv w →
  EVaultController.upload_document fuel session_token document_name
    document_content document_type w = (Return md, w') →
  ∃ u tip b now v,
    session_user (auth w) session_token = Some u ∧
    last (chain (blockchain w)) = Some tip ∧
    chain (blockchain w') = chain (blockchain w) ++ [b] ∧
    sealed w'
      = sealed w ++
        [(b, pending w ++
             [upload_record (user_id u) (doc_hash md) document_name
                document_type now])] ∧
    index b = index tip + 1 ∧ previous_hash b = hash tip ∧
    meets_target (difficulty (blockchain w)) (hash b) = true ∧
    pending w' = [] ∧ ledger_inv w' ∧
    Blockchain.to_dict w' = (Return v, w') ∧ blockchain_file w' = JsonText v.
Proof.
  intros Hinv. unfold EVaultController.upload_document.
  rewrite run_bind, get_user_by_session_run.
  destruct (session_user _ _) as [u|] eqn:Hu; [|done].
  rewrite run_bind.
  destruct (DocumentStorage.store_document _ _ _ _ _ w) as [[md1|e|l] w1]
    eqn:Hstore; [|done..].
  apply store_document_inv in Hstore as Hst.
  destruct Hst as (_ & _ & _ & _ & _ & _ & _ & Hh1 & Hbc1 & _).
  destruct (ledger_inv_same w w1 Hh1 Hbc1 Hinv) as (Hinv1 & Hs1 & Hp1).
  rewrite run_bind. cbn [time_time]. rewrite run_bind. cbn [new_dict].
  cbn beta iota.
  set (w2 := with_env _ w1).
  destruct (ledger_inv_same w1 w2 eq_refl eq_refl Hinv1) as (Hinv2 & Hs2 & Hp2).
  set (d := list_to_map _).
  destruct (ledger_inv_new_dict w2 d Hinv2) as (Hinv3 & Hs3 & Hp3 & Hdom & Hd).
  cbv zeta in Hinv3, Hs3, Hp3, Hdom, Hd.
  intros Hrun.
  apply seal_transaction_run in Hrun as (-> & tip & b & v & Htip & Hc & Hs & Hi
    & Hp & Hm & Hpe & Hinv' & _ & _ & _ & Hto & Hfile); [|done..].
  exists u, tip, b, (clock (env w1) (ticks (env w1))), v.
  split; [done|]. split; [by rewrite <- Hbc1|]. split; [by rewrite <- Hbc1|].
  split.
  { rewrite Hs, Hs3, Hs2, Hs1, Hp3, Hp2, Hp1, Hd. reflexivity. }
  split; [done|]. split; [done|].
  split; [by rewrite <- Hbc1|]. done.
Qed.

(** X18: an upload that succeeds seals exactly one block on top of the
    chain; the block holds what was pending followed by one transaction
    of type "document_upload" with the user's identifier, the hash, the
    name and the type of the document; its index follows the tip's, its
    previous hash is the tip's hash and its hash meets the difficulty.
    The blocks sealed before are unchanged, the buffer is empty, the
    ledger passes [verify_blockchain], and the file holds the ledger as
    [to_dict] gives it. *)
Theorem upload_seals_one_block fuel session_token document_name
    document_content document_type w md w' :
  ledger_inv w →
  EVaultController.upload_document fuel session_token document_name
    document_content document_type w = (Return md, w') →
  ∃ u tip b now v,
    session_user (auth w) session_token = Some u ∧
    last (chain (blockchain w)) = Some tip ∧
    chain (blockchain w') = chain (blockchain w) ++ [b] ∧
    sealed w'
      = sealed w ++
        [(b, pending w ++
             [upload_record (user_id u) (doc_hash md) document_name
                document_type now])] ∧
    index b = index tip + 1 ∧ previous_hash b = hash tip ∧
    difficulty (blockchain w) ≤ Z.of_nat (leading_zeros (hash b)) ∧
    pending w' = [] ∧ ledger_inv w' ∧
    EVaultController.verify_blockchain w' = (Return true, w') ∧
    Blockchain.to_dict w' = (Return v, w') ∧ blockchain_file w' = JsonText v.
Proof.
  intros Hinv Hup.
  destruct (upload_document_sealed _ _ _ _ _ _ _ _ Hinv Hup)
    as (u & tip & b & now & v & Hu & Htip & Hc & Hs & Hi & Hp & Hm & Hpe
        & Hinv' & Hto & Hfile).
  exists u, tip, b, now, v.
  repeat (split; [assumption|]).
  split; [by apply meets_target_leading_zeros|].
  repeat (split; [assumption|]). split; [|done].
  unfold EVaultController.verify_blockchain. apply is_chain_valid_true, Hinv'.
Qed.

(** What a successful [transfer_document] has done to the ledger. *)
Lemma transfer_document_sealed fuel session_token document_hash
    recipient_username w new_md w' :
  ledger_inv w →
  EVaultController.transfer_document fuel session_token document_hash
    recipient_username w = (Return new_md, w') →
  ∃ sender recipient tip b now v,
    session_user (auth w) session_token = Some sender ∧
    users (auth w) !! recipient_username = Some recipient ∧
    last (chain (blockchain w)) = Some tip ∧
    chain (blockchain w') = chain (blockchain w) ++ [b] ∧
    sealed w'
      = sealed w ++
        [(b, pending w ++
             [transfer_record (user_id sender) (user_id recipient)
                document_hash (doc_name new_md) now])] ∧
    index b = index tip + 1 ∧ previous_hash b = hash tip ∧
    meets_target (difficulty (blockchain w)) (hash b) = true ∧
    pending w' = [] ∧ ledger_inv w' ∧
    Blockchain.to_dict w' = (Return v, w') ∧ blockchain_file w' = JsonText v.
Proof.
  intros Hinv. unfold EVaultController.transfer_document.
  rewrite run_bind, get_user_by_session_run.
  destruct (session_user _ _) as [sender|] eqn:Hsender; [|done].
  rewrite run_bind, retrieve_document_run.
  destruct (DocumentStorage.retrieve_document document_hash w).1
    as [[c old_md]|e|l] eqn:Hr; [|done..].
  destruct (String.eqb _ _) eqn:Hown; [|done]. cbn [negb].
  rewrite run_bind. cbn [gets].
  destruct (users (auth w) !! recipient_username) as [recipient|] eqn:Hrec;
    [|done].
  rewrite run_bind. cbn [time_time]. rewrite run_bind. cbn [new_dict].
  cbn beta iota.
  set (w0 := with_env _ w).
  destruct (ledger_inv_same w w0 eq_refl eq_refl Hinv) as (Hinv0 & Hs0 & Hp0).
  set (d := list_to_map _).
  destruct (ledger_inv_new_dict w0 d Hinv0) as (Hinv1 & Hs1 & Hp1 & Hdom & Hd).
  cbv zeta in Hinv1, Hs1, Hp1, Hdom, Hd.
  set (w1 := with_heap _ w0) in *.
  rewrite run_bind, (retrieve_document_run document_hash w1).
  rewrite (retrieve_document_ext document_hash w1 w) by done.
  rewrite Hr. rewrite run_bind. unfold DocumentStorage.b64decode_field at 1.
  destruct (b64decode (doc_encryption_key old_md)) as [key|] eqn:Hkey; [|done].
  cbn [mret M_ret]. rewrite run_bind.
  destruct (DocumentStorage.store_document _ _ _ _ _ w1) as [[md1|e|l] w2]
    eqn:Hstore; [|done..].
  apply store_document_inv in Hstore as Hst.
  destruct Hst as (key' & iv' & _ & _ & _ & Hmd1 & _ & Hh2 & Hbc2 & _).
  destruct (ledger_inv_same w1 w2 Hh2 Hbc2 Hinv1) as (Hinv2 & Hs2 & Hp2).
  intros Hrun.
  apply seal_transaction_run in Hrun as (Heq & tip & b & v & Htip & Hc & Hs & Hi
    & Hp & Hm & Hpe & Hinv' & _ & _ & _ & Hto & Hfile);
    [|done|by rewrite Hh2].
  rewrite Heq.
  exists sender, recipient, tip, b, (clock (env w) (ticks (env w))), v.
  split; [done|]. split; [done|].
  split; [by rewrite Hbc2 in Htip|]. split; [by rewrite Hbc2 in Hc|].
  split.
  { rewrite Hs, Hs2, Hs1, Hs0, Hp2, Hp1, Hp0, Hh2, Hd.
    rewrite Hmd1. reflexivity. }
  split; [done|]. split; [done|].
  split; [by rewrite Hbc2 in Hm|]. done.
Qed.

(** X19: a transfer that succeeds seals exactly one block on top of the
    chain; the block holds what was pending followed by one transaction
    of type "document_transfer" with the identifiers of sender and
    recipient, the hash and the name of the document. The blocks sealed
    before are unchanged, the buffer is empty, the ledger passes
    [verify_blockchain], and the file holds the ledger. *)
Theorem transfer_seals_one_block fuel session_token document_hash
    recipient_username w new_md w' :
  ledger_inv w →
  EVaultController.transfer_document fuel session_token document_hash
    recipient_username w = (Return new_md, w') →
  ∃ sender recipient tip b now v,
    session_user (auth w) session_token = Some sender ∧
    users (auth w) !! recipient_username = Some recipient ∧
    last (chain (blockchain w)) = Some tip ∧
    chain (blockchain w') = chain (blockchain w) ++ [b] ∧
    sealed w'
      = sealed w ++
        [(b, pending w ++
             [transfer_record (user_id sender) (user_id recipient)
                document_hash (doc_name new_md) now])] ∧
    index b = index tip + 1 ∧ previous_hash b = hash tip ∧
    difficulty (blockchain w) ≤ Z.of_nat (leading_zeros (hash b)) ∧
    pending w' = [] ∧ ledger_inv w' ∧
    EVaultController.verify_blockchain w' = (Return true, w') ∧
    Blockchain.to_dict w' = (Return v, w') ∧ blockchain_file w' = JsonText v.
Proof.
  intros Hinv Htr.
  destruct (transfer_document_sealed _ _ _ _ _ _ _ Hinv Htr)
    as (sender & recipient & tip & b & now & v & Hs & Hr & Htip & Hc & Hsealed
        & Hi & Hp & Hm & Hpe & Hinv' & Hto & Hfile).
  exists sender, recipient, tip, b, now, v.
  repeat (split; [assumption|]).
  split; [by apply meets_target_leading_zeros|].
  repeat (split; [assumption|]). split; [|done].
  unfold EVaultController.verify_blockchain. apply is_chain_valid_true, Hinv'.
Qed.


End recording.

Section mining.
Context `{Externals}.

(** X22: [mine_block] tries the nonces after the block's own one by one
    and stops at the first whose digest meets the target: it returns the
    block itself when its hash already meets the target, and otherwise
    the block with the first nonce above its own whose digest does, with
    that digest as hash. Index, timestamp, transactions and previous hash
    are untouched, and so is the world. *)
Theorem mine_block_first_nonce fuel :
  ∀ b d w b' w',
    Block.mine_block fuel b d w = (Return b', w') →
    w' = w ∧ meets_target d (hash b') = true ∧
    index b' = index b ∧ timestamp b' = timestamp b ∧
    transactions b' = transactions b ∧ previous_hash b' = previous_hash b ∧
    ∃ k : nat,
      (k < fuel)%nat ∧ nonce b' = nonce b + Z.of_nat k ∧
      (k = 0%nat → b' = b) ∧
      ((0 < k)%nat →
         meets_target d (hash b) = false ∧
         b' = with_nonce (heap w) b (nonce b + Z.of_nat k)) ∧
      ∀ j : nat, (0 < j < k)%nat →
        meets_target d
          (hash (with_nonce (heap w) b (nonce b + Z.of_nat j))) = false.
Proof.
  induction fuel as [|fuel IH]; intros b d w b' w'; [done|].
  cbn [Block.mine_block]. fold (meets_target d (hash b)).
  destruct (meets_target d (hash b)) eqn:Hm; cbn [negb].
  - intros [= <- <-]. repeat (split; [done|]).
    exists 0%nat. split; [lia|]. split; [lia|]. split; [done|].
    split; [lia|]. intros j Hj. lia.
  - rewrite run_bind, calculate_hash_run.
    change (set_hash _ _) with (with_nonce (heap w) b (nonce b + 1)).
    intros Hrun. apply IH in Hrun
      as (-> & Hm' & Hi & Ht & Htx & Hp & k & Hk & Hn & H0 & Hpos & Hbefore).
    split; [done|]. split; [done|].
    split; [exact Hi|]. split; [exact Ht|]. split; [exact Htx|].
    split; [exact Hp|].
    exists (S k). split; [lia|]. split; [cbn in Hn; lia|].
    split; [intros [=]|].
    assert (Hb' : b' = with_nonce (heap w) b (nonce b + Z.of_nat (S k))).
    { destruct k as [|k].
      - rewrite (H0 eq_refl). f_equal; lia.
      - destruct Hpos as [_ ->]; [lia|]. rewrite with_nonce_idem.
        f_equal; cbn; lia. }
    split; [intros _; split; [reflexivity|exact Hb']|].
    intros j Hj. destruct (decide (j = 1%nat)) as [->|Hj1].
    + destruct k as [|k]; [lia|].
      destruct Hpos as [Hfail _]; [lia|]. exact Hfail.
    + specialize (Hbefore (j - 1)%nat). rewrite with_nonce_idem in Hbefore.
      replace (nonce (with_nonce (heap w) b (nonce b + 1)) + Z.of_nat (j - 1))
        with (nonce b + Z.of_nat j) in Hbefore by (cbn; lia).
      apply Hbefore. lia.
Qed.
End mining.

Section restart.
Context `{Externals}.

Lemma restart_after_save w v :
  ledger_inv w →
  Blockchain.to_dict w = (Return v, w) → blockchain_file w = JsonText v →
  ∃ w',
    EVaultController.init w = (Return (), w') ∧
    ledger_value w' = ledger_value w ∧ ledger_inv w' ∧
    EVaultController.verify_blockchain w' = (Return true, w') ∧
    storage w' = storage w ∧ auth w' = auth w ∧
    blockchain_file w' = blockchain_file w.
Proof.
  intros (Hwf & Hne & Hvalid) Hto Hfile.
  destruct (load_saved_ledger w v w Hto Hfile)
    as (w' & Hrun & Hval & Hwf' & Hvalid' & Hst & Hau & Hfile').
  assert (Hinv' : ledger_inv w').
  { split; [done|]. split; [|by rewrite Hvalid'].
    intros Hnil. apply Hne.
    assert (Hlen : length (chain (blockchain w')) = length (chain (blockchain w))).
    { unfold ledger_value in Hval. injection Hval as Hc _ _.
      by rewrite <- (length_fmap (block_value (heap w'))), Hc, length_fmap. }
    rewrite Hnil in Hlen. by destruct (chain (blockchain w)). }
  exists w'. unfold EVaultController.init. rewrite run_bind, Hrun.
  split; [done|]. split; [done|]. split; [done|].
  split; [by apply is_chain_valid_true, Hinv'|].
  split; [done|]. split; [done|]. by rewrite Hfile.
Qed.

(** X23: after an upload or a transfer that succeeds, starting the
    controller again on the files left behind restores the ledger: the
    same blocks, pending transactions and difficulty, passing
    [verify_blockchain]; the store and the directory are untouched. *)
Theorem ledger_survives_restart w w' :
  ledger_inv w →
  ((∃ fuel session_token document_name document_content document_type md,
      EVaultController.upload_document fuel session_token document_name
        document_content document_type w = (Return md, w')) ∨
   (∃ fuel session_token document_hash recipient_username md,
      EVaultController.transfer_document fuel session_token document_hash
        recipient_username w = (Return md, w'))) →
  ∃ w'',
    EVaultController.init w' = (Return (), w'') ∧
    ledger_value w'' = ledger_value w' ∧ ledger_inv w'' ∧
    length (chain (blockchain w'')) = S (length (chain (blockchain w))) ∧
    EVaultController.verify_blockchain w'' = (Return true, w'') ∧
    storage w'' = storage w' ∧ auth w'' = auth w' ∧
    blockchain_file w'' = blockchain_file w'.
Proof.
  intros Hinv Hop.
  assert (Hsaved : ∃ b v,
            chain (blockchain w') = chain (blockchain w) ++ [b] ∧
            ledger_inv w' ∧ Blockchain.to_dict w' = (Return v, w') ∧
            blockchain_file w' = JsonText v).
  { destruct Hop as [(fuel & t & n & c & ty & md & Hup)
                    |(fuel & t & h & r & md & Htr)].
    - destruct (upload_document_sealed _ _ _ _ _ _ _ _ Hinv Hup)
        as (_ & _ & b & _ & v & _ & _ & Hc & _ & _ & _ & _ & _ & Hinv' & Hto
            & Hfile).
      by exists b, v.
    - destruct (transfer_document_sealed _ _ _ _ _ _ _ Hinv Htr)
        as (_ & _ & _ & b & _ & v & _ & _ & _ & Hc & _ & _ & _ & _ & _ & Hinv'
            & Hto & Hfile).
      by exists b, v. }
  destruct Hsaved as (b & v & Hc & Hinv' & Hto & Hfile).
  destruct (restart_after_save w' v Hinv' Hto Hfile)
    as (w'' & Hrun & Hval & Hinv'' & Hver & Hst & Hau & Hf).
  exists w''. split; [done|]. split; [done|]. split; [done|].
  split; [|done].
  assert (Hlen : length (chain (blockchain w'')) = length (chain (blockchain w'))).
  { unfold ledger_value in Hval. injection Hval as Hcv _ _.
    by rewrite <- (length_fmap (block_value (heap w''))), Hcv, length_fmap. }
  rewrite Hlen, Hc, length_app. cbn. lia.
Qed.

(** X21: [upload_document] is not undone when the ledger fails: on a
    ledger without blocks it raises [IndexError] after the document has
    been stored, so the document is in the store, retrievable by its
    owner, while no block records it and the ledger file is as it was. *)
Theorem upload_on_empty_chain_keeps_the_document `{!ExternalLaws} fuel
    session_token document_name (document_content : bytes) document_type w u :
  chain (blockchain w) = [] →
  session_user (auth w) session_token = Some u →
  ∃ md w',
    EVaultController.upload_document fuel session_token document_name
      document_content document_type w = (Raise IndexError, w') ∧
    metadata (storage w') !! sha256_hexdigest document_content = Some md ∧
    doc_user_id md = user_id u ∧
    EVaultController.get_document session_token
      (sha256_hexdigest document_content) w'
      = (Return (document_content, md), w') ∧
    chain (blockchain w') = [] ∧
    blockchain_file w' = blockchain_file w.
Proof.
  intros Hc Hu. unfold EVaultController.upload_document.
  rewrite run_bind, get_user_by_session_run, Hu. cbn beta iota.
  destruct (store_document_returns (user_id u) document_name document_content
              document_type None w) as (md & w1 & Hstore); [done|].
  rewrite run_bind, Hstore. cbn beta iota.
  apply store_document_inv in Hstore as Hshape.
  destruct Hshape as (key & iv & _ & _ & _ & Hmd & _ & Hh1 & Hbc1 & Hau1 & Hf1).
  apply store_document_holds in Hstore as (Hlook & Hholds & _).
  assert (Hhash : doc_hash md = sha256_hexdigest document_content)
    by (by rewrite Hmd).
  rewrite Hhash in Hlook, Hholds.
  rewrite run_bind. cbn [time_time]. rewrite run_bind. cbn [new_dict].
  cbn beta iota. rewrite run_bind, add_transaction_run.
  cbn [blockchain with_heap with_env]. rewrite Hbc1, Hc. cbn [last].
  eexists md, _. split; [reflexivity|].
  split; [exact Hlook|]. split; [by rewrite Hmd|].
  split; [|split; [by cbn; rewrite Hbc1|exact Hf1]].
  rewrite get_document_run. cbn [auth after_add with_heap with_env].
  rewrite Hau1, Hu.
  rewrite (retrieve_document_ext _ _ w1) by reflexivity.
  rewrite (retrieve_held w1 _ md document_content Hlook Hholds). cbn [fst].
  replace (doc_user_id md) with (user_id u) by (by rewrite Hmd).
  by rewrite String.eqb_refl.
Qed.
End restart.

Section demo_directory_witnesses.
#[local] Existing Instance Demo.externals.

Lemma demo_alice_login :
  UserAuth.login "alice" "pw1" Demo.registered
  = (Return (Some Demo.alice_token), Demo.alice_in).
Proof.
  unfold Demo.alice_in.
  change (EVaultController.login "alice" "pw1")
    with (UserAuth.login "alice" "pw1").
  rewrite (run_pair (UserAuth.login "alice" "pw1") Demo.registered) at 1.
  apply (f_equal (λ o, (o, Demo.world_after (UserAuth.login "alice" "pw1")
                              Demo.registered))).
  evaluate.
Qed.

Lemma register_then_login_witness :
  (∃ u w1 token w3,
     UserAuth.register_user "carol" "pw3" "c@x" Demo.registered = (Return u, w1) ∧
     role u = "user" ∧
     UserAuth.login "carol" "pw3" w1 = (Return (Some token), w3) ∧
     UserAuth.get_user_by_session token w3 = (Return (Some u), w3)) ∧
  UserAuth.register_user "alice" "other" "x@x" Demo.registered
    = (Raise (ValueError "Username already exists"), Demo.registered).
Proof.
  destruct (register_then_login "carol" "pw3" "c@x" Demo.registered)
    as [Hfree _].
  destruct (register_then_login "alice" "other" "x@x" Demo.registered)
    as [_ Htaken].
  split.
  - destruct Hfree as (u & w1 & Hreg & _ & _ & Hrole & Husers & _ & Hlogin);
      [evaluate|].
    destruct (Hlogin w1) as (token & w3 & Hl & _ & Hs).
    { rewrite Husers. apply lookup_insert_eq. }
    exists u, w1, token, w3. exact (conj Hreg (conj Hrole (conj Hl Hs))).
  - apply Htaken. evaluate.
Defined.

Lemma login_needs_matching_digest_witness :
  ∃ u,
    users (auth Demo.registered) !! "alice" = Some u ∧
    sha256_hexdigest (encode ("pw1" ++ salt u)) = hashed_password u ∧
    sessions (auth Demo.alice_in)
      = <[Demo.alice_token := mkSession (user_id u) "alice"]>
          (sessions (auth Demo.registered)).
Proof.
  destruct (login_needs_matching_digest "alice" "pw1" Demo.registered
              (Return (Some Demo.alice_token)) Demo.alice_in demo_alice_login)
    as (u & Hu & Hdigest & Hsessions & _).
  exists u. exact (conj Hu (conj Hdigest Hsessions)).
Defined.

Lemma logout_ends_the_session_witness :
  ∃ w',
    UserAuth.logout Demo.alice_token Demo.logged_in = (Return true, w') ∧
    UserAuth.get_user_by_session Demo.alice_token w' = (Return None, w') ∧
    UserAuth.get_user_by_session Demo.bob_token w'
      = (Return (session_user (auth Demo.logged_in) Demo.bob_token), w') ∧
    UserAuth.logout Demo.alice_token w' = (Return false, w').
Proof.
  destruct (logout_ends_the_session Demo.alice_token Demo.logged_in)
    as (b & w' & Hrun & Hb & Hgone & Hothers & _ & Hagain).
  assert (Htrue : b = true) by (apply Hb; evaluate).
  rewrite Htrue in Hrun.
  exists w'. split; [exact Hrun|]. split; [exact Hgone|].
  split; [|exact Hagain]. apply Hothers. evaluate.
Defined.

Lemma change_password_then_login_witness :
  ∃ u' w1 token w2,
    UserAuth.change_password "alice" "pw1" "pw9" Demo.logged_in
      = (Return true, w1) ∧
    UserAuth.login "alice" "pw9" w1 = (Return (Some token), w2) ∧
    UserAuth.get_user_by_session Demo.alice_token w1 = (Return (Some u'), w1).
Proof.
  assert (Hu : ∃ u, users (auth Demo.logged_in) !! "alice" = Some u ∧
                    sha256_hexdigest (encode ("pw1" ++ salt u))
                    = hashed_password u ∧
                    ∃ s, sessions (auth Demo.logged_in) !! Demo.alice_token
                         = Some s ∧ session_username s = "alice").
  { vm_compute. eexists. split; [reflexivity|]. split; [reflexivity|].
    eexists. split; reflexivity. }
  destruct Hu as (u & Hu & Hpw & s & Hs & Hname).
  destruct (change_password_then_login "alice" "pw1" "pw9" Demo.logged_in u
              Hu Hpw)
    as (u' & w1 & Hrun & _ & _ & _ & _ & _ & _ & _ & _ & _
        & (token & w2 & Hlogin & _) & _ & Hsessions).
  exists u', w1, token, w2. split; [exact Hrun|]. split; [exact Hlogin|].
  exact (Hsessions Demo.alice_token s Hs Hname).
Defined.

Lemma change_password_refused_witness :
  UserAuth.change_password "zed" "pw1" "pw9" Demo.registered
    = (Return false, Demo.registered) ∧
  UserAuth.change_password "alice" "guess" "pw9" Demo.registered
    = (Return false, Demo.registered).
Proof.
  destruct (change_password_refused "zed" "pw1" "pw9" Demo.registered)
    as (Hunknown & _).
  destruct (change_password_refused "alice" "guess" "pw9" Demo.registered)
    as (_ & Hwrong & _).
  split; [apply Hunknown; evaluate|].
  assert (Hu : ∃ u, users (auth Demo.registered) !! "alice" = Some u ∧
                    sha256_hexdigest (encode ("guess" ++ salt u))
                    ≠ hashed_password u).
  { vm_compute. eexists. split; [reflexivity|]. intros E. discriminate E. }
  destruct Hu as (u & Hu & Hne).
  exact (proj1 (Hwrong u Hu Hne)).
Defined.

Lemma get_user_by_id_finds_the_user_witness :
  ∃ u,
    users (auth Demo.registered) !! "alice" = Some u ∧
    UserAuth.get_user_by_id (user_id u) Demo.registered
      = (Return (UserAuth.get_user_by_id_loop
                   (map_to_list (users (auth Demo.registered))) (user_id u)),
         Demo.registered) ∧
    UserAuth.get_user_by_id_loop
      (map_to_list (users (auth Demo.registered))) (user_id u) = Some u ∧
    (UserAuth.get_user_by_id_loop
       (map_to_list (users (auth Demo.registered))) "no-such-id" = None).
Proof.
  assert (Hu : ∃ u, users (auth Demo.registered) !! "alice" = Some u ∧
                    ∀ name' u', (name', u') ∈ map_to_list (users (auth Demo.registered)) →
                                user_id u' = user_id u → u' = u).
  { vm_compute. eexists. split; [reflexivity|].
    intros name' u' Hin Hid.
    apply elem_of_cons in Hin as [Hin|Hin];
      [injection Hin as _ ->; try reflexivity; try discriminate Hid|].
    apply elem_of_cons in Hin as [Hin|Hin];
      [injection Hin as _ ->; try reflexivity; try discriminate Hid|].
    by apply elem_of_nil in Hin. }
  destruct Hu as (u & Hu & Huniq).
  destruct (get_user_by_id_finds_the_user (user_id u)
              Demo.registered (map_to_list (users (auth Demo.registered))))
    as (Hrun & _ & _ & Hfind); [reflexivity|].
  destruct (get_user_by_id_finds_the_user "no-such-id"
              Demo.registered (map_to_list (users (auth Demo.registered))))
    as (_ & Hnone & _); [reflexivity|].
  exists u. split; [exact Hu|]. split; [exact Hrun|]. split.
  - apply (Hfind "alice" u Hu eq_refl). intros name' u' Hu' Hid.
    apply (Huniq name'); [|exact Hid]. apply elem_of_map_to_list. exact Hu'.
  - apply Hnone. intros name u0 Hu0.
    apply elem_of_map_to_list in Hu0. revert Hu0. vm_compute.
    intros Hin E.
    apply elem_of_cons in Hin as [Hin|Hin];
      [injection Hin as _ ->; discriminate E|].
    apply elem_of_cons in Hin as [Hin|Hin];
      [injection Hin as _ ->; discriminate E|].
    by apply elem_of_nil in Hin.
Defined.
End demo_directory_witnesses.

Section demo_vault_witnesses.
#[local] Existing Instance Demo.externals.

Lemma demo_sender :
  ∃ sender,
    session_user (auth Demo.uploaded) Demo.alice_token = Some sender ∧
    user_id sender = "737a81888f969da4abb2b9c0c7ced5dc".
Proof. eexists. split; evaluate. Qed.

Lemma demo_recipient :
  ∃ recipient,
    users (auth Demo.uploaded) !! "bob" = Some recipient ∧
    user_id recipient = "535a61686f767d848b9299a0a7aeb5bc".
Proof. eexists. split; evaluate. Qed.

Lemma demo_logged_in_inv : ledger_inv Demo.logged_in.
Proof.
  apply reachable_inv.
  apply (reach_elsewhere Demo.ledger_new);
    [eapply (reach_init Demo.world0); reflexivity|evaluate|evaluate].
Qed.

Lemma demo_uploaded_ledger_inv : ledger_inv Demo.uploaded.
Proof.
  destruct demo_upload_returns as (md & Hup).
  destruct (upload_document_sealed _ _ _ _ _ _ _ _ demo_logged_in_inv Hup)
    as (_ & _ & _ & _ & _ & _ & _ & _ & _ & _ & _ & _ & _ & Hinv & _).
  exact Hinv.
Qed.

Lemma delete_document_removes_one_witness :
  ∃ w',
    DocumentStorage.delete_document Demo.hello_hash Demo.uploaded
      = (Return true, w') ∧
    DocumentStorage.retrieve_document Demo.hello_hash w'
      = (Raise (ValueError
                  ("Document with hash " ++ Demo.hello_hash ++ " not found")),
         w') ∧
    blockchain w' = blockchain Demo.uploaded ∧
    DocumentStorage.delete_document Demo.hello_hash w' = (Return false, w').
Proof.
  destruct (delete_document_removes_one Demo.hello_hash Demo.uploaded)
    as (b & w' & Hrun & Hb & _ & _ & Hgone & _ & _ & _ & Hbc & _ & _ & Hagain).
  assert (Htrue : b = true) by (apply Hb; evaluate).
  rewrite Htrue in Hrun.
  exists w'. exact (conj Hrun (conj Hgone (conj Hbc Hagain))).
Defined.

Lemma transfer_moves_the_listing_witness :
  ∃ new_md docs_before docs_after,
    EVaultController.transfer_document 5000 Demo.alice_token Demo.hello_hash
      "bob" Demo.uploaded = (Return new_md, Demo.transferred) ∧
    EVaultController.get_user_documents Demo.alice_token Demo.uploaded
      = (Return docs_before, Demo.uploaded) ∧
    is_Some (docs_before !! Demo.hello_hash) ∧
    EVaultController.get_user_documents Demo.alice_token Demo.transferred
      = (Return (delete Demo.hello_hash docs_before), Demo.transferred) ∧
    EVaultController.get_user_documents Demo.bob_token Demo.transferred
      = (Return docs_after, Demo.transferred) ∧
    docs_after !! Demo.hello_hash = Some new_md.
Proof.
  destruct demo_transfer_returns as (new_md & Htransfer).
  destruct demo_sender as (sender & Hsender & Hsid).
  destruct demo_recipient as (recipient & Hrec & Hrid).
  assert (Hne : user_id recipient ≠ user_id sender).
  { rewrite Hsid, Hrid. intros E. discriminate E. }
  destruct (@transfer_moves_the_listing Demo.externals demo_laws _ _ _ _ _ _ _
              sender recipient demo_uploaded_inv Htransfer Hsender Hrec Hne)
    as (docs_before & Hbefore & Hhas & Hafter & Hrecipient).
  destruct (Hrecipient Demo.bob_token
              (mkSession "535a61686f767d848b9299a0a7aeb5bc" "bob"))
    as (docs & Hdocs & Hnew & _); [evaluate|evaluate|].
  exists new_md, docs_before, docs.
  exact (conj Htransfer (conj Hbefore (conj Hhas (conj Hafter
           (conj Hdocs Hnew))))).
Defined.

Lemma upload_then_get_document_witness :
  ∃ md docs,
    EVaultController.upload_document 5000 Demo.alice_token "greet.txt"
      Demo.hello "text/plain" Demo.logged_in = (Return md, Demo.uploaded) ∧
    EVaultController.get_document Demo.alice_token (doc_hash md) Demo.uploaded
      = (Return (Demo.hello, md), Demo.uploaded) ∧
    doc_size md = 5%nat ∧ doc_name md = "greet.txt" ∧
    EVaultController.get_user_documents Demo.alice_token Demo.uploaded
      = (Return docs, Demo.uploaded) ∧
    docs !! doc_hash md = Some md.
Proof.
  destruct demo_upload_returns as (md & Hup).
  destruct (@upload_then_get_document Demo.externals demo_laws _ _ _ _ _ _ _ _
              Hup)
    as (Hget & _ & Hsize & Hname & _ & _ & docs & Hdocs & Hlisted).
  exists md, docs.
  exact (conj Hup (conj Hget (conj Hsize (conj Hname (conj Hdocs Hlisted))))).
Defined.

Lemma demo_get_document_returns :
  ∃ content md,
    EVaultController.get_document Demo.alice_token Demo.hello_hash Demo.uploaded
    = (Return (content, md), Demo.uploaded).
Proof.
  rewrite get_document_pair.
  destruct (returns_pair
              (EVaultController.get_document Demo.alice_token Demo.hello_hash)
              Demo.uploaded) as ([c md] & Ho & _); [evaluate|].
  exists c, md. rewrite Ho. reflexivity.
Qed.

Lemma get_document_only_to_owner_witness :
  ∃ content md u,
    EVaultController.get_document Demo.alice_token Demo.hello_hash Demo.uploaded
      = (Return (content, md), Demo.uploaded) ∧
    metadata (storage Demo.uploaded) !! Demo.hello_hash = Some md ∧
    session_user (auth Demo.uploaded) Demo.alice_token = Some u ∧
    doc_user_id md = user_id u.
Proof.
  destruct demo_get_document_returns as (c & md & Hget).
  destruct (get_document_only_to_owner _ _ _ _ _ _ Hget)
    as (_ & Hmd & _ & u & Hu & Hown).
  exists c, md, u. exact (conj Hget (conj Hmd (conj Hu Hown))).
Defined.

Lemma invalid_session_is_refused_witness :
  EVaultController.upload_document 5000 "stale" "greet.txt" Demo.hello
    "text/plain" Demo.uploaded
    = (Raise (ValueError "Invalid session"), Demo.uploaded) ∧
  EVaultController.get_document "stale" Demo.hello_hash Demo.uploaded
    = (Raise (ValueError "Invalid session"), Demo.uploaded) ∧
  EVaultController.transfer_document 5000 "stale" Demo.hello_hash "bob"
    Demo.uploaded
    = (Raise (ValueError "Invalid session"), Demo.uploaded) ∧
  EVaultController.get_user_documents "stale" Demo.uploaded
    = (Raise (ValueError "Invalid session"), Demo.uploaded) ∧
  EVaultController.get_document_history "stale" Demo.hello_hash Demo.uploaded
    = (Raise (ValueError "Invalid session"), Demo.uploaded) ∧
  EVaultController.get_user_transactions "stale" Demo.uploaded
    = (Raise (ValueError "Invalid session"), Demo.uploaded).
Proof.
  destruct (invalid_session_is_refused "stale" Demo.uploaded)
    as (Hup & Hget & Htr & Hdocs & Hhist & Htxs); [evaluate|].
  exact (conj (Hup 5000%nat "greet.txt" Demo.hello "text/plain")
           (conj (Hget Demo.hello_hash)
              (conj (Htr 5000%nat Demo.hello_hash "bob")
                 (conj Hdocs (conj (Hhist Demo.hello_hash) Htxs))))).
Defined.

Lemma transfer_refused_changes_nothing_witness :
  EVaultController.transfer_document 5000 Demo.alice_token "feed" "bob"
    Demo.uploaded
    = (Raise (ValueError "Document with hash feed not found"), Demo.uploaded) ∧
  EVaultController.transfer_document 5000 Demo.bob_token Demo.hello_hash "bob"
    Demo.uploaded
    = (Raise (ValueError "Access denied"), Demo.uploaded) ∧
  EVaultController.transfer_document 5000 Demo.alice_token Demo.hello_hash
    "carol" Demo.uploaded
    = (Raise (ValueError "Recipient user 'carol' not found"), Demo.uploaded).
Proof.
  destruct demo_sender as (alice & Halice & Haid).
  assert (Hbob : ∃ bob, session_user (auth Demo.uploaded) Demo.bob_token
                        = Some bob ∧
                        user_id bob = "535a61686f767d848b9299a0a7aeb5bc").
  { eexists. split; evaluate. }
  destruct Hbob as (bob & Hbob & Hbid).
  assert (Hdoc : ∃ content md,
            DocumentStorage.retrieve_document Demo.hello_hash Demo.uploaded
              = (Return (content, md), Demo.uploaded) ∧
            doc_user_id md = "737a81888f969da4abb2b9c0c7ced5dc").
  { rewrite retrieve_document_run.
    destruct (returns_pair
                (DocumentStorage.retrieve_document Demo.hello_hash)
                Demo.uploaded) as ([c md] & Ho & _); [evaluate|].
    exists c, md. unfold Demo.outcome_of in Ho. rewrite Ho.
    split; [reflexivity|]. revert Ho. vm_compute. intros [= _ <-]. reflexivity. }
  destruct Hdoc as (c & md & Hget & Hown).
  destruct (transfer_refused_changes_nothing 5000 Demo.alice_token "feed" "bob"
              Demo.uploaded alice Halice) as (Hmissing & _).
  destruct (transfer_refused_changes_nothing 5000 Demo.bob_token
              Demo.hello_hash "bob" Demo.uploaded bob Hbob) as (_ & Hdenied & _).
  destruct (transfer_refused_changes_nothing 5000 Demo.alice_token
              Demo.hello_hash "carol" Demo.uploaded alice Halice)
    as (_ & _ & Hunknown).
  split; [apply Hmissing; evaluate|]. split.
  - apply (Hdenied c md Hget). rewrite Hown, Hbid. intros E. discriminate E.
  - apply (Hunknown c md Hget); [by rewrite Hown, Haid|evaluate].
Defined.
End demo_vault_witnesses.

Section demo_ledger_witnesses.
#[local] Existing Instance Demo.externals.

Lemma demo_sealing :
  ∃ b,
    Blockchain.mine_pending_transactions 5000 Demo.ledger_pending
      = (Return (Some b), Demo.ledger_sealed) ∧
    hash b = "0030".
Proof.
  unfold Demo.ledger_sealed.
  destruct (returns_pair (Blockchain.mine_pending_transactions 5000)
              Demo.ledger_pending) as ([b|] & Ho & Hrun); [evaluate| |].
  - exists b. split; [exact Hrun|]. revert Ho. vm_compute.
    intros [= <-]. reflexivity.
  - exfalso. revert Ho. vm_compute. intros E. discriminate E.
Qed.

Lemma get_block_by_hash_first_match_witness :
  ∃ b,
    Blockchain.get_block_by_hash "0030" Demo.ledger_sealed
      = (Return (Some b), Demo.ledger_sealed) ∧
    hash b = "0030" ∧
    Blockchain.get_block_by_hash "ffff" Demo.ledger_sealed
      = (Return None, Demo.ledger_sealed).
Proof.
  destruct demo_sealing as (b & Hmine & Hb).
  destruct (get_block_by_hash_first_match "0030" Demo.ledger_sealed)
    as (r & Hrun & _ & _ & Hmined).
  destruct (Hmined 5000%nat Demo.ledger_pending b Hmine Hb) as (b' & Hr & Hb').
  rewrite Hr in Hrun.
  destruct (get_block_by_hash_first_match "ffff" Demo.ledger_sealed)
    as (r0 & Hrun0 & Hnone & _).
  assert (Hr0 : r0 = None).
  { apply Hnone. vm_compute. intros b0 Hin E.
    apply elem_of_cons in Hin as [Hin|Hin];
      [rewrite Hin in E; discriminate E|].
    apply elem_of_cons in Hin as [Hin|Hin];
      [rewrite Hin in E; discriminate E|].
    by apply elem_of_nil in Hin. }
  rewrite Hr0 in Hrun0.
  exists b'. exact (conj Hrun (conj Hb' Hrun0)).
Defined.

Lemma reachable_ledger_shape_witness :
  difficulty (blockchain Demo.ledger_sealed) = 2 ∧
  (∀ i b, chain (blockchain Demo.ledger_sealed) !! i = Some b →
     index b = Z.of_nat i ∧
     (txs_of (heap Demo.ledger_sealed) (transactions b) = [] ↔ i = 0%nat) ∧
     ((1 ≤ i)%nat → (2 ≤ leading_zeros (hash b))%nat)) ∧
  (∀ tx, ∃ w',
     Blockchain.add_transaction tx Demo.ledger_sealed
       = (Return (Z.of_nat (length (chain (blockchain Demo.ledger_sealed)))),
          w')).
Proof. exact (reachable_ledger_shape Demo.ledger_sealed ledger_sealed_reachable). Defined.

Lemma add_transaction_announces_block_witness :
  ∃ i b,
    Blockchain.add_transaction 1%positive Demo.ledger_note
      = (Return i, Demo.ledger_pending) ∧
    Blockchain.mine_pending_transactions 5000 Demo.ledger_pending
      = (Return (Some b), Demo.ledger_sealed) ∧
    index b = i ∧
    lists (heap Demo.ledger_sealed) !!! transactions b
      = (lists (heap Demo.ledger_note)
           !!! pending_transactions (blockchain Demo.ledger_note))
        ++ [1%positive] ∧
    chain (blockchain Demo.ledger_sealed)
      = chain (blockchain Demo.ledger_note) ++ [b].
Proof.
  destruct demo_sealing as (b & Hmine & _).
  assert (Hadd : ∃ i, Blockchain.add_transaction 1%positive Demo.ledger_note
                      = (Return i, Demo.ledger_pending)).
  { unfold Demo.ledger_pending.
    destruct (returns_pair (Blockchain.add_transaction 1%positive)
                Demo.ledger_note) as (i & _ & Hrun); [evaluate|].
    exists i. exact Hrun. }
  destruct Hadd as (i & Hadd).
  destruct (add_transaction_announces_block _ _ _ _ _ _ _ Hadd Hmine)
    as (Hi & Hheld & Hchain & _).
  exists i, b. exact (conj Hadd (conj Hmine (conj Hi (conj Hheld Hchain)))).
Defined.

Lemma empty_chain_raises_index_error_witness :
  blockchain_file Demo.with_json_empty_object = JsonText (PDict ∅) ∧
  chain (blockchain Demo.without_genesis) = [] ∧
  ∃ w1,
    Blockchain.add_transaction 1%positive Demo.without_genesis
      = (Raise IndexError, w1) ∧
    lists (heap w1) !!! pending_transactions (blockchain w1)
      = (lists (heap Demo.without_genesis)
           !!! pending_transactions (blockchain Demo.without_genesis))
        ++ [1%positive] ∧
    Blockchain.mine_pending_transactions 5000 w1 = (Raise IndexError, w1).
Proof.
  assert (Hempty : chain (blockchain Demo.without_genesis) = []) by evaluate.
  destruct (empty_chain_raises_index_error 1%positive Demo.without_genesis Hempty)
    as (w1 & Hadd & _ & _ & Hbuf & Hmine).
  split; [reflexivity|]. split; [exact Hempty|].
  exists w1. exact (conj Hadd (conj Hbuf (Hmine 5000%nat))).
Defined.

Lemma upload_seals_one_block_witness :
  ∃ md tip b,
    EVaultController.upload_document 5000 Demo.alice_token "greet.txt"
      Demo.hello "text/plain" Demo.logged_in = (Return md, Demo.uploaded) ∧
    last (chain (blockchain Demo.logged_in)) = Some tip ∧
    chain (blockchain Demo.uploaded) = chain (blockchain Demo.logged_in) ++ [b] ∧
    index b = index tip + 1 ∧ previous_hash b = hash tip ∧
    pending Demo.uploaded = [] ∧
    EVaultController.verify_blockchain Demo.uploaded
      = (Return true, Demo.uploaded).
Proof.
  destruct demo_upload_returns as (md & Hup).
  destruct (upload_seals_one_block _ _ _ _ _ _ _ _ demo_logged_in_inv Hup)
    as (u & tip & b & now & v & _ & Htip & Hchain & _ & Hi & Hp & _ & Hpe & _
        & Hvalid & _).
  exists md, tip, b.
  exact (conj Hup (conj Htip (conj Hchain (conj Hi (conj Hp
           (conj Hpe Hvalid)))))).
Defined.

Lemma transfer_seals_one_block_witness :
  ∃ new_md sender recipient b now,
    EVaultController.transfer_document 5000 Demo.alice_token Demo.hello_hash
      "bob" Demo.uploaded = (Return new_md, Demo.transferred) ∧
    session_user (auth Demo.uploaded) Demo.alice_token = Some sender ∧
    users (auth Demo.uploaded) !! "bob" = Some recipient ∧
    sealed Demo.transferred
      = sealed Demo.uploaded ++
        [(b, pending Demo.uploaded ++
             [transfer_record (user_id sender) (user_id recipient)
                Demo.hello_hash (doc_name new_md) now])] ∧
    EVaultController.verify_blockchain Demo.transferred
      = (Return true, Demo.transferred).
Proof.
  destruct demo_transfer_returns as (new_md & Htransfer).
  destruct (transfer_seals_one_block _ _ _ _ _ _ _ demo_uploaded_ledger_inv
              Htransfer)
    as (sender & recipient & tip & b & now & v & Hs & Hr & _ & _ & Hsealed & _
        & _ & _ & _ & _ & Hvalid & _).
  exists new_md, sender, recipient, b, now.
  exact (conj Htransfer (conj Hs (conj Hr (conj Hsealed Hvalid)))).
Defined.


Lemma upload_on_empty_chain_keeps_the_document_witness :
  ∃ md w',
    EVaultController.upload_document 5000 Demo.alice_token_without_genesis
      "greet.txt" Demo.hello "text/plain" Demo.alice_without_genesis
      = (Raise IndexError, w') ∧
    metadata (storage w') !! Demo.hello_hash = Some md ∧
    EVaultController.get_document Demo.alice_token_without_genesis
      Demo.hello_hash w' = (Return (Demo.hello, md), w') ∧
    chain (blockchain w') = [].
Proof.
  assert (Hempty : chain (blockchain Demo.alice_without_genesis) = [])
    by evaluate.
  assert (Hu : ∃ u, session_user (auth Demo.alice_without_genesis)
                      Demo.alice_token_without_genesis = Some u).
  { evaluate. }
  destruct Hu as (u & Hu).
  destruct (@upload_on_empty_chain_keeps_the_document Demo.externals demo_laws
              5000%nat Demo.alice_token_without_genesis "greet.txt" Demo.hello
              "text/plain" Demo.alice_without_genesis u Hempty Hu)
    as (md & w' & Hup & Hmd & _ & Hget & Hchain & _).
  exists md, w'. exact (conj Hup (conj Hmd (conj Hget Hchain))).
Defined.

Lemma mine_block_first_nonce_witness :
  ∃ b' k,
    Block.mine_block 5000 (Demo.genesis_block Demo.ledger_new) 1 Demo.ledger_new
      = (Return b', Demo.ledger_new) ∧
    meets_target 1 (hash b') = true ∧
    transactions b' = transactions (Demo.genesis_block Demo.ledger_new) ∧
    nonce b' = nonce (Demo.genesis_block Demo.ledger_new) + Z.of_nat k.
Proof.
  destruct (returns_pair
              (Block.mine_block 5000 (Demo.genesis_block Demo.ledger_new) 1)
              Demo.ledger_new) as (b' & _ & Hrun); [evaluate|].
  destruct (mine_block_first_nonce _ _ _ _ _ _ Hrun)
    as (Hw & Hm & _ & _ & Htx & _ & k & _ & Hn & _).
  rewrite Hw in Hrun.
  exists b', k. exact (conj Hrun (conj Hm (conj Htx Hn))).
Defined.

Lemma ledger_survives_restart_witness :
  ∃ w'',
    EVaultController.init Demo.uploaded = (Return (), w'') ∧
    ledger_value w'' = ledger_value Demo.uploaded ∧
    length (chain (blockchain w'')) = 2%nat ∧
    EVaultController.verify_blockchain w'' = (Return true, w'') ∧
    storage w'' = storage Demo.uploaded ∧ auth w'' = auth Demo.uploaded.
Proof.
  destruct demo_upload_returns as (md & Hup).
  destruct (ledger_survives_restart Demo.logged_in Demo.uploaded
              demo_logged_in_inv)
    as (w'' & Hinit & Hval & _ & Hlen & Hvalid & Hst & Hau & _).
  { left. exists 5000%nat, Demo.alice_token, "greet.txt", Demo.hello,
      "text/plain", md. exact Hup. }
  exists w''. split; [exact Hinit|]. split; [exact Hval|].
  split; [|exact (conj Hvalid (conj Hst Hau))].
  rewrite Hlen. evaluate.
Defined.
End demo_ledger_witnesses.

Section scans_after_recording.
Context `{Externals}.




End scans_after_recording.

Section demo_scan_witnesses.
#[local] Existing Instance Demo.externals.


End demo_scan_witnesses.
